(** * EVAA tool server: context extraction, URL validation, session loggers
      and the four tool handlers of [server.py] / [logging_config.py].

    Python [str] values are modelled by [string]: a sequence of characters
    whose code points lie in 0..255.  [None]-able parameters are [option]s.
    Module-level state ([_session_loggers], the registry of the [logging]
    module, the [session_context] variable, the console) is a record that
    is threaded through a small state-and-exception monad. *)

From Stdlib Require Import String Ascii List Bool Arith ZArith Lia.
From Stdlib Require Import DecimalString.
From stdpp Require Import gmap strings.

Import ListNotations.
Open Scope string_scope.

(** ** Characters and the [str] methods the code calls *)

Module PyStr.

Definition code (c : ascii) : N := N_of_ascii c.

(** [str.isspace] on one character, for code points below 256. *)
Definition is_space (c : ascii) : bool :=
  let n := code c in
  (((9 <=? n) && (n <=? 13)) || ((28 <=? n) && (n <=? 32))
   || (n =? 133) || (n =? 160))%N.

(** [str.lower] / [str.upper] on one character, for code points below 256:
    the ASCII letters and the Latin-1 letters 0xC0..0xDE (0xD7 is a sign). *)
Definition lower (c : ascii) : ascii :=
  let n := code c in
  if (((65 <=? n) && (n <=? 90))
      || ((192 <=? n) && (n <=? 222) && negb (n =? 215)))%N
  then ascii_of_N (n + 32) else c.

Definition upper (c : ascii) : ascii :=
  let n := code c in
  if (((97 <=? n) && (n <=? 122))
      || ((224 <=? n) && (n <=? 254) && negb (n =? 247)))%N
  then ascii_of_N (n - 32) else c.

Fixpoint map_chars (f : ascii -> ascii) (s : string) : string :=
  match s with
  | EmptyString => EmptyString
  | String c s' => String (f c) (map_chars f s')
  end.

(** [str.upper]: the sharp s (223) becomes "SS".  The upper-case forms of
    the micro sign (181) and of y with diaeresis (255) are the code points
    924 and 376, which lie outside the alphabet of the model; these two
    characters are left as they are.  The titles that the handlers pass
    are ASCII. *)
Fixpoint str_upper (s : string) : string :=
  match s with
  | EmptyString => EmptyString
  | String c s' =>
      if (code c =? 223)%N then String "S" (String "S" (str_upper s'))
      else String (upper c) (str_upper s')
  end.

(** [s.lstrip(chars)], [s.rstrip(chars)], [s.strip(chars)] with the set of
    characters given as a predicate. *)
Fixpoint lstrip_by (p : ascii -> bool) (s : string) : string :=
  match s with
  | EmptyString => EmptyString
  | String c s' => if p c then lstrip_by p s' else s
  end.

Fixpoint rstrip_by (p : ascii -> bool) (s : string) : string :=
  match s with
  | EmptyString => EmptyString
  | String c s' =>
      match rstrip_by p s' with
      | EmptyString => if p c then EmptyString else String c EmptyString
      | r => String c r
      end
  end.

Definition strip_by (p : ascii -> bool) (s : string) : string :=
  rstrip_by p (lstrip_by p s).

(** [s.strip()] *)
Definition strip : string -> string := strip_by is_space.

(** [s.strip('/')] and the like *)
Definition strip_chars (chars : string) : string -> string :=
  strip_by (fun c => existsb (Ascii.eqb c) (list_ascii_of_string chars)).

(** [s.split(sep)] for a one-character separator: never the empty list. *)
Fixpoint split (sep : ascii) (s : string) : list string :=
  match s with
  | EmptyString => [EmptyString]
  | String c s' =>
      if Ascii.eqb c sep then EmptyString :: split sep s'
      else match split sep s' with
           | hd :: tl => String c hd :: tl
           | [] => [String c EmptyString]
           end
  end.

(** [sub in s] *)
Fixpoint contains (sub s : string) : bool :=
  String.prefix sub s
  || match s with
     | EmptyString => false
     | String _ s' => contains sub s'
     end.

(** [s[:n]] *)
Fixpoint take (n : nat) (s : string) : string :=
  match n, s with
  | S n', String c s' => String c (take n' s')
  | _, _ => EmptyString
  end.

(** [s[n:]] *)
Fixpoint drop (n : nat) (s : string) : string :=
  match n, s with
  | S n', String _ s' => drop n' s'
  | _, _ => s
  end.

(** Truthiness of a [str]: the empty string is falsy. *)
Definition nonempty (s : string) : bool :=
  match s with EmptyString => false | _ => true end.

(** Truthiness of an optional [str]: [None] and [""] are falsy. *)
Definition truthy (o : option string) : bool :=
  match o with Some s => nonempty s | None => false end.

(** [a or b] on optional strings. *)
Definition py_or (a b : option string) : option string :=
  if truthy a then a else b.

(** [str(x)] inside an f-string, for an optional string. *)
Definition fmt (o : option string) : string :=
  match o with Some s => s | None => "None" end.

(** [str(n)] for a non-negative integer. *)
Definition str_of_N (n : N) : string :=
  NilZero.string_of_uint (N.to_uint n).

End PyStr.

(** ** The fragment of [re] that the patterns of [server.py] use *)

Module Re.

Import PyStr.

Inductive regex : Type :=
| Eps                                (* empty pattern *)
| Chr (c : ascii)                    (* a literal character *)
| Space                              (* \s *)
| NotChr (c : ascii)                 (* [^c] *)
| Range (lo hi : ascii)              (* [lo-hi] *)
| Cat (r1 r2 : regex)
| Alt (r1 r2 : regex)                (* r1|r2 *)
| Star (r : regex)                   (* r*, greedy *)
| Plus (r : regex)                   (* r+, greedy *)
| Group (r : regex).                 (* (r), capturing *)

(** A run of literal characters. *)
Fixpoint lit (s : string) : regex :=
  match s with
  | EmptyString => Eps
  | String c s' => Cat (Chr c) (lit s')
  end.

(** A literal against a character, with [re.IGNORECASE] when [ic] is set.
    Within the alphabet of the model (code points 0..255) two characters
    match without regard to case exactly when their lower-case forms are
    equal.  Outside of it [re] folds two more characters onto ASCII letters
    (the long s, 383, onto "s" and the Kelvin sign, 8490, onto "k"); a
    theorem about a case-insensitive search speaks of texts within the
    alphabet. *)
Definition chr_matches (ic : bool) (c a : ascii) : bool :=
  if ic then Ascii.eqb (lower c) (lower a) else Ascii.eqb c a.

Definition in_range (lo hi a : ascii) : bool :=
  ((code lo <=? code a) && (code a <=? code hi))%N.

Definition range_matches (ic : bool) (lo hi a : ascii) : bool :=
  in_range lo hi a
  || (ic && (in_range lo hi (lower a) || in_range lo hi (upper a))).

Definition notchr_matches (ic : bool) (c a : ascii) : bool :=
  negb (chr_matches ic c a).

(** The text consumed between input [s] and the remaining input [rest]. *)
Definition consumed (s rest : string) : string :=
  take (String.length s - String.length rest) s.

Section Matcher.
Context {R : Type}.

(** The continuation receives the remaining input and the groups closed
    so far; [None] makes the matcher backtrack. *)
Definition cont : Type := string -> list string -> option R.

Definition one (p : ascii -> bool) (s : string) (gs : list string)
           (k : cont) : option R :=
  match s with
  | String a s' => if p a then k s' gs else None
  | EmptyString => None
  end.

(** Greedy repetition of [step]: one more iteration is tried first and
    must consume input; when it fails, the continuation is tried. *)
Fixpoint star_loop (step : string -> list string -> cont -> option R)
         (fuel : nat) (s : string) (gs : list string) (k : cont)
  : option R :=
  match fuel with
  | O => k s gs
  | S n =>
      match step s gs
              (fun s1 g1 =>
                 if (String.length s1 <? String.length s)%nat
                 then star_loop step n s1 g1 k else None)
      with
      | Some x => Some x
      | None => k s gs
      end
  end.

Fixpoint rmatch (ic : bool) (r : regex) (s : string) (gs : list string)
         (k : cont) : option R :=
  match r with
  | Eps => k s gs
  | Chr c => one (chr_matches ic c) s gs k
  | Space => one is_space s gs k
  | NotChr c => one (notchr_matches ic c) s gs k
  | Range lo hi => one (range_matches ic lo hi) s gs k
  | Cat r1 r2 => rmatch ic r1 s gs (fun s1 g1 => rmatch ic r2 s1 g1 k)
  | Alt r1 r2 =>
      match rmatch ic r1 s gs k with
      | Some x => Some x
      | None => rmatch ic r2 s gs k
      end
  | Star r1 => star_loop (rmatch ic r1) (String.length s) s gs k
  | Plus r1 =>
      rmatch ic r1 s gs
        (fun s1 g1 => star_loop (rmatch ic r1) (String.length s1) s1 g1 k)
  | Group r1 =>
      rmatch ic r1 s gs (fun s1 g1 => k s1 (g1 ++ [consumed s s1])%list)
  end.
End Matcher.

(** A match object: where it starts, [group(0)] and the numbered groups. *)
Record rmatch_obj : Type := MatchObj {
  m_start : nat;
  m_text : string;
  m_groups : list string
}.

(** [m.group(i)] for [i >= 1]. *)
Definition group (m : rmatch_obj) (i : nat) : string :=
  nth (i - 1) (m_groups m) EmptyString.

(** The pattern matched at the very start of [s]: the rest and the groups. *)
Definition match_here (ic : bool) (r : regex) (s : string)
  : option (string * list string) :=
  rmatch ic r s [] (fun rest gs => Some (rest, gs)).

(** [re.search(r, s)]: the leftmost position at which the pattern matches. *)
Fixpoint search_from (ic : bool) (r : regex) (i : nat) (s : string)
  : option rmatch_obj :=
  match match_here ic r s with
  | Some (rest, gs) => Some (MatchObj i (consumed s rest) gs)
  | None =>
      match s with
      | EmptyString => None
      | String _ s' => search_from ic r (S i) s'
      end
  end.

Definition search (ic : bool) (r : regex) (s : string) : option rmatch_obj :=
  search_from ic r 0 s.

Definition is_match (o : option rmatch_obj) : bool :=
  match o with Some _ => true | None => false end.

(** [re.sub(r, repl, s)] for a constant replacement: every leftmost,
    non-overlapping match is replaced.  [skip] counts the characters of the
    current match that are still to be dropped. *)
Fixpoint sub_from (ic : bool) (r : regex) (repl : string) (skip : nat)
         (s : string) : string :=
  match s with
  | EmptyString =>
      match skip, match_here ic r EmptyString with
      | O, Some _ => repl
      | _, _ => EmptyString
      end
  | String c s' =>
      match skip with
      | S n => sub_from ic r repl n s'
      | O =>
          match match_here ic r s with
          | Some (rest, _) =>
              match String.length s - String.length rest with
              | O => repl +:+ String c (sub_from ic r repl 0 s')
              | S n => repl +:+ sub_from ic r repl n s'
              end
          | None => String c (sub_from ic r repl 0 s')
          end
      end
  end.

Definition sub (ic : bool) (r : regex) (repl s : string) : string :=
  sub_from ic r repl 0 s.

End Re.

(** ** [urllib.parse.urlparse], as far as [validate_url] reads its result *)

Module UrlLib.

Import PyStr.

Definition is_ascii_alpha (c : ascii) : bool :=
  let n := code c in
  (((65 <=? n) && (n <=? 90)) || ((97 <=? n) && (n <=? 122)))%N.

Definition is_digit (c : ascii) : bool :=
  let n := code c in ((48 <=? n) && (n <=? 57))%N.

(** [scheme_chars]: letters, digits and [+-.] *)
Definition is_scheme_char (c : ascii) : bool :=
  is_ascii_alpha c || is_digit c
  || Ascii.eqb c "+" || Ascii.eqb c "-" || Ascii.eqb c ".".

(** [_WHATWG_C0_CONTROL_OR_SPACE]: code points 0..32 *)
Definition is_c0_or_space (c : ascii) : bool := (code c <=? 32)%N.

(** [_UNSAFE_URL_BYTES_TO_REMOVE]: tab, carriage return, line feed *)
Definition is_unsafe (c : ascii) : bool :=
  let n := code c in ((n =? 9) || (n =? 10) || (n =? 13))%N.

Fixpoint remove_chars (p : ascii -> bool) (s : string) : string :=
  match s with
  | EmptyString => EmptyString
  | String c s' =>
      if p c then remove_chars p s' else String c (remove_chars p s')
  end.

Fixpoint forall_chars (p : ascii -> bool) (s : string) : bool :=
  match s with
  | EmptyString => true
  | String c s' => p c && forall_chars p s'
  end.

Fixpoint has_char (c : ascii) (s : string) : bool :=
  match s with
  | EmptyString => false
  | String a s' => Ascii.eqb a c || has_char c s'
  end.

(** The longest prefix without a character satisfying [p], and the rest. *)
Fixpoint break_at (p : ascii -> bool) (s : string) : string * string :=
  match s with
  | EmptyString => (EmptyString, EmptyString)
  | String c s' =>
      if p c then (EmptyString, s)
      else let '(a, b) := break_at p s' in (String c a, b)
  end.

Record ParseResult : Type := Parsed {
  scheme : string;
  netloc : string
}.

Section Urlparse.
(** The check that [urlsplit] runs on a netloc holding both [[] and []]
    (an IPv6 literal): [Some msg] when it raises [ValueError(msg)].  It is
    the library's, and differs between Python versions. *)
Variable check_bracketed_netloc : string -> option string.

(** [urlparse(url)]: the scheme and netloc of the result, or the message
    of the [ValueError] raised. *)
Definition urlparse (url0 : string) : string + ParseResult :=
  let url := remove_chars is_unsafe (lstrip_by is_c0_or_space url0) in
  let '(sch, url1) :=
    match break_at (Ascii.eqb ":") url with
    | (String c0 pre, String _ rest) =>
        if is_ascii_alpha c0 && forall_chars is_scheme_char (String c0 pre)
        then (map_chars lower (String c0 pre), rest)
        else (EmptyString, url)
    | _ => (EmptyString, url)
    end in
  match url1 with
  | String "/" (String "/" after) =>
      let nl :=
        fst (break_at (fun c => Ascii.eqb c "/" || Ascii.eqb c "?"
                                || Ascii.eqb c "#") after) in
      let lb := has_char "[" nl in
      let rb := has_char "]" nl in
      if (lb && negb rb) || (rb && negb lb) then inl "Invalid IPv6 URL"
      else if lb && rb then
        match check_bracketed_netloc nl with
        | Some msg => inl msg
        | None => inr (Parsed sch nl)
        end
      else inr (Parsed sch nl)
  | _ => inr (Parsed sch EmptyString)
  end.
End Urlparse.

End UrlLib.

(** ** [server.py]: the pure helpers *)

Module Helpers.

Import PyStr Re UrlLib.

(** The dict built by [extract_context_from_message]. *)
Record Context : Type := MkContext {
  ctx_session_id : option string;
  ctx_path : option string;
  ctx_bot_id : option string;
  clean_message : string
}.

(** [r'\[NAME:\s*([^\]]+)\]'] *)
Definition tag_value_re (name : string) : regex :=
  Cat (lit ("[" +:+ name +:+ ":"))
      (Cat (Star Space)
           (Cat (Group (Plus (NotChr "]"))) (Chr "]"))).

(** [r'\[NAME:[^\]]*\]\s*'] *)
Definition tag_strip_re (name : string) : regex :=
  Cat (lit ("[" +:+ name +:+ ":"))
      (Cat (Star (NotChr "]"))
           (Cat (Chr "]") (Star Space))).

(** [m.group(1).strip()] when [re.search] found [m], else [None]. *)
Definition tag_value (name message : string) : option string :=
  match search false (tag_value_re name) message with
  | Some m => Some (strip (group m 1))
  | None => None
  end.

Definition strip_tags (message : string) : string :=
  let clean := sub false (tag_strip_re "SESSION_ID") "" message in
  let clean := sub false (tag_strip_re "PATH") "" clean in
  sub false (tag_strip_re "BOT_ID") "" clean.

Definition extract_context_from_message (message : string) : Context :=
  {| ctx_session_id := tag_value "SESSION_ID" message;
     ctx_path := tag_value "PATH" message;
     ctx_bot_id := tag_value "BOT_ID" message;
     clean_message := strip (strip_tags message) |}.

Definition get_bot_id_from_path (path : string) : string :=
  if nonempty path
  then List.last (split "/" (strip_chars "/" path)) EmptyString
  else EmptyString.

(** The dict returned by [validate_url]. *)
Record Validation : Type := MkValidation {
  valid : bool;
  reason : string
}.

Definition dangerous_patterns : list regex :=
  [ lit "localhost";
    lit "127.0.0.1";
    lit "0.0.0.0";
    lit "192.168.";
    lit "10.";
    Cat (lit "172.")
        (Cat (Group (Alt (Cat (Chr "1") (Range "6" "9"))
                         (Alt (Cat (Chr "2") (Range "0" "9"))
                              (Cat (Chr "3") (Range "0" "1")))))
             (Chr "."));
    lit "file://";
    lit "javascript:";
    lit "data:" ].

(** ['localhost' in url and ('3001' in url or '5174' in url)] *)
Definition dev_exception (url : string) : bool :=
  contains "localhost" url && (contains "3001" url || contains "5174" url).

Definition security_reject : Validation :=
  MkValidation false "URL not allowed for security reasons".

(** The [for pattern in dangerous_patterns] loop: [Some v] when it returns
    from inside the loop, [None] when it runs to its end. *)
Fixpoint check_patterns (url : string) (patterns : list regex)
  : option Validation :=
  match patterns with
  | [] => None
  | pattern :: rest =>
      if is_match (search true pattern url)
      then if dev_exception url
           then check_patterns url rest
           else Some security_reject
      else check_patterns url rest
  end.

Section ValidateUrl.
Variable check_bracketed_netloc : string -> option string.

Definition validate_url (url : string) : Validation :=
  if negb (nonempty url) then MkValidation false "No URL provided"
  else
    match urlparse check_bracketed_netloc url with
    | inl msg => MkValidation false ("URL validation error: " +:+ msg)
    | inr parsed =>
        if negb (String.eqb (scheme parsed) "http"
                 || String.eqb (scheme parsed) "https")
        then MkValidation false "Only HTTP and HTTPS protocols are allowed"
        else if negb (nonempty (netloc parsed))
        then MkValidation false "Invalid URL format - no domain found"
        else if (String.length (netloc parsed) <? 3)%nat
                || negb (has_char "." (netloc parsed))
        then MkValidation false "Invalid domain format"
        else
          match check_patterns url dangerous_patterns with
          | Some v => v
          | None => MkValidation true "URL is valid"
          end
    end.
End ValidateUrl.

End Helpers.

(** ** Exceptions, module state and the monad the effectful code runs in *)

Module Py.

(** Instances of Python's [Exception] that the modelled code can meet. *)
Inductive exn : Type :=
| NameError (name : string)
| OSError (msg : string)
| ValueError (msg : string)
| ServiceError (msg : string).   (* raised by the vector-index client *)

(** [str(e)] *)
Definition str_exn (e : exn) : string :=
  match e with
  | NameError name => "name '" +:+ name +:+ "' is not defined"
  | OSError msg => msg
  | ValueError msg => msg
  | ServiceError msg => msg
  end.

Inductive Outcome (A : Type) : Type :=
| Returns (a : A)
| Raises (e : exn).
Arguments Returns {A} a.
Arguments Raises {A} e.

(** A computation over a state [S] that returns a value or raises. *)
Definition M (S A : Type) : Type := S -> Outcome A * S.

Definition ret {S A} (a : A) : M S A := fun s => (Returns a, s).

Definition bind {S A B} (m : M S A) (k : A -> M S B) : M S B :=
  fun s =>
    match m s with
    | (Returns a, s') => k a s'
    | (Raises e, s') => (Raises e, s')
    end.

Definition raise {S A} (e : exn) : M S A := fun s => (Raises e, s).

(** [try: m  except Exception as e: h e] *)
Definition try_except {S A} (m : M S A) (h : exn -> M S A) : M S A :=
  fun s =>
    match m s with
    | (Returns a, s') => (Returns a, s')
    | (Raises e, s') => h e s'
    end.

Definition get {S} : M S S := fun s => (Returns s, s).
Definition modify {S} (f : S -> S) : M S unit := fun s => (Returns tt, f s).

(** [if c: m] *)
Definition when {S} (c : bool) (m : M S unit) : M S unit :=
  if c then m else ret tt.

Fixpoint for_each {S A} (l : list A) (body : A -> M S unit) : M S unit :=
  match l with
  | [] => ret tt
  | x :: l' => bind (body x) (fun _ => for_each l' body)
  end.

#[global] Instance M_ret {S} : MRet (M S) := fun A => @ret S A.
#[global] Instance M_bind {S} : MBind (M S) := fun A B k m => @bind S A B m k.

End Py.

(** ** The state the two modules share with their environment *)

Module Env.

Import PyStr Py Helpers.

(** The named levels of [logging]. *)
Inductive Level : Type := DEBUG | INFO | WARNING | ERROR | CRITICAL.

(** [logging.DEBUG] .. [logging.CRITICAL] as numbers. *)
Definition levelno (l : Level) : N :=
  match l with
  | DEBUG => 10
  | INFO => 20
  | WARNING => 30
  | ERROR => 40
  | CRITICAL => 50
  end.

(** The sinks [_create_session_logger] attaches.  A path is kept as the
    sequence of parts joined by [pathlib]'s [/]. *)
Inductive Handler : Type :=
| FileHandler (path : list string) (level : Level)
| StreamHandler (level : Level).

(** The attributes of a [logging.Logger] that the code sets. *)
Record Logger : Type := MkLogger {
  lg_level : Level;
  lg_propagate : bool;
  lg_handlers : list Handler
}.

(** [logging.getLogger] hands out one object per name, so a logger object
    is referred to by its name. *)
Definition logger_ref : Type := string.

Record LogRecord : Type := MkRecord {
  rec_logger : logger_ref;
  rec_level : Level;
  rec_session : option string;
  rec_msg : string
}.

(** What the file system does during one [_create_session_logger]. *)
Inductive FsOutcome : Type :=
| FsOk
| MkdirRaises (msg : string)
| OpenRaises (msg : string).

(** One hit of the vector index: its [repr] and its [score] attribute. *)
Record Hit : Type := MkHit {
  hit_repr : string;
  hit_score : option string
}.

Inductive SearchOutcome : Type :=
| SearchRaises (e : exn)
| SearchHits (hits : list Hit).

Record World : Type := MkWorld {
  session_loggers : gmap string logger_ref;   (* [_session_loggers] *)
  loggers : gmap string Logger;               (* the [logging] registry *)
  session_context : option Context;           (* [None]: the default [{}] *)
  records : list LogRecord;                   (* records logged, newest first *)
  console : list string;                      (* lines printed, newest first *)
  fs_script : list FsOutcome;                 (* file system, call by call *)
  today : string;                             (* [%Y-%m-%d] of [datetime.now()] *)
  now_ms : N;                                 (* [int(time.time() * 1000)] *)
  search_records : string -> string -> SearchOutcome
                                              (* namespace, text -> the index *)
}.

Definition set_session_loggers (m : gmap string logger_ref) (w : World) :=
  MkWorld m (loggers w) (session_context w) (records w) (console w)
          (fs_script w) (today w) (now_ms w) (search_records w).

Definition set_loggers (m : gmap string Logger) (w : World) :=
  MkWorld (session_loggers w) m (session_context w) (records w) (console w)
          (fs_script w) (today w) (now_ms w) (search_records w).

Definition set_session_context (c : option Context) (w : World) :=
  MkWorld (session_loggers w) (loggers w) c (records w) (console w)
          (fs_script w) (today w) (now_ms w) (search_records w).

Definition set_records (r : list LogRecord) (w : World) :=
  MkWorld (session_loggers w) (loggers w) (session_context w) r (console w)
          (fs_script w) (today w) (now_ms w) (search_records w).

Definition set_console (c : list string) (w : World) :=
  MkWorld (session_loggers w) (loggers w) (session_context w) (records w) c
          (fs_script w) (today w) (now_ms w) (search_records w).

Definition set_fs_script (f : list FsOutcome) (w : World) :=
  MkWorld (session_loggers w) (loggers w) (session_context w) (records w)
          (console w) f (today w) (now_ms w) (search_records w).

(** [print(line)] *)
Definition print (line : string) : M World unit :=
  modify (fun w => set_console (line :: console w) w).

(** The next answer of the file system; it works when nothing is scripted. *)
Definition next_fs : M World FsOutcome :=
  fun w =>
    match fs_script w with
    | [] => (Returns FsOk, w)
    | o :: rest => (Returns o, set_fs_script rest w)
    end.

End Env.

(** ** [logging_config.py] *)

Module LoggingConfig.

Import PyStr Py Helpers Env.

Definition base_log_dir : string := "C:\logs\Evaa agentic logs".

(** [logging.getLogger(name)] followed by [setLevel], [handlers.clear()]
    and [propagate = False]: the logger of that name, made if need be, ends
    with these attributes. *)
Definition reset_logger (name : string) (level : Level) : M World unit :=
  modify (fun w => set_loggers (<[name := MkLogger level false []]> (loggers w)) w).

(** [logger.addHandler(h)] *)
Definition addHandler (name : string) (h : Handler) : M World unit :=
  modify (fun w =>
    match loggers w !! name with
    | Some l =>
        set_loggers
          (<[name := MkLogger (lg_level l) (lg_propagate l)
                              (lg_handlers l ++ [h])%list]> (loggers w)) w
    | None => w
    end).

(** A path with a NUL character is refused by [os.mkdir] and by [open]
    with a [ValueError], before the file system is asked. *)
Definition has_nul (s : string) : bool :=
  existsb (Ascii.eqb "000") (list_ascii_of_string s).

Definition null_byte : exn := ValueError "embedded null byte".

Definition _create_session_logger (project_name session_id : string)
           (log_level : Level) : M World logger_ref :=
  (* project_dir.mkdir(parents=True, exist_ok=True) *)
  if has_nul project_name then raise null_byte
  else
    fs ← next_fs;
    match fs with
    | MkdirRaises msg => raise (OSError msg)
    | _ =>
        w ← get;
        let date_str := today w in
        let log_filename :=
          date_str +:+ "_SESSION-" +:+ session_id +:+ ".log" in
        let log_path := [base_log_dir; project_name; log_filename] in
        let logger_name := project_name +:+ "." +:+ session_id in
        reset_logger logger_name log_level;;
        (* logging.FileHandler(log_path, mode='a', encoding='utf-8') *)
        if has_nul session_id then raise null_byte
        else
          match fs with
          | OpenRaises msg => raise (OSError msg)
          | _ =>
              addHandler logger_name (FileHandler log_path log_level);;
              addHandler logger_name (StreamHandler log_level);;
              mret logger_name
          end
    end.

Definition get_session_logger (project_name : string)
           (session_id : option string) (log_level : Level)
  : M World logger_ref :=
  let session_id :=
    if negb (truthy session_id) then "NO_SESSION" else fmt session_id in
  let logger_key := project_name +:+ "_" +:+ session_id in
  w ← get;
  match session_loggers w !! logger_key with
  | Some logger => mret logger
  | None =>
      logger ← _create_session_logger project_name session_id log_level;
      modify (fun w =>
        set_session_loggers (<[logger_key := logger]> (session_loggers w)) w);;
      mret logger
  end.

(** [SessionLoggerAdapter(logger, session_id)] *)
Record SessionLoggerAdapter : Type := MkAdapter {
  ad_logger : logger_ref;
  ad_session_id : option string
}.

(** [logger.isEnabledFor(level)]: the level of the message is not below
    the level of the logger.  A logger that no call has configured has the
    level of the root logger, [WARNING] unless the host changes it. *)
Definition enabled_for (registry : gmap string Logger) (name : logger_ref)
           (level : Level) : bool :=
  match registry !! name with
  | Some l => (levelno (lg_level l) <=? levelno level)%N
  | None => (levelno WARNING <=? levelno level)%N
  end.

(** [logger.info(msg)], [logger.warning(msg)], [logger.error(msg)] through
    the adapter: [if self.isEnabledFor(level): self.logger.log(...)].  The
    record carries the adapter's session id; a message below the level of
    the logger leaves no record. *)
Definition log (logger : SessionLoggerAdapter) (level : Level) (msg : string)
  : M World unit :=
  modify (fun w =>
    set_records
      ((if enabled_for (loggers w) (ad_logger logger) level
        then [MkRecord (ad_logger logger) level (ad_session_id logger) msg]
        else []) ++ records w)%list w).

Definition info l msg := log l INFO msg.
Definition warning l msg := log l WARNING msg.
Definition error l msg := log l ERROR msg.

Fixpoint repeat_str (s : string) (n : nat) : string :=
  match n with
  | O => EmptyString
  | S n' => s +:+ repeat_str s n'
  end.

Definition log_section_separator (logger : SessionLoggerAdapter)
           (title : string) : M World unit :=
  let separator := repeat_str "=" 100 in
  if nonempty title then
    info logger separator;;
    info logger ("  " +:+ str_upper title);;
    info logger separator
  else info logger separator.

Definition log_dict (logger : SessionLoggerAdapter)
           (data_dict : list (string * string)) (title : string)
  : M World unit :=
  info logger ("┌─ " +:+ title +:+ " "
               +:+ repeat_str "─" (90 - String.length title));;
  for_each data_dict (fun '(key, str_value) =>
    let str_value :=
      if (200 <? String.length str_value)%nat
      then take 200 str_value +:+ "..." else str_value in
    info logger ("│  " +:+ key +:+ ": " +:+ str_value));;
  info logger ("└" +:+ repeat_str "─" 99).

End LoggingConfig.

(** ** [server.py]: session context and the tool handlers *)

Module Server.

Import PyStr Py Helpers Env LoggingConfig.

(** The names that the top-level statements of [server.py] bind ([io] on
    Windows only). *)
Definition module_names : list string :=
  [ "sys"; "os"; "io"; "requests"; "json"; "re"; "contextvars"; "time";
    "urlparse"; "tool"; "Pinecone"; "BaseModel"; "StructuredTool";
    "root_validator"; "Dict"; "Optional"; "PINECONE_API_KEY";
    "PINECONE_INDEX_NAME"; "FORM_URL_1"; "FORM_URL_2";
    "cancelAppointmentFormUrl"; "rescheduleAppointmentFormUrl"; "FastMCP";
    "get_session_logger"; "SessionLoggerAdapter"; "log_section_separator";
    "log_dict"; "mcp"; "pinecone"; "index"; "session_context";
    "extract_context_from_message"; "get_bot_id_from_path";
    "get_session_context"; "extract_url_from_message"; "validate_url";
    "NoInputSchema"; "book_appointment_tool"; "cancel_appointment_tool";
    "reschedule_appointment_tool"; "rag_retrieval_tool" ].

(** Reading a name that a function does not assign: it is looked up among
    the module's names (no builtin is called [logger]).  The object found
    is used as a logger by the caller. *)
Definition load_global (name : string) : M World SessionLoggerAdapter :=
  if existsb (String.eqb name) module_names
  then mret (MkAdapter name None)
  else raise (NameError name).

(** [context.items()] with each value under [str]. *)
Definition context_items (c : Context) : list (string * string) :=
  [ ("session_id", fmt (ctx_session_id c));
    ("path", fmt (ctx_path c));
    ("bot_id", fmt (ctx_bot_id c));
    ("clean_message", clean_message c) ].

Definition get_session_context (query : string) : M World Context :=
  let context := extract_context_from_message query in
  let context :=
    if negb (truthy (ctx_bot_id context)) && truthy (ctx_path context)
    then MkContext (ctx_session_id context) (ctx_path context)
                   (Some (get_bot_id_from_path (fmt (ctx_path context))))
                   (clean_message context)
    else context in
  modify (set_session_context (Some context));;
  logger ← load_global "logger";
  info logger ("📋 Session context extracted | Session: "
               +:+ fmt (ctx_session_id context)
               +:+ " | Bot: " +:+ fmt (ctx_bot_id context));;
  log_dict logger (context_items context) "Session Context";;
  mret context.

(** The dict that the three appointment tools pass to [json.dumps]; a key
    that is left out is [None] in [reply_form_url], a [null] session id is
    [None] in [reply_session_id]. *)
Record Reply : Type := MkReply {
  reply_text : string;
  reply_form_url : option string;
  reply_success : bool;
  reply_session_id : option string
}.

Inductive ToolResult : Type :=
| JsonReply (r : Reply)       (* [json.dumps({...})] *)
| PlainText (s : string).     (* a plain [str] *)

(** The parameters of a handler: local variables that the body reassigns
    and that its [except] block reads. *)
Record Locals : Type := MkLocals {
  l_query : string;
  l_session_id : option string;
  l_path : option string;
  l_bot_id : option string
}.

Definition frame : Type := (Locals * World)%type.

Definition lift {A} (m : M World A) : M frame A :=
  fun '(l, w) => let '(o, w') := m w in (o, (l, w')).

Definition locals : M frame Locals := fun '(l, w) => (Returns l, (l, w)).

Definition assign (f : Locals -> Locals) : M frame unit :=
  fun '(l, w) => (Returns tt, (f l, w)).

Definition assign_query v :=
  assign (fun l => MkLocals v (l_session_id l) (l_path l) (l_bot_id l)).
Definition assign_session_id v :=
  assign (fun l => MkLocals (l_query l) v (l_path l) (l_bot_id l)).
Definition assign_path v :=
  assign (fun l => MkLocals (l_query l) (l_session_id l) v (l_bot_id l)).
Definition assign_bot_id v :=
  assign (fun l => MkLocals (l_query l) (l_session_id l) (l_path l) v).

(** A call: the parameters are bound, the body runs, the frame is dropped. *)
Definition call {A} (args : Locals) (body : M frame A) : M World A :=
  fun w => let '(o, (_, w')) := body (args, w) in (o, w').

(** ['session_id' in locals()]: [session_id] is a parameter of each
    handler, bound for the whole call. *)
Definition session_id_in_locals : bool := true.

(** ['query' in locals()], likewise. *)
Definition query_in_locals : bool := true.

(** [query and ('[SESSION_ID:' in query or '[PATH:' in query or
    '[BOT_ID:' in query)] *)
Definition has_tags (query : string) : bool :=
  nonempty query
  && (contains "[SESSION_ID:" query || contains "[PATH:" query
      || contains "[BOT_ID:" query).

(** [x == "..."] for an optional string. *)
Definition opt_eqb (o : option string) (s : string) : bool :=
  match o with Some x => String.eqb x s | None => false end.

(** [f"{url}{separator}session_id={session_id}&ts={int(time.time() * 1000)}"] *)
Definition with_session (url : string) (session_id : option string)
           (ts : N) : string :=
  let separator := if contains "?" url then "&" else "?" in
  url +:+ separator +:+ "session_id=" +:+ fmt session_id
      +:+ "&ts=" +:+ str_of_N ts.

(** The [except Exception as e] block shared in shape by the handlers: the
    emergency logger, the console when that fails too. *)
Definition emergency_log (tool_name : string) (lines : Locals -> list string)
           (e : exn) : M frame unit :=
  l ← locals;
  let sid := if session_id_in_locals then l_session_id l else Some "ERROR" in
  try_except
    (lg ← lift (get_session_logger "MCP Server" sid INFO);
     let logger := MkAdapter lg sid in
     for_each (lines l) (fun line => lift (error logger line)))
    (fun _ =>
       lift (print ("CRITICAL ERROR in " +:+ tool_name +:+ ": " +:+ str_exn e))).

Definition failure_reply (text : string) : M frame ToolResult :=
  l ← locals;
  mret (JsonReply
          (MkReply text None false
                   (if session_id_in_locals then l_session_id l
                    else Some "unknown"))).

Section Handlers.
(** The values imported from [config]. *)
Variables FORM_URL_1 FORM_URL_2 : string.
Variables cancelAppointmentFormUrl rescheduleAppointmentFormUrl : string.

Definition book_body : M frame ToolResult :=
  l ← locals;
  when (has_tags (l_query l))
    (context ← lift (get_session_context (l_query l));
     assign_bot_id (py_or (ctx_bot_id context) (l_bot_id l));;
     assign_session_id (py_or (ctx_session_id context) (l_session_id l)));;
  l ← locals;
  when (negb (truthy (l_session_id l)))
    (assign_session_id (Some "fallback-session-id"));;
  l ← locals;
  let query := l_query l in
  let session_id := l_session_id l in
  let bot_id := l_bot_id l in
  lg ← lift (get_session_logger "MCP Server" session_id INFO);
  let logger := MkAdapter lg session_id in
  lift (log_section_separator logger "BOOK APPOINTMENT TOOL CALLED");;
  lift (info logger ("🎯 Tool invoked with query: " +:+ take 100 query +:+ "..."));;
  lift (info logger ("📋 Bot ID: " +:+ fmt bot_id
                     +:+ " | Session: " +:+ fmt session_id));;
  let FORM_URL := if opt_eqb bot_id "fp01" then FORM_URL_2 else FORM_URL_1 in
  lift (info logger ("🔗 Selected form URL for bot '" +:+ fmt bot_id
                     +:+ "': " +:+ FORM_URL));;
  w ← lift get;
  let form_url_with_session := with_session FORM_URL session_id (now_ms w) in
  lift (info logger ("✅ Generated form URL with session: "
                     +:+ form_url_with_session));;
  lift (info logger "📤 Returning form URL to agent...");;
  mret (JsonReply
          (MkReply "I'm opening the appointment booking form for you. Please fill it out to book your appointment."
                   (Some form_url_with_session) true session_id)).

Definition book_except (e : exn) : M frame ToolResult :=
  emergency_log "book_appointment_tool"
    (fun _ => ["❌ Error in book_appointment_tool: " +:+ str_exn e]) e;;
  failure_reply "Sorry, I couldn't open the booking form at this moment.".

Definition book_appointment_tool (query : string)
           (session_id bot_id : option string) : M World ToolResult :=
  call (MkLocals query session_id None bot_id)
       (try_except book_body book_except).

(** [cancel_appointment_tool] and [reschedule_appointment_tool] are the
    same text up to the section title, the form URL and the two reply
    sentences. *)
Definition form_body (title form_url success_text : string)
  : M frame ToolResult :=
  l ← locals;
  when (negb (truthy (l_session_id l)))
    (assign_session_id (Some "fallback-session-id"));;
  l ← locals;
  lg ← lift (get_session_logger "MCP Server" (l_session_id l) INFO);
  let logger := MkAdapter lg (l_session_id l) in
  lift (log_section_separator logger title);;
  when (has_tags (l_query l))
    (let context := extract_context_from_message (l_query l) in
     assign_bot_id (py_or (ctx_bot_id context) (l_bot_id l));;
     assign_session_id (py_or (ctx_session_id context) (l_session_id l)));;
  l ← locals;
  let query := l_query l in
  let session_id := l_session_id l in
  let bot_id := l_bot_id l in
  lift (info logger ("🎯 Tool invoked | Bot ID: " +:+ fmt bot_id
                     +:+ " | Session: " +:+ fmt session_id));;
  lift (info logger ("📋 Query: " +:+ take 100 query +:+ "..."));;
  w ← lift get;
  let form_url_with_session := with_session form_url session_id (now_ms w) in
  lift (info logger ("✅ Generated form URL: " +:+ form_url_with_session));;
  lift (info logger "📤 Returning form URL to agent...");;
  mret (JsonReply
          (MkReply success_text (Some form_url_with_session) true
                   session_id)).

Definition form_except (tool_name failure_text : string) (e : exn)
  : M frame ToolResult :=
  emergency_log tool_name
    (fun _ => ["❌ Error in " +:+ tool_name +:+ ": " +:+ str_exn e]) e;;
  failure_reply failure_text.

Definition cancel_appointment_tool (query : string)
           (session_id path bot_id : option string) : M World ToolResult :=
  call (MkLocals query session_id path bot_id)
       (try_except
          (form_body "CANCEL APPOINTMENT TOOL CALLED"
             cancelAppointmentFormUrl
             "I'm opening the appointment cancellation form for you. Please fill it out to cancel your appointment.")
          (form_except "cancel_appointment_tool"
             "Sorry, I couldn't open the appointment cancellation form at this moment.")).

Definition reschedule_appointment_tool (query : string)
           (session_id path bot_id : option string) : M World ToolResult :=
  call (MkLocals query session_id path bot_id)
       (try_except
          (form_body "RESCHEDULE APPOINTMENT TOOL CALLED"
             rescheduleAppointmentFormUrl
             "I'm opening the appointment rescheduling form for you. Please fill it out to reschedule your appointment.")
          (form_except "reschedule_appointment_tool"
             "Sorry, I couldn't open the appointment rescheduling form at this moment.")).
End Handlers.

(** A line feed. *)
Definition nl : string := String (ascii_of_nat 10) EmptyString.

(** [f"{results}"]: the [repr] of the list of hits. *)
Definition repr_hits (results : list Hit) : string :=
  "[" +:+ String.concat ", " (map hit_repr results) +:+ "]".

Definition rag_body : M frame ToolResult :=
  l ← locals;
  when (has_tags (l_query l))
    (context ← lift (get_session_context (l_query l));
     assign_session_id (py_or (ctx_session_id context) (l_session_id l));;
     assign_path (py_or (ctx_path context) (l_path l));;
     assign_bot_id (py_or (ctx_bot_id context) (l_bot_id l));;
     assign_query (clean_message context));;
  l ← locals;
  when (negb (truthy (l_session_id l)))
    (assign_session_id (Some "fallback-session-id"));;
  l ← locals;
  let query := l_query l in
  let session_id := l_session_id l in
  let path := l_path l in
  lg ← lift (get_session_logger "MCP Server" session_id INFO);
  let logger := MkAdapter lg session_id in
  lift (log_section_separator logger "RAG RETRIEVAL TOOL CALLED");;
  lift (info logger ("🔍 Query: " +:+ query));;
  lift (info logger ("📋 Path: " +:+ fmt path
                     +:+ " | Bot ID: " +:+ fmt (l_bot_id l)));;
  when (negb (truthy (l_bot_id l)) && truthy path)
    (let bot_id := get_bot_id_from_path (fmt path) in
     assign_bot_id (Some bot_id);;
     lift (info logger ("🏷️ Extracted bot_id from path: " +:+ bot_id)));;
  l ← locals;
  let bot_id := l_bot_id l in
  let namespace := if truthy bot_id then fmt bot_id else "hr4s" in
  lift (info logger ("📂 Using Pinecone namespace: " +:+ namespace));;
  lift (info logger "🔎 Searching Pinecone with top_k=7, rerank top_n=5...");;
  w ← lift get;
  match search_records w namespace query with
  | SearchRaises e => raise e
  | SearchHits results =>
      match results with
      | [] =>
          lift (warning logger ("⚠️ No results found in namespace '"
                                +:+ namespace +:+ "'"));;
          mret (PlainText "Sorry, I couldn't find any relevant information.")
      | first :: _ =>
          lift (info logger ("✅ Found "
                             +:+ str_of_N (N.of_nat (length results))
                             +:+ " relevant results"));;
          lift (info logger ("📊 Top result score: "
                             +:+ match hit_score first with
                                 | Some sc => sc
                                 | None => "N/A"
                                 end));;
          lift (info logger "📤 Returning results to agent...");;
          mret (PlainText ("Here's what I found:" +:+ nl +:+ nl
                           +:+ repr_hits results))
      end
  end.

Definition rag_except (e : exn) : M frame ToolResult :=
  emergency_log "rag_retrieval_tool"
    (fun l =>
       [ "❌ Error in RAG retrieval: " +:+ str_exn e;
         "🔍 Failed query: "
           +:+ (if query_in_locals then take 100 (l_query l) else "N/A") ]) e;;
  mret (PlainText ("Error retrieving context from Pinecone: " +:+ str_exn e)).

Definition rag_retrieval_tool (query : string)
           (session_id path bot_id : option string) : M World ToolResult :=
  call (MkLocals query session_id path bot_id)
       (try_except rag_body rag_except).

End Server.

(** ** Reference definitions the theorems compare the code with *)

Module Spec.

Import PyStr Re UrlLib Helpers.

(** The longest prefix whose characters satisfy [p], and the rest. *)
Fixpoint span (p : ascii -> bool) (s : string) : string * string :=
  match s with
  | EmptyString => (EmptyString, EmptyString)
  | String c s' =>
      if p c then let '(a, b) := span p s' in (String c a, b)
      else (EmptyString, s)
  end.

(** [s] without the prefix [l], compared as the flag [ic] says. *)
Fixpoint after_prefix (ic : bool) (l s : string) : option string :=
  match l, s with
  | EmptyString, _ => Some s
  | String c l', String a s' =>
      if chr_matches ic c a then after_prefix ic l' s' else None
  | String _ _, EmptyString => None
  end.

Definition not_close (a : ascii) : bool := negb (Ascii.eqb "]" a).

(** ["[NAME:"] *)
Definition tag_open (name : string) : string := "[" +:+ name +:+ ":".

(** What follows ["[NAME:"] up to the first ["]"], and what follows that
    bracket, when [s] starts with such a bracketed tag. *)
Definition bracket_here (name s : string) : option (string * string) :=
  match after_prefix false ("[" +:+ name +:+ ":") s with
  | Some s1 =>
      match span not_close s1 with
      | (v, String _ rest) => Some (v, rest)
      | (_, EmptyString) => None
      end
  | None => None
  end.

(** A tag [[NAME:x]] with a non-empty [x] starts [s]: its [x]. *)
Definition tag_here (name s : string) : option string :=
  match bracket_here name s with
  | Some (v, _) => if nonempty v then Some v else None
  | None => None
  end.

(** The [x] of the leftmost tag [[NAME:x]] with a non-empty [x]. *)
Fixpoint first_tag (name s : string) : option string :=
  match tag_here name s with
  | Some v => Some v
  | None =>
      match s with
      | EmptyString => None
      | String _ s' => first_tag name s'
      end
  end.

(** [s] with every bracketed tag [[NAME:...]] (empty value allowed) and the
    white space after it deleted, scanning from the left; [skip] counts the
    characters of the current tag still to be dropped. *)
Fixpoint delete_tags_from (name : string) (skip : nat) (s : string) : string :=
  match s with
  | EmptyString => EmptyString
  | String c s' =>
      match skip with
      | S n => delete_tags_from name n s'
      | O =>
          match bracket_here name s with
          | Some (_, rest) =>
              delete_tags_from name
                (String.length s - String.length (lstrip_by is_space rest) - 1)
                s'
          | None => String c (delete_tags_from name 0 s')
          end
      end
  end.

Definition delete_tags (name s : string) : string :=
  delete_tags_from name 0 s.

(** The order in which a greedy [p*] hands its candidates to what follows:
    the longest run first, then one character less, down to none. *)
Fixpoint back {R : Type} (p : ascii -> bool) (s : string) (gs : list string)
         (k : string -> list string -> option R) : option R :=
  match s with
  | String a s' =>
      if p a then
        match back p s' gs k with
        | Some x => Some x
        | None => k s gs
        end
      else k s gs
  | EmptyString => k s gs
  end.

(** The last character of a string, as a string. *)
Fixpoint last_char (s : string) : string :=
  match s with
  | EmptyString => EmptyString
  | String c EmptyString => s
  | String _ s' => last_char s'
  end.

(** What group 1 of [\s*([^\]]+)\]] holds when the text up to the bracket
    is [v]: [v] without its leading white space, or one white space when
    [v] is nothing else. *)
Definition capture (v : string) : string :=
  let '(ws, v1) := span is_space v in
  if nonempty v1 then v1 else last_char ws.

(** The tail [([^\]]+)\]] of the extraction pattern at the start of [s2]. *)
Definition group_close (s2 : string) (g2 : list string)
  : option (string * list string) :=
  rmatch false (Cat (Group (Plus (NotChr "]"))) (Chr "]")) s2 g2
         (fun rest gs => Some (rest, gs)).

(** No bracketed tag [[NAME:...]] starts anywhere in [s]. *)
Fixpoint no_bracket (name s : string) : bool :=
  match bracket_here name s with
  | Some _ => false
  | None =>
      match s with
      | EmptyString => true
      | String _ s' => no_bracket name s'
      end
  end.

(** The last non-empty element of a list of strings, [""] without one. *)
Definition last_nonempty (l : list string) : string :=
  List.last (List.filter nonempty l) EmptyString.

(** Some text of [s] equals [l] up to the case of letters. *)
Fixpoint contains_ci (l s : string) : bool :=
  match after_prefix true l s with
  | Some _ => true
  | None =>
      match s with
      | EmptyString => false
      | String _ s' => contains_ci l s'
      end
  end.

(** The two digits [d1 d2] write a number from 16 to 31. *)
Definition octet_16_31 (d1 d2 : ascii) : bool :=
  let n := (10 * (code d1 - 48) + (code d2 - 48))%N in
  is_digit d1 && is_digit d2 && (16 <=? n)%N && (n <=? 31)%N.

(** ["172."], a number from 16 to 31 and a dot start [s]. *)
Definition here_172 (s : string) : bool :=
  match after_prefix true "172." s with
  | Some (String d1 (String d2 (String dot _))) =>
      octet_16_31 d1 d2 && Ascii.eqb dot "."
  | _ => false
  end.

(** [s] holds ["172."], a number from 16 to 31 and a dot. *)
Fixpoint contains_172 (s : string) : bool :=
  here_172 s
  || match s with
     | EmptyString => false
     | String _ s' => contains_172 s'
     end.

(** The sixth pattern, [172\.(1[6-9]|2[0-9]|3[0-1])\.], and the way it
    reads the two digits. *)
Definition re_172 : regex := nth 5 dangerous_patterns Eps.

Definition octet_re (d1 d2 : ascii) : bool :=
  (chr_matches true "1" d1 && range_matches true "6" "9" d2)
  || (chr_matches true "2" d1 && range_matches true "0" "9" d2)
  || (chr_matches true "3" d1 && range_matches true "0" "1" d2).

(** Every character. *)
Definition all_ascii : list ascii :=
  map (fun n => ascii_of_N (N.of_nat n)) (seq 0 256).

(** The text of the URL, anywhere and in any case, holds a block-listed
    address or a dangerous scheme. *)
Definition blocked_text (url : string) : bool :=
  contains_ci "localhost" url || contains_ci "127.0.0.1" url
  || contains_ci "0.0.0.0" url || contains_ci "192.168." url
  || contains_ci "10." url || contains_172 url
  || contains_ci "file://" url || contains_ci "javascript:" url
  || contains_ci "data:" url.

(** The reading of the block-list as a test of the host (the netloc) alone,
    with the three schemes looked for in the whole string. *)
Definition blocked_host (host url : string) : bool :=
  contains_ci "localhost" host || contains_ci "127.0.0.1" host
  || contains_ci "0.0.0.0" host || contains_ci "192.168." host
  || contains_ci "10." host || contains_172 host
  || contains_ci "file://" url || contains_ci "javascript:" url
  || contains_ci "data:" url.

(** The three tags that [extract_context_from_message] knows. *)
Definition tag_names : list string := ["SESSION_ID"; "PATH"; "BOT_ID"].

(** The field of the context that the tag [[NAME:...]] fills. *)
Definition ctx_field (name : string) (c : Context) : option string :=
  if String.eqb name "SESSION_ID" then ctx_session_id c
  else if String.eqb name "PATH" then ctx_path c
  else ctx_bot_id c.

End Spec.

(** * Facts about strings *)

(** ** Reference definitions for the handlers, and sample worlds *)

Module HandlerSpec.

Import PyStr Py Helpers Env LoggingConfig Server.

(** [session_id] once the fallback is applied. *)
Definition with_fallback (sid : option string) : option string :=
  if truthy sid then sid else Some "fallback-session-id".

(** The reply of the cancel and reschedule handlers, read off the query, the
    [session_id] parameter and the world alone. *)
Definition form_tool_reply (form_url ok_text failure_text query : string)
           (sid : option string) (w : World) : Reply :=
  let sid0 := with_fallback sid in
  let sid1 :=
    if has_tags query
    then py_or (ctx_session_id (extract_context_from_message query)) sid0
    else sid0 in
  match fst (get_session_logger "MCP Server" sid0 INFO w) with
  | Returns _ =>
      MkReply ok_text (Some (with_session form_url sid1 (now_ms w))) true sid1
  | Raises _ => MkReply failure_text None false sid0
  end.

(** The reply of the booking handler, read off its parameters and the
    world alone. *)
Definition book_tool_reply (FORM_URL_1 FORM_URL_2 query : string)
           (sid bot_id : option string) (w : World) : Reply :=
  let sorry := "Sorry, I couldn't open the booking form at this moment." in
  if has_tags query then MkReply sorry None false sid
  else
    let sid0 := with_fallback sid in
    match fst (get_session_logger "MCP Server" sid0 INFO w) with
    | Returns _ =>
        MkReply "I'm opening the appointment booking form for you. Please fill it out to book your appointment."
                (Some (with_session
                         (if opt_eqb bot_id "fp01" then FORM_URL_2
                          else FORM_URL_1)
                         sid0 (now_ms w)))
                true sid0
    | Raises _ => MkReply sorry None false sid0
    end.

(** The key under which [_session_loggers] holds the logger of a project
    and a session. *)
Definition logger_key (project_name : string) (sid : option string) : string :=
  project_name +:+ "_" +:+ (if truthy sid then fmt sid else "NO_SESSION").

(** A reply object that reports a failure. *)
Definition is_failure_reply (r : ToolResult) : bool :=
  match r with
  | JsonReply rp => negb (reply_success rp)
  | PlainText _ => false
  end.

(** A fresh process: nothing cached, nothing logged, a file system that
    works, an index without hits. *)
Definition fresh_world : World :=
  MkWorld ∅ ∅ None [] [] [] "2026-01-01" 1767225600000%N
          (fun _ _ => SearchHits []).

(** The same with an index that cannot be reached. *)
Definition unreachable_index_world : World :=
  MkWorld ∅ ∅ None [] [] [] "2026-01-01" 1767225600000%N
          (fun _ _ => SearchRaises (ServiceError "timeout")).

End HandlerSpec.

(** ** [server.py]: [extract_url_from_message] *)

Module UrlExtract.

Import PyStr Re Helpers.

(** The patterns of [url_patterns] need character classes with several
    members; they are built over the patterns of [Re]. *)
Inductive upat : Type :=
| Base (r : regex)
| Class (neg : bool) (space : bool) (ranges : list (ascii * ascii))
      (* [[...]] or [[^...]]: [\s] when [space], and the ranges [lo-hi];
         a single character [c] is the range [c-c] *)
| UCat (p q : upat)
| UAlt (p q : upat)
| UStar (p : upat)
| UPlus (p : upat).

Definition class_matches (ic neg space : bool) (ranges : list (ascii * ascii))
           (a : ascii) : bool :=
  xorb neg
       ((space && is_space a)
        || existsb (fun '(lo, hi) => range_matches ic lo hi a) ranges).

Fixpoint umatch {R : Type} (ic : bool) (p : upat) (s : string)
         (gs : list string) (k : string -> list string -> option R)
  : option R :=
  match p with
  | Base r => rmatch ic r s gs k
  | Class neg space ranges => one (class_matches ic neg space ranges) s gs k
  | UCat p1 p2 => umatch ic p1 s gs (fun s1 g1 => umatch ic p2 s1 g1 k)
  | UAlt p1 p2 =>
      match umatch ic p1 s gs k with
      | Some x => Some x
      | None => umatch ic p2 s gs k
      end
  | UStar p1 => star_loop (umatch ic p1) (String.length s) s gs k
  | UPlus p1 =>
      umatch ic p1 s gs
        (fun s1 g1 => star_loop (umatch ic p1) (String.length s1) s1 g1 k)
  end.

(** The text matched at the very start of [s]. *)
Definition umatch_here (ic : bool) (p : upat) (s : string) : option string :=
  umatch ic p s [] (fun rest _ => Some (consumed s rest)).

(** [re.findall(p, s, flags)[0]] for a pattern without groups, when the
    list is not empty: the text of the leftmost match. *)
Fixpoint first_found (ic : bool) (p : upat) (s : string) : option string :=
  match umatch_here ic p s with
  | Some text => Some text
  | None =>
      match s with
      | EmptyString => None
      | String _ s' => first_found ic p s'
      end
  end.

(** The members of the class that ends a URL, beside [\s]: the characters
    [<>{}|\^`[]] and the double quote (code 34).  The class is written
    [URLCHAR] below. *)
Definition url_stop : list ascii :=
  [ "<"; ">"; "034"; "{"; "}"; "|"; "\"; "^"; "`"; "["; "]" ]%char.

Definition single (c : ascii) : ascii * ascii := (c, c).

(** [URLCHAR]: any character but white space and the members above. *)
Definition url_char : upat := Class true true (map single url_stop).

(** [[a-zA-Z0-9]], [[a-zA-Z0-9-]], [[a-zA-Z]] *)
Definition range (lo hi : ascii) : ascii * ascii := (lo, hi).

Definition alnum : upat :=
  Class false false [range "a" "z"; range "A" "Z"; range "0" "9"].
Definition alnum_dash : upat :=
  Class false false
        [range "a" "z"; range "A" "Z"; range "0" "9"; single "-"].
Definition alpha : upat := Class false false [range "a" "z"; range "A" "Z"].

(** [p?], greedy: [p] is tried before nothing. *)
Definition opt (p : upat) : upat := UAlt p (Base Eps).

(** [p{2,}], greedy. *)
Definition two_or_more (p : upat) : upat := UCat p (UPlus p).

Definition url_patterns : list upat :=
  [ (* https?://URLCHAR+ *)
    UCat (Base (lit "http"))
         (UCat (opt (Base (Chr "s")))
               (UCat (Base (lit "://")) (UPlus url_char)));
    (* www\.URLCHAR+ *)
    UCat (Base (lit "www.")) (UPlus url_char);
    (* [a-zA-Z0-9][a-zA-Z0-9-]*[a-zA-Z0-9]*\.[a-zA-Z]{2,} and then,
       optionally, a slash and URLCHAR any number of times *)
    UCat alnum
         (UCat (UStar alnum_dash)
               (UCat (UStar alnum)
                     (UCat (Base (Chr "."))
                           (UCat (two_or_more alpha)
                                 (opt (UCat (Base (Chr "/"))
                                            (UStar url_char))))))) ].

(** [url.startswith(('http://', 'https://'))] *)
Definition has_scheme (url : string) : bool :=
  String.prefix "http://" url || String.prefix "https://" url.

(** The protocol is added when it is missing. *)
Definition add_protocol (url : string) : string :=
  if negb (has_scheme url)
  then if String.prefix "www." url
       then "https://" +:+ url
       else "https://" +:+ url
  else url.

(** The [for pattern in url_patterns] loop. *)
Fixpoint first_url (patterns : list upat) (clean_message : string)
  : option string :=
  match patterns with
  | [] => None
  | pattern :: rest =>
      match first_found true pattern clean_message with
      | Some url => Some (add_protocol url)
      | None => first_url rest clean_message
      end
  end.

Definition extract_url_from_message (message : string) : option string :=
  let clean_message := sub false (tag_strip_re "SESSION_ID") "" message in
  let clean_message := sub false (tag_strip_re "PATH") "" clean_message in
  let clean_message := sub false (tag_strip_re "BOT_ID") "" clean_message in
  let clean_message := strip clean_message in
  first_url url_patterns clean_message.

End UrlExtract.

(** ** Reference definitions for the further properties *)

Module ExtraSpec.

Import PyStr Re UrlLib Helpers Py Env LoggingConfig Server Spec UrlExtract.

(** Every character that the test [m] accepts satisfies [P]. *)
Definition atom_within (P m : ascii -> bool) : bool :=
  forallb (fun a => implb (m a) (P a)) all_ascii.

(** Every character that a pattern can consume satisfies [P]. *)
Fixpoint re_within (ic : bool) (P : ascii -> bool) (r : regex) : bool :=
  match r with
  | Eps => true
  | Chr c => atom_within P (chr_matches ic c)
  | Space => atom_within P is_space
  | NotChr c => atom_within P (notchr_matches ic c)
  | Range lo hi => atom_within P (range_matches ic lo hi)
  | Cat r1 r2 | Alt r1 r2 => re_within ic P r1 && re_within ic P r2
  | Star r1 | Plus r1 | Group r1 => re_within ic P r1
  end.

Fixpoint up_within (ic : bool) (P : ascii -> bool) (p : upat) : bool :=
  match p with
  | Base r => re_within ic P r
  | Class neg space ranges =>
      atom_within P (class_matches ic neg space ranges)
  | UCat p1 p2 | UAlt p1 p2 => up_within ic P p1 && up_within ic P p2
  | UStar p1 | UPlus p1 => up_within ic P p1
  end.

(** A matching step hands to its continuation what is left of the input
    after a prefix of characters that satisfy [P]. *)
Definition sound_step {R : Type} (P : ascii -> bool)
           (step : string -> list string
                   -> (string -> list string -> option R) -> option R)
  : Prop :=
  forall s gs k x,
    step s gs k = Some x ->
    exists pre s' g',
      s = pre +:+ s' /\ forall_chars P pre = true /\ k s' g' = Some x.

(** Every match of the pattern consumes the literal character [c]. *)
Fixpoint re_needs (c : ascii) (r : regex) : bool :=
  match r with
  | Chr c' => Ascii.eqb c' c
  | Cat r1 r2 => re_needs c r1 || re_needs c r2
  | Alt r1 r2 => re_needs c r1 && re_needs c r2
  | Plus r1 | Group r1 => re_needs c r1
  | _ => false
  end.

Fixpoint up_needs (c : ascii) (p : upat) : bool :=
  match p with
  | Base r => re_needs c r
  | UCat p1 p2 => up_needs c p1 || up_needs c p2
  | UAlt p1 p2 => up_needs c p1 && up_needs c p2
  | UPlus p1 => up_needs c p1
  | _ => false
  end.

(** Only [c] itself matches the literal [c] when case is ignored. *)
Definition caseless (c : ascii) : bool :=
  atom_within (fun a => Ascii.eqb a c) (chr_matches true c).

(** A character that may stand in an extracted URL. *)
Definition url_ok (a : ascii) : bool :=
  negb (is_space a || existsb (Ascii.eqb a) url_stop).

(** The namespace that [rag_retrieval_tool] searches. *)
Definition rag_namespace (bot_id path : option string) : string :=
  if truthy bot_id then fmt bot_id
  else if truthy path
       then let derived := get_bot_id_from_path (fmt path) in
            if nonempty derived then derived else "hr4s"
       else "hr4s".

(** The answer of [rag_retrieval_tool] to what the index did. *)
Definition rag_answer (o : SearchOutcome) : string :=
  match o with
  | SearchRaises e => "Error retrieving context from Pinecone: " +:+ str_exn e
  | SearchHits [] => "Sorry, I couldn't find any relevant information."
  | SearchHits hits => "Here's what I found:" +:+ nl +:+ nl +:+ repr_hits hits
  end.


(** The record that a logger adapter makes of a message. *)
Definition record_of (logger : SessionLoggerAdapter) (level : Level)
           (msg : string) : LogRecord :=
  MkRecord (ad_logger logger) level (ad_session_id logger) msg.

(** The name and the file of the logger of a project and a session. *)
Definition logger_name (project sid : string) : string :=
  project +:+ "." +:+ sid.

Definition log_file (project sid : string) (w : World) : list string :=
  [base_log_dir; project; today w +:+ "_SESSION-" +:+ sid +:+ ".log"].

(** The logger that a creation that succeeds leaves in the registry. *)
Definition fresh_logger (project sid : string) (level : Level) (w : World)
  : Logger :=
  MkLogger level false
           [FileHandler (log_file project sid w) level; StreamHandler level].

(** A world whose directories cannot be made, once. *)
Definition read_only_world : World :=
  MkWorld ∅ ∅ None [] [] [MkdirRaises "Permission denied"] "2026-01-01"
          1767225600000%N (fun _ _ => SearchHits []).

(** A world whose index knows one record in the namespace "QApixW". *)
Definition indexed_world : World :=
  MkWorld ∅ ∅ None [] [] [] "2026-01-01" 1767225600000%N
          (fun namespace _ =>
             if String.eqb namespace "QApixW"
             then SearchHits [MkHit "{'_id': 'r1'}" (Some "0.9")]
             else SearchHits []).

(** The netloc that [urlparse] reads after the two slashes. *)
Definition netloc_of (t : string) : string :=
  fst (break_at (fun c => Ascii.eqb c "/" || Ascii.eqb c "?"
                          || Ascii.eqb c "#")
                (remove_chars is_unsafe t)).

(** The session id that [get_session_logger] works with. *)
Definition session_name (sid : option string) : string :=
  if truthy sid then fmt sid else "NO_SESSION".

(** A session id with a NUL character in it. *)
Definition nul_session : string := String "a" (String "000" "b").

End ExtraSpec.

#[global] Arguments String.append !s1 s2 : simpl nomatch.

Module StrFacts.

Import PyStr Spec.

Lemma app_nil_r (s : string) : s +:+ "" = s.
Proof. induction s as [|c s IH]; simpl; [reflexivity | now rewrite IH]. Qed.

Lemma app_assoc (a b c : string) : (a +:+ b) +:+ c = a +:+ (b +:+ c).
Proof. induction a as [|x a IH]; simpl; [reflexivity | now rewrite IH]. Qed.

Lemma length_app (a b : string) :
  String.length (a +:+ b) = String.length a + String.length b.
Proof. induction a as [|x a IH]; simpl; [reflexivity | now rewrite IH]. Qed.

Lemma take_app (a b : string) : take (String.length a) (a +:+ b) = a.
Proof. induction a as [|x a IH]; simpl; [now destruct b | now rewrite IH]. Qed.

Lemma consumed_app (a b : string) : Re.consumed (a +:+ b) b = a.
Proof.
  unfold Re.consumed. rewrite length_app.
  replace (String.length a + String.length b - String.length b)
    with (String.length a) by lia.
  apply take_app.
Qed.

Lemma span_app (p : ascii -> bool) (s : string) :
  fst (span p s) +:+ snd (span p s) = s.
Proof.
  induction s as [|c s IH]; simpl; [reflexivity|].
  destruct (p c); [|reflexivity].
  destruct (span p s) as [a b]; simpl in *. now rewrite IH.
Qed.

Lemma span_lstrip (p : ascii -> bool) (s : string) :
  snd (span p s) = lstrip_by p s.
Proof.
  induction s as [|c s IH]; simpl; [reflexivity|].
  destruct (p c); [|reflexivity].
  destruct (span p s); simpl in *; assumption.
Qed.

Lemma lstrip_length (p : ascii -> bool) (s : string) :
  String.length (lstrip_by p s) <= String.length s.
Proof.
  induction s as [|c s IH]; simpl; [lia|]. destruct (p c); simpl; lia.
Qed.

Lemma nonempty_true (s : string) : nonempty s = true <-> s <> "".
Proof. destruct s; simpl; split; congruence. Qed.

End StrFacts.

(** * Facts about the matcher *)

Module ReFacts.

Import PyStr Re Helpers Spec StrFacts.

Section Matcher.
Context {R : Type}.
Implicit Types (k : string -> list string -> option R).

Lemma rmatch_lit ic l : forall s gs k,
  rmatch ic (lit l) s gs k
  = match after_prefix ic l s with
    | Some rest => k rest gs
    | None => None
    end.
Proof.
  induction l as [|c l IH]; intros s gs k; simpl; [now destruct s|].
  destruct s as [|a s]; simpl; [reflexivity|].
  destruct (chr_matches ic c a); [apply IH | reflexivity].
Qed.

Lemma star_one (p : ascii -> bool)
      (step : string -> list string -> @cont R -> option R)
      (Hstep : forall s gs k, step s gs k = one p s gs k) :
  forall fuel s gs k,
    String.length s <= fuel ->
    star_loop step fuel s gs k = back p s gs k.
Proof.
  induction fuel as [|n IH]; intros s gs k Hlen.
  - destruct s; simpl in *; [reflexivity | lia].
  - simpl. rewrite Hstep. destruct s as [|a s]; simpl; [reflexivity|].
    destruct (p a); [|reflexivity].
    replace (String.length s <? S (String.length s))%nat with true
      by (symmetry; apply Nat.ltb_lt; lia).
    rewrite IH by (simpl in Hlen; lia). reflexivity.
Qed.

(** A continuation that only goes on through a closing bracket makes the
    run of other characters end at the first closing bracket. *)
Lemma back_not_close s : forall gs k,
  (forall a s' g, not_close a = true -> k (String a s') g = None) ->
  (forall g, k EmptyString g = None) ->
  back not_close s gs k
  = match snd (span not_close s) with
    | EmptyString => None
    | rest => k rest gs
    end.
Proof.
  induction s as [|a s IH]; intros gs k Hk Hnil; simpl; [apply Hnil|].
  destruct (not_close a) eqn:Ha; simpl.
  - rewrite IH by assumption.
    destruct (span not_close s) as [v rest]; simpl.
    destruct rest as [|b rest]; [now apply Hk|].
    destruct (k (String b rest) gs); [reflexivity | now apply Hk].
  - reflexivity.
Qed.
End Matcher.

Lemma span_snd_head p s b r : snd (span p s) = String b r -> p b = false.
Proof.
  induction s as [|a s IH]; simpl; [discriminate|].
  destruct (p a) eqn:Ha.
  - destruct (span p s); simpl in *. exact IH.
  - simpl. intros H. now inversion H; subst.
Qed.

Lemma not_close_false b : not_close b = false -> b = "]"%char.
Proof.
  unfold not_close. intros H. apply negb_false_iff, Ascii.eqb_eq in H.
  now subst.
Qed.

Lemma space_not_close a : is_space a = true -> not_close a = true.
Proof.
  intros H. destruct (not_close a) eqn:Hn; [reflexivity|].
  apply not_close_false in Hn. subst. discriminate H.
Qed.

Lemma group_close_spec s2 g2 :
  group_close s2 g2
  = match span not_close s2 with
    | (v, String _ rest) =>
        if nonempty v then Some (rest, (g2 ++ [v])%list) else None
    | (_, EmptyString) => None
    end.
Proof.
  unfold group_close. cbn [rmatch].
  destruct s2 as [|a s2]; [reflexivity|].
  cbn [one span]. change (notchr_matches false "]" a) with (not_close a).
  destruct (not_close a) eqn:Ha; [|reflexivity].
  rewrite (star_one not_close) by (reflexivity || lia).
  rewrite back_not_close; [| |reflexivity].
  - pose proof (span_app not_close s2) as Happ.
    pose proof (span_snd_head not_close s2) as Hhd.
    destruct (span not_close s2) as [v rest]; simpl in *.
    destruct rest as [|b rest]; [reflexivity|].
    specialize (Hhd b rest eq_refl). apply not_close_false in Hhd. subst b.
    simpl. rewrite <- Happ.
    change (String a (v +:+ String "]" rest))
      with (String a v +:+ String "]" rest).
    now rewrite consumed_app.
  - intros b s' g Hb. cbn [rmatch one]. unfold chr_matches.
    unfold not_close in Hb. apply negb_true_iff in Hb. now rewrite Hb.
Qed.

Lemma capture_cons_space a v :
  is_space a = true -> nonempty v = true ->
  capture (String a v) = capture v.
Proof.
  intros Ha Hv. unfold capture. simpl. rewrite Ha.
  destruct (span is_space v) as [ws v1] eqn:Hsp.
  destruct (nonempty v1) eqn:Hv1; [reflexivity|].
  pose proof (span_app is_space v) as Happ. rewrite Hsp in Happ. simpl in Happ.
  destruct v1; [|discriminate]. rewrite app_nil_r in Happ. subst ws.
  destruct v; [discriminate | reflexivity].
Qed.

Lemma capture_nonspace a v :
  is_space a = false -> capture (String a v) = String a v.
Proof. intros Ha. unfold capture. simpl. now rewrite Ha. Qed.

Lemma back_space_group s1 : forall g,
  back is_space s1 g group_close
  = match span not_close s1 with
    | (v, String _ rest) =>
        if nonempty v then Some (rest, (g ++ [capture v])%list) else None
    | (_, EmptyString) => None
    end.
Proof.
  induction s1 as [|a s1 IH]; intros g; [reflexivity|].
  cbn [back]. destruct (is_space a) eqn:Ha.
  - rewrite IH, group_close_spec. cbn [span].
    rewrite (space_not_close a Ha).
    destruct (span not_close s1) as [v rest].
    destruct rest as [|b rest]; [reflexivity|].
    destruct (nonempty v) eqn:Hv.
    + now rewrite capture_cons_space.
    + destruct v; [|discriminate]. simpl.
      unfold capture. simpl. now rewrite Ha.
  - rewrite group_close_spec. cbn [span].
    destruct (not_close a) eqn:Hn; [|reflexivity].
    destruct (span not_close s1) as [v rest].
    destruct rest as [|b rest]; [reflexivity|].
    simpl. now rewrite capture_nonspace.
Qed.

(** The extraction pattern at the start of [s]. *)
Lemma value_here name s :
  match_here false (tag_value_re name) s
  = match bracket_here name s with
    | Some (v, rest) => if nonempty v then Some (rest, [capture v]) else None
    | None => None
    end.
Proof.
  unfold match_here, tag_value_re, bracket_here. cbn [rmatch].
  rewrite rmatch_lit.
  destruct (after_prefix false _ s) as [s1|]; [|reflexivity].
  rewrite (star_one is_space) by (reflexivity || lia).
  change (fun (s2 : string) (g2 : list string) => _) with group_close.
  rewrite back_space_group.
  destruct (span not_close s1) as [v rest]. now destruct rest.
Qed.

Lemma lstrip_idem p s : lstrip_by p (lstrip_by p s) = lstrip_by p s.
Proof.
  induction s as [|c s IH]; simpl; [reflexivity|].
  destruct (p c) eqn:Hc; [exact IH | simpl; now rewrite Hc].
Qed.

Lemma last_char_span p s :
  last_char (fst (span p s)) = ""
  \/ exists c, p c = true /\ last_char (fst (span p s)) = String c "".
Proof.
  induction s as [|a s IH]; simpl; [now left|].
  destruct (p a) eqn:Ha; [|now left].
  destruct (span p s) as [ws r]; simpl in *.
  destruct ws as [|b ws]; [right; now exists a|].
  exact IH.
Qed.

Lemma strip_capture v : strip (capture v) = strip v.
Proof.
  unfold capture, strip, strip_by.
  pose proof (span_lstrip is_space v) as Hl.
  pose proof (last_char_span is_space v) as Hlast.
  destruct (span is_space v) as [ws v1]; simpl in *. subst v1.
  destruct (nonempty (lstrip_by is_space v)) eqn:Hne.
  - now rewrite lstrip_idem.
  - destruct (lstrip_by is_space v); [|discriminate].
    destruct Hlast as [-> | (c & Hc & ->)]; [reflexivity|].
    simpl. now rewrite Hc.
Qed.

Lemma search_from_first_tag name s : forall i,
  match search_from false (tag_value_re name) i s with
  | Some m => Some (strip (group m 1))
  | None => None
  end
  = option_map strip (first_tag name s).
Proof.
  induction s as [|c s IH]; intros i.
  - cbn [search_from first_tag]. rewrite value_here. unfold tag_here.
    destruct (bracket_here name "") as [[v rest]|]; [|reflexivity].
    destruct (nonempty v); [|reflexivity].
    simpl. unfold group. simpl. now rewrite strip_capture.
  - cbn [search_from first_tag]. rewrite value_here. unfold tag_here.
    destruct (bracket_here name (String c s)) as [[v rest]|]; [|apply IH].
    destruct (nonempty v); [|apply IH].
    simpl. unfold group. simpl. now rewrite strip_capture.
Qed.

(** [tag_value] returns the trimmed value of the leftmost tag. *)
Lemma tag_value_first_tag name message :
  tag_value name message = option_map strip (first_tag name message).
Proof. unfold tag_value, search. apply search_from_first_tag. Qed.

Lemma back_lstrip p s (gs : list string) :
  back p s gs (fun rest g => Some (rest, g)) = Some (lstrip_by p s, gs).
Proof.
  induction s as [|a s IH]; simpl; [reflexivity|].
  destruct (p a); [now rewrite IH | reflexivity].
Qed.

(** The removal pattern at the start of [s]. *)
Lemma strip_here name s :
  match_here false (tag_strip_re name) s
  = match bracket_here name s with
    | Some (_, rest) => Some (lstrip_by is_space rest, [])
    | None => None
    end.
Proof.
  unfold match_here, tag_strip_re, bracket_here. cbn [rmatch].
  rewrite rmatch_lit.
  destruct (after_prefix false _ s) as [s1|]; [|reflexivity].
  rewrite (star_one not_close) by (reflexivity || lia).
  rewrite back_not_close.
  - pose proof (span_snd_head not_close s1) as Hhd.
    destruct (span not_close s1) as [v rest]; simpl in *.
    destruct rest as [|b rest]; [reflexivity|].
    specialize (Hhd b rest eq_refl). apply not_close_false in Hhd. subst b.
    cbn [one]. unfold chr_matches.
    rewrite (star_one is_space) by (reflexivity || lia).
    apply back_lstrip.
  - intros b s' g Hb. cbn [one]. unfold chr_matches.
    unfold not_close in Hb. apply negb_true_iff in Hb. now rewrite Hb.
  - reflexivity.
Qed.

Lemma after_prefix_length ic l : forall s r,
  after_prefix ic l s = Some r ->
  String.length s = String.length l + String.length r.
Proof.
  induction l as [|c l IH]; intros s r H; simpl in *.
  - now inversion H.
  - destruct s as [|a s]; [discriminate|].
    destruct (chr_matches ic c a); [|discriminate].
    simpl. now rewrite (IH _ _ H).
Qed.

Lemma bracket_here_length name s v rest :
  bracket_here name s = Some (v, rest) ->
  String.length rest < String.length s.
Proof.
  unfold bracket_here. intros H.
  destruct (after_prefix false _ s) as [s1|] eqn:Hp; [|discriminate].
  apply after_prefix_length in Hp.
  pose proof (span_app not_close s1) as Happ.
  destruct (span not_close s1) as [v' r']; simpl in *.
  destruct r' as [|b r']; [discriminate|]. inversion H; subst.
  rewrite Hp, !length_app. simpl. lia.
Qed.

(** One removal pass deletes the bracketed tags of that name. *)
Lemma sub_from_delete_tags name s : forall skip,
  sub_from false (tag_strip_re name) "" skip s = delete_tags_from name skip s.
Proof.
  induction s as [|c s IH]; intros skip.
  - cbn [sub_from delete_tags_from]. rewrite strip_here.
    destruct skip; reflexivity.
  - cbn [sub_from delete_tags_from]. destruct skip as [|n]; [|apply IH].
    rewrite strip_here.
    destruct (bracket_here name (String c s)) as [[v rest]|] eqn:Hb.
    + apply bracket_here_length in Hb.
      pose proof (lstrip_length is_space rest) as Hl.
      destruct (String.length (String c s)
                - String.length (lstrip_by is_space rest)) as [|n] eqn:Hn;
        [lia|].
      simpl. rewrite IH. f_equal. lia.
    + now rewrite IH.
Qed.

Lemma sub_delete_tags name s :
  sub false (tag_strip_re name) "" s = delete_tags name s.
Proof. apply sub_from_delete_tags. Qed.

End ReFacts.

(** * Facts about tags *)

Module TagFacts.

Import PyStr Re UrlLib Helpers Spec StrFacts ReFacts.

Lemma chr_matches_refl c : chr_matches false c c = true.
Proof. apply Ascii.eqb_refl. Qed.

Lemma after_prefix_app l r : after_prefix false l (l +:+ r) = Some r.
Proof.
  induction l as [|c l IH]; simpl; [reflexivity|].
  now rewrite chr_matches_refl.
Qed.

Lemma after_prefix_inv l : forall s r,
  after_prefix false l s = Some r -> s = l +:+ r.
Proof.
  induction l as [|c l IH]; intros s r H; simpl in *; [now inversion H|].
  destruct s as [|a s]; [discriminate|].
  unfold chr_matches in H. destruct (Ascii.eqb_spec c a); [|discriminate].
  subst. now rewrite (IH _ _ H).
Qed.

Lemma has_char_app c a b :
  has_char c (a +:+ b) = has_char c a || has_char c b.
Proof.
  induction a as [|x a IH]; simpl; [reflexivity|].
  rewrite IH. now rewrite orb_assoc.
Qed.

Lemma span_not_close_app v rest :
  has_char "]" v = false ->
  span not_close (v +:+ String "]" rest) = (v, String "]" rest).
Proof.
  induction v as [|a v IH]; simpl; intros H; [reflexivity|].
  apply orb_false_iff in H as [Ha Hv].
  assert (Hn : not_close a = true)
    by (unfold not_close; now rewrite Ascii.eqb_sym, Ha).
  rewrite Hn. now rewrite IH.
Qed.

Lemma span_fst_all p s c :
  has_char c (fst (span p s)) = true -> p c = true.
Proof.
  induction s as [|a s IH]; simpl; [discriminate|].
  destruct (p a) eqn:Ha; [|discriminate].
  destruct (span p s) as [x y]; simpl in *. intros H.
  apply orb_true_iff in H as [H|H]; [|now apply IH].
  apply Ascii.eqb_eq in H. now subst.
Qed.

Lemma bracket_here_intro name v rest :
  has_char "]" v = false ->
  bracket_here name (tag_open name +:+ v +:+ "]" +:+ rest) = Some (v, rest).
Proof.
  intros Hv. unfold bracket_here. fold (tag_open name).
  rewrite after_prefix_app. change ("]" +:+ rest) with (String "]" rest).
  now rewrite span_not_close_app.
Qed.

Lemma bracket_here_inv name s v rest :
  bracket_here name s = Some (v, rest) ->
  s = tag_open name +:+ v +:+ "]" +:+ rest /\ has_char "]" v = false.
Proof.
  unfold bracket_here. fold (tag_open name). intros H.
  destruct (after_prefix false _ s) as [s1|] eqn:Hp; [|discriminate].
  apply after_prefix_inv in Hp.
  pose proof (span_app not_close s1) as Happ.
  pose proof (span_snd_head not_close s1) as Hhd.
  pose proof (span_fst_all not_close s1 "]") as Hall.
  destruct (span not_close s1) as [v' r']; simpl in *.
  destruct r' as [|b r']; [discriminate|]. inversion H; subst v' r'.
  specialize (Hhd b rest eq_refl). apply not_close_false in Hhd. subst b.
  split; [now rewrite Hp, <- Happ|].
  destruct (has_char "]" v); [|reflexivity].
  specialize (Hall eq_refl). discriminate Hall.
Qed.

(** What [tag_here] means: [s] starts with a tag whose value is [x]. *)
Lemma tag_here_spec name s x :
  tag_here name s = Some x
  <-> x <> "" /\ has_char "]" x = false
      /\ exists rest, s = tag_open name +:+ x +:+ "]" +:+ rest.
Proof.
  unfold tag_here. split.
  - destruct (bracket_here name s) as [[v rest]|] eqn:Hb; [|discriminate].
    destruct (nonempty v) eqn:Hv; [|discriminate].
    intros H; inversion H; subst v.
    apply bracket_here_inv in Hb as [Hs Hc].
    split; [now apply nonempty_true|]. split; [assumption|]. now exists rest.
  - intros (Hne & Hc & rest & ->).
    rewrite bracket_here_intro by assumption.
    apply nonempty_true in Hne. now rewrite Hne.
Qed.

(** What [first_tag] means: the tag that starts first. *)
Lemma first_tag_spec name s x :
  first_tag name s = Some x
  <-> exists pre post,
        s = pre +:+ post /\ tag_here name post = Some x
        /\ forall p1 p2, pre = p1 +:+ p2 -> p2 <> "" ->
                         tag_here name (p2 +:+ post) = None.
Proof.
  split.
  - induction s as [|c s IH]; cbn [first_tag].
    + destruct (tag_here name "") eqn:Ht; [|discriminate].
      intros H; inversion H; subst. exists "", "". repeat split; auto.
      intros [|] [|]; simpl; congruence.
    + destruct (tag_here name (String c s)) eqn:Ht.
      * intros H; inversion H; subst. exists "", (String c s).
        repeat split; auto. intros [|] [|]; simpl; congruence.
      * intros H. destruct (IH H) as (pre & post & -> & Hpost & Hfirst).
        exists (String c pre), post. repeat split; auto.
        intros [|a p1] p2 Hsplit Hne; simpl in Hsplit.
        -- subst p2. exact Ht.
        -- inversion Hsplit; subst. now apply (Hfirst p1 p2).
  - intros (pre & post & -> & Hpost & Hfirst).
    induction pre as [|c pre IH]; simpl.
    + destruct post; cbn [first_tag]; now rewrite Hpost.
    + cbn [first_tag].
      assert (H0 : tag_here name (String c (pre +:+ post)) = None)
        by (apply (Hfirst "" (String c pre) eq_refl); discriminate).
      rewrite H0. apply IH. intros p1 p2 -> Hne. now apply (Hfirst (String c p1) p2).
Qed.

Lemma bracket_here_no_open name c s :
  Ascii.eqb c "[" = false -> bracket_here name (String c s) = None.
Proof.
  intros Hc. unfold bracket_here. cbn [String.append after_prefix].
  unfold chr_matches. now rewrite Ascii.eqb_sym, Hc.
Qed.

Lemma no_bracket_no_open name s :
  has_char "[" s = false -> no_bracket name s = true.
Proof.
  induction s as [|c s IH]; intros H.
  - reflexivity.
  - simpl in H. apply orb_false_iff in H as [Hc Hs].
    cbn [no_bracket]. rewrite bracket_here_no_open by assumption. now apply IH.
Qed.

Lemma no_bracket_app name pre s :
  has_char "[" pre = false -> no_bracket name (pre +:+ s) = no_bracket name s.
Proof.
  induction pre as [|c pre IH]; intros H; [reflexivity|].
  simpl in H. apply orb_false_iff in H as [Hc Hs].
  simpl. cbn [no_bracket]. rewrite bracket_here_no_open by assumption.
  now apply IH.
Qed.

Lemma first_tag_no_bracket name s :
  no_bracket name s = true -> first_tag name s = None.
Proof.
  induction s as [|c s IH]; cbn [no_bracket first_tag]; unfold tag_here;
    destruct (bracket_here name _); try discriminate; auto.
Qed.

Lemma delete_tags_no_bracket name s :
  no_bracket name s = true -> delete_tags name s = s.
Proof.
  unfold delete_tags.
  induction s as [|c s IH]; cbn [no_bracket delete_tags_from];
    [reflexivity|].
  destruct (bracket_here name _); [discriminate|].
  intros H. now rewrite IH.
Qed.

Lemma first_tag_app name pre s :
  has_char "[" pre = false -> first_tag name (pre +:+ s) = first_tag name s.
Proof.
  induction pre as [|c pre IH]; intros H; [reflexivity|].
  simpl in H. apply orb_false_iff in H as [Hc Hs].
  simpl. cbn [first_tag]. unfold tag_here at 1.
  rewrite bracket_here_no_open by assumption. now apply IH.
Qed.

Lemma delete_tags_from_skip name a : forall b,
  delete_tags_from name (String.length a) (a +:+ b) = delete_tags name b.
Proof.
  induction a as [|c a IH]; intros b; simpl.
  - destruct b; reflexivity.
  - apply IH.
Qed.

Lemma delete_tags_app name pre s :
  has_char "[" pre = false ->
  delete_tags name (pre +:+ s) = pre +:+ delete_tags name s.
Proof.
  unfold delete_tags.
  induction pre as [|c pre IH]; intros H; [reflexivity|].
  simpl in H. apply orb_false_iff in H as [Hc Hs].
  simpl. rewrite bracket_here_no_open by assumption. now rewrite IH.
Qed.

End TagFacts.

(** * Facts about [split] and [strip] *)

Module SplitFacts.

Import PyStr Spec StrFacts.

Section Sep.
Variable sep : ascii.
Variable p : ascii -> bool.
Hypothesis p_sep : forall c, p c = Ascii.eqb c sep.

Lemma split_unfold c s :
  split sep (String c s)
  = if Ascii.eqb c sep then EmptyString :: split sep s
    else match split sep s with
         | hd :: tl => String c hd :: tl
         | [] => [String c EmptyString]
         end.
Proof. reflexivity. Qed.

Lemma split_cons c s :
  exists hd tl, split sep (String c s) = hd :: tl.
Proof.
  simpl. destruct (Ascii.eqb c sep); [eauto|].
  destruct (split sep s); eauto.
Qed.

Lemma split_not_nil s : split sep s <> [].
Proof.
  destruct s as [|c s]; [discriminate|].
  destruct (split_cons c s) as (hd & tl & ->). discriminate.
Qed.

Lemma last_nonempty_cons_empty l :
  last_nonempty (EmptyString :: l) = last_nonempty l.
Proof. reflexivity. Qed.

Lemma last_nonempty_app_empties l k :
  last_nonempty (l ++ List.repeat EmptyString k)%list = last_nonempty l.
Proof.
  unfold last_nonempty. rewrite List.filter_app.
  replace (List.filter nonempty (List.repeat EmptyString k))
    with (@nil string)
    by (induction k; simpl; [reflexivity | assumption]).
  now rewrite List.app_nil_r.
Qed.

Lemma split_lstrip s :
  last_nonempty (split sep (lstrip_by p s)) = last_nonempty (split sep s).
Proof.
  induction s as [|c s IH]; [reflexivity|].
  cbn [lstrip_by split]. rewrite p_sep.
  destruct (Ascii.eqb c sep) eqn:Hc.
  - now rewrite last_nonempty_cons_empty.
  - cbn [split]. now rewrite Hc.
Qed.

Lemma split_rstrip s :
  exists k,
    split sep s
    = (split sep (rstrip_by p s) ++ List.repeat EmptyString k)%list.
Proof.
  induction s as [|c s (k & IH)]; [now exists 0|].
  cbn [rstrip_by]. rewrite p_sep.
  destruct (rstrip_by p s) as [|b r] eqn:Hr.
  - cbn [split] in *. destruct (Ascii.eqb c sep) eqn:Hc.
    + exists (S k). rewrite IH. reflexivity.
    + exists k. cbn [split]. rewrite Hc, IH. reflexivity.
  - exists k. rewrite (split_unfold c s), (split_unfold c (String b r)), IH.
    destruct (Ascii.eqb c sep); [reflexivity|].
    destruct (split_cons b r) as (hd & tl & ->). reflexivity.
Qed.

Lemma last_filter (l : list string) :
  List.last l EmptyString <> EmptyString ->
  List.last (List.filter nonempty l) EmptyString = List.last l EmptyString.
Proof.
  induction l as [|x l IH]; [reflexivity|].
  destruct l as [|y l].
  - simpl. intros H. destruct x; [congruence | reflexivity].
  - intros H.
    change (List.last (x :: y :: l) EmptyString)
      with (List.last (y :: l) EmptyString) in *.
    specialize (IH H).
    change (List.filter nonempty (x :: y :: l))
      with (if nonempty x then x :: List.filter nonempty (y :: l)
            else List.filter nonempty (y :: l)).
    destruct (nonempty x); [|exact IH].
    destruct (List.filter nonempty (y :: l)) as [|z F]; [|exact IH].
    rewrite <- IH in H. now contradiction H.
Qed.

Lemma last_split_rstrip s :
  rstrip_by p s <> EmptyString ->
  List.last (split sep (rstrip_by p s)) EmptyString <> EmptyString.
Proof.
  induction s as [|c s IH]; [intros H; now contradiction H|].
  cbn [rstrip_by]. rewrite p_sep.
  destruct (rstrip_by p s) as [|b r] eqn:Hr.
  - destruct (Ascii.eqb c sep) eqn:Hc; [intros H; now contradiction H|].
    intros _. cbn [split]. rewrite Hc. discriminate.
  - intros _. specialize (IH ltac:(discriminate)).
    destruct (split_cons b r) as (hd & tl & Hs). rewrite Hs in IH.
    rewrite split_unfold, Hs.
    destruct (Ascii.eqb c sep); [exact IH|].
    destruct tl; [discriminate | exact IH].
Qed.

(** On a string that was stripped, the last piece is the last non-empty
    piece. *)
Lemma last_split_stripped s :
  List.last (split sep (rstrip_by p s)) EmptyString
  = last_nonempty (split sep (rstrip_by p s)).
Proof.
  destruct (rstrip_by p s) as [|b r] eqn:Hr; [reflexivity|].
  rewrite <- Hr. unfold last_nonempty. symmetry. apply last_filter.
  apply last_split_rstrip. rewrite Hr. discriminate.
Qed.

Lemma last_split_strip s :
  List.last (split sep (strip_by p s)) EmptyString
  = last_nonempty (split sep s).
Proof.
  unfold strip_by. rewrite last_split_stripped.
  destruct (split_rstrip (lstrip_by p s)) as (k & Hk).
  rewrite <- (last_nonempty_app_empties _ k), <- Hk.
  apply split_lstrip.
Qed.
End Sep.

End SplitFacts.

(** * Facts about the loggers and the handlers *)

Module HandlerFacts.

Import PyStr Py Helpers Env LoggingConfig Server Spec.

(** Runs the monadic glue on worlds and locals given by their fields; calls
    into [get_session_logger], [get_session_context] and the string
    functions stay as they are. *)
Ltac run_glue :=
  cbv beta iota zeta delta
    [call try_except mbind M_bind bind mret M_ret ret raise get modify when
     lift locals assign assign_query assign_session_id assign_path
     assign_bot_id negb frame
     print log info warning error log_section_separator
     session_id_in_locals query_in_locals
     set_session_loggers set_loggers set_session_context set_records
     set_console set_fs_script
     l_query l_session_id l_path l_bot_id ad_logger ad_session_id fst snd
     session_loggers loggers session_context records console fs_script
     today now_ms search_records].

Ltac run := run_glue; cbn [nonempty]; run_glue.

Ltac run_in H :=
  cbv beta iota zeta delta
    [call try_except mbind M_bind bind mret M_ret ret raise get modify when
     lift locals assign assign_query assign_session_id assign_path
     assign_bot_id negb frame
     print log info warning error log_section_separator
     session_id_in_locals query_in_locals
     set_session_loggers set_loggers set_session_context set_records
     set_console set_fs_script
     l_query l_session_id l_path l_bot_id ad_logger ad_session_id fst snd
     session_loggers loggers session_context records console fs_script
     today now_ms search_records] in H.

Lemma for_each_total {A} (body : A -> M frame unit)
      (Hbody : forall x l w, exists w', body x (l, w) = (Returns tt, (l, w'))) :
  forall xs l w, exists w', for_each xs body (l, w) = (Returns tt, (l, w')).
Proof.
  induction xs as [|x xs IH]; intros l w.
  - now exists w.
  - cbn [for_each]. run. destruct (Hbody x l w) as [w1 ->]. apply IH.
Qed.

(** The emergency logging never raises and leaves the locals alone. *)
Lemma emergency_log_total name lines e l w :
  exists w', emergency_log name lines e (l, w) = (Returns tt, (l, w')).
Proof.
  destruct l as [q sid p b], w as [sl lg sc rec con fs td now sr].
  unfold emergency_log. run.
  destruct (get_session_logger "MCP Server" sid INFO _)
    as [[lgr|e'] [sl1 lg1 sc1 rec1 con1 fs1 td1 now1 sr1]].
  - match goal with
    | |- context [for_each ?xs ?body (?l, ?w)] =>
        destruct (for_each_total body
                    ltac:(intros ? ? ?; eexists; reflexivity) xs l w)
          as [w' Hw]; unfold frame in *; rewrite Hw
    end.
    now exists w'.
  - eauto.
Qed.

(** A handler built as [try: body  except Exception: log; reply] returns. *)
Lemma guarded_total {A} (body : M frame A) (handler : exn -> M frame A)
      (Hh : forall e l w, exists r l' w',
                handler e (l, w) = (Returns r, (l', w'))) :
  forall args w, exists r w',
      call args (try_except body handler) w = (Returns r, w').
Proof.
  intros args w. unfold call, try_except.
  destruct (body (args, w)) as [[r|e] [l1 w1]].
  - now exists r, w1.
  - destruct (Hh e l1 w1) as (r & l' & w' & ->). now exists r, w'.
Qed.

Lemma failure_after_log name lines text e l w :
  exists w',
    (emergency_log name lines e;; failure_reply text) (l, w)
    = (Returns (JsonReply (MkReply text None false (l_session_id l))), (l, w')).
Proof.
  destruct (emergency_log_total name lines e l w) as [w' Hw].
  exists w'. unfold mbind, M_bind, bind. rewrite Hw. reflexivity.
Qed.

Lemma get_session_context_raises query w :
  exists w', get_session_context query w = (Raises (NameError "logger"), w').
Proof.
  destruct w. unfold get_session_context. run. eexists. reflexivity.
Qed.

(** [get_session_logger] does not touch the clock. *)
Lemma get_session_logger_now_ms project sid level w o w1 :
  get_session_logger project sid level w = (o, w1) -> now_ms w1 = now_ms w.
Proof.
  destruct w as [sl lg sc rec con fs td now sr].
  unfold get_session_logger, _create_session_logger, reset_logger, addHandler,
    next_fs.
  run. destruct (sl !! _).
  - intros H; now inversion H.
  - destruct (has_nul project); run; [intros H; now inversion H|].
    destruct fs as [|[| |] rest]; run;
      repeat match goal with
             | |- context [if has_nul ?x then _ else _] =>
                 destruct (has_nul x); run
             | |- context [match ?m !! ?k with _ => _ end] =>
                 destruct (m !! k); run
             end;
      intros H; now inversion H.
Qed.

(** [session_id] after [if not session_id: session_id = '...'] *)
Lemma fallback_truthy sid :
  truthy (if truthy sid then sid else Some "fallback-session-id") = true.
Proof. destruct (truthy sid) eqn:H; [exact H | reflexivity]. Qed.

Lemma py_or_truthy a b : truthy b = true -> truthy (py_or a b) = true.
Proof. unfold py_or. destruct (truthy a) eqn:H; auto. Qed.

(** Destructs the outcome of the first [get_session_logger] of a body and
    aligns the clock of the world it leaves with the one it found. *)
Ltac first_logger sid0 :=
  match goal with
  | |- context [get_session_logger "MCP Server" sid0 INFO ?w] =>
      let H := fresh "H" in
      let Hnow := fresh "Hnow" in
      destruct (get_session_logger "MCP Server" sid0 INFO w)
        as [[?lgr|?e] [?sl1 ?lg1 ?sc1 ?rec1 ?con1 ?fs1 ?td1 ?now1 ?sr1]]
           eqn:H;
      pose proof (get_session_logger_now_ms _ _ _ _ _ _ H) as Hnow;
      cbn [now_ms] in Hnow; subst
  end.

(** The body shared by the cancel and reschedule handlers, run from the
    parameters: the logger decides between the reply and the exception. *)
Lemma form_body_run title url ok q sid p b w :
  let sid0 := if truthy sid then sid else Some "fallback-session-id" in
  let sid1 :=
    if has_tags q
    then py_or (ctx_session_id (extract_context_from_message q)) sid0
    else sid0 in
  match get_session_logger "MCP Server" sid0 INFO w with
  | (Returns _, w1) =>
      exists l' w',
        form_body title url ok (MkLocals q sid p b, w)
        = (Returns (JsonReply
                      (MkReply ok (Some (with_session url sid1 (now_ms w)))
                               true sid1)),
           (l', w'))
  | (Raises e, w1) =>
      form_body title url ok (MkLocals q sid p b, w)
      = (Raises e, (MkLocals q sid0 p b, w1))
  end.
Proof.
  intros sid0 sid1. subst sid0 sid1. unfold form_body.
  destruct w as [sl lg sc rec con fs td now sr].
  destruct (truthy sid) eqn:Hs.
  - first_logger sid.
    + run. rewrite Hs. run. rewrite H. run.
      destruct (nonempty title); run; destruct (has_tags q); run;
        eexists; eexists; reflexivity.
    + run. rewrite Hs. run. rewrite H. reflexivity.
  - first_logger (Some "fallback-session-id").
    + run. rewrite Hs. run. rewrite H. run.
      destruct (nonempty title); run; destruct (has_tags q); run;
        eexists; eexists; reflexivity.
    + run. rewrite Hs. run. rewrite H. reflexivity.
Qed.

Section Book.
Variables FORM_URL_1 FORM_URL_2 : string.

Lemma book_body_tags q sid p b w :
  has_tags q = true ->
  exists w',
    book_body FORM_URL_1 FORM_URL_2 (MkLocals q sid p b, w)
    = (Raises (NameError "logger"), (MkLocals q sid p b, w')).
Proof.
  intros Ht. unfold book_body.
  destruct (get_session_context_raises q w) as [w' Hw].
  destruct w, w'. run. rewrite Ht. run. rewrite Hw. eexists. reflexivity.
Qed.

Lemma book_body_plain q sid p b w :
  has_tags q = false ->
  let sid0 := if truthy sid then sid else Some "fallback-session-id" in
  let FORM_URL := if opt_eqb b "fp01" then FORM_URL_2 else FORM_URL_1 in
  match get_session_logger "MCP Server" sid0 INFO w with
  | (Returns _, w1) =>
      exists l' w',
        book_body FORM_URL_1 FORM_URL_2 (MkLocals q sid p b, w)
        = (Returns
             (JsonReply
                (MkReply "I'm opening the appointment booking form for you. Please fill it out to book your appointment."
                         (Some (with_session FORM_URL sid0 (now_ms w)))
                         true sid0)),
           (l', w'))
  | (Raises e, w1) =>
      book_body FORM_URL_1 FORM_URL_2 (MkLocals q sid p b, w)
      = (Raises e, (MkLocals q sid0 p b, w1))
  end.
Proof.
  intros Ht sid0 FORM_URL. subst sid0 FORM_URL. unfold book_body.
  destruct w as [sl lg sc rec con fs td now sr].
  destruct (truthy sid) eqn:Hs.
  - first_logger sid.
    + run. rewrite Ht. run. rewrite Hs. run. rewrite H. run.
      eexists; eexists; reflexivity.
    + run. rewrite Ht. run. rewrite Hs. run. rewrite H. reflexivity.
  - first_logger (Some "fallback-session-id").
    + run. rewrite Ht. run. rewrite Hs. run. rewrite H. run.
      eexists; eexists; reflexivity.
    + run. rewrite Ht. run. rewrite Hs. run. rewrite H. reflexivity.
Qed.
End Book.

Lemma rag_body_tags q sid p b w :
  has_tags q = true ->
  exists w',
    rag_body (MkLocals q sid p b, w)
    = (Raises (NameError "logger"), (MkLocals q sid p b, w')).
Proof.
  intros Ht. unfold rag_body.
  destruct (get_session_context_raises q w) as [w' Hw].
  destruct w, w'. run. rewrite Ht. run. rewrite Hw. eexists. reflexivity.
Qed.

(** A marker in the query makes [has_tags] true. *)
Lemma has_tags_of_marker q :
  contains "[SESSION_ID:" q = true \/ contains "[PATH:" q = true
  \/ contains "[BOT_ID:" q = true ->
  has_tags q = true.
Proof.
  unfold has_tags. intros H.
  assert (Hq : nonempty q = true).
  { destruct q; [|reflexivity]. now destruct H as [H|[H|H]]. }
  rewrite Hq. simpl. destruct H as [H | [H | H]]; rewrite H;
    rewrite ?orb_true_r; reflexivity.
Qed.

End HandlerFacts.

(** * Facts about the URL patterns *)

Module UrlFacts.

Import PyStr Re UrlLib Helpers Spec StrFacts ReFacts.

Lemma in_all_ascii a : In a all_ascii.
Proof.
  unfold all_ascii. rewrite <- (ascii_N_embedding a).
  rewrite <- (N2Nat.id (N_of_ascii a)).
  apply (in_map (fun n => ascii_of_N (N.of_nat n))), in_seq.
  pose proof (N_ascii_bounded a). lia.
Qed.

Lemma octet_check :
  forallb (fun d1 =>
    forallb (fun d2 => Bool.eqb (octet_re d1 d2) (octet_16_31 d1 d2))
            all_ascii) all_ascii = true.
Proof. vm_compute. reflexivity. Qed.

Lemma octet_re_spec d1 d2 : octet_re d1 d2 = octet_16_31 d1 d2.
Proof.
  pose proof octet_check as H.
  rewrite forallb_forall in H. specialize (H d1 (in_all_ascii d1)).
  rewrite forallb_forall in H. specialize (H d2 (in_all_ascii d2)).
  now apply Bool.eqb_prop.
Qed.

Lemma dot_check :
  forallb (fun a => Bool.eqb (chr_matches true "." a) (Ascii.eqb a "."))
          all_ascii = true.
Proof. vm_compute. reflexivity. Qed.

Lemma dot_spec a : chr_matches true "." a = Ascii.eqb a ".".
Proof.
  pose proof dot_check as H.
  rewrite forallb_forall in H. specialize (H a (in_all_ascii a)).
  now apply Bool.eqb_prop.
Qed.

Lemma match_here_lit l s :
  match_here true (lit l) s
  = match after_prefix true l s with
    | Some rest => Some (rest, [])
    | None => None
    end.
Proof. unfold match_here. apply rmatch_lit. Qed.

(** A literal pattern is found exactly where the text holds it, up to the
    case of letters. *)
Lemma search_lit l s : is_match (search true (lit l) s) = contains_ci l s.
Proof.
  unfold search. generalize 0.
  induction s as [|c s IH]; intros i; cbn [search_from contains_ci];
    rewrite match_here_lit; destruct (after_prefix true l _);
    try reflexivity.
  apply IH.
Qed.

Lemma match_here_172 s :
  match match_here true re_172 s with Some _ => true | None => false end
  = here_172 s.
Proof.
  unfold match_here, here_172.
  change re_172 with
    (Cat (lit "172.")
         (Cat (Group (Alt (Cat (Chr "1") (Range "6" "9"))
                          (Alt (Cat (Chr "2") (Range "0" "9"))
                               (Cat (Chr "3") (Range "0" "1")))))
              (Chr "."))).
  cbn [rmatch]. rewrite rmatch_lit.
  destruct (after_prefix true "172." s) as [s1|]; [|reflexivity].
  destruct s1 as [|d1 [|d2 [|dot rest]]]; cbn [one].
  - reflexivity.
  - destruct (chr_matches true "1" d1), (chr_matches true "2" d1),
      (chr_matches true "3" d1); reflexivity.
  - destruct (chr_matches true "1" d1), (chr_matches true "2" d1),
      (chr_matches true "3" d1), (range_matches true "6" "9" d2),
      (range_matches true "0" "9" d2), (range_matches true "0" "1" d2);
      reflexivity.
  - rewrite <- octet_re_spec, <- dot_spec. unfold octet_re.
    destruct (chr_matches true "1" d1), (chr_matches true "2" d1),
      (chr_matches true "3" d1), (range_matches true "6" "9" d2),
      (range_matches true "0" "9" d2), (range_matches true "0" "1" d2),
      (chr_matches true "." dot); reflexivity.
Qed.

Lemma search_172 s : is_match (search true re_172 s) = contains_172 s.
Proof.
  unfold search. generalize 0.
  induction s as [|c s IH]; intros i; cbn [search_from contains_172];
    rewrite <- match_here_172; destruct (match_here true re_172 _)
      as [[rest gs]|]; try reflexivity.
  apply IH.
Qed.

Lemma check_patterns_spec url patterns :
  check_patterns url patterns
  = if existsb (fun r => is_match (search true r url)) patterns
       && negb (dev_exception url)
    then Some security_reject else None.
Proof.
  induction patterns as [|r rest IH]; [reflexivity|].
  cbn [check_patterns existsb].
  destruct (is_match (search true r url)); cbn [orb andb].
  - destruct (dev_exception url); [|reflexivity].
    rewrite IH, andb_false_r. reflexivity.
  - exact IH.
Qed.

(** The loop over [dangerous_patterns] finds a pattern exactly when the
    text of the URL is blocked. *)
Lemma dangerous_patterns_spec url :
  existsb (fun r => is_match (search true r url)) dangerous_patterns
  = blocked_text url.
Proof.
  unfold dangerous_patterns, blocked_text. cbn [existsb].
  fold re_172. rewrite !search_lit, search_172, orb_false_r.
  now rewrite !orb_assoc.
Qed.

End UrlFacts.

(** * Messages that hold one tag *)

Module OneTag.

Import PyStr Re UrlLib Helpers Spec StrFacts ReFacts TagFacts.

Lemma spaces_no_char c ws :
  is_space c = false -> forall_chars is_space ws = true ->
  has_char c ws = false.
Proof.
  intros Hc. induction ws as [|a ws IH]; simpl; [reflexivity|].
  intros H. apply andb_true_iff in H as [Ha Hws].
  rewrite (IH Hws), orb_false_r.
  destruct (Ascii.eqb_spec a c); [subst; congruence | reflexivity].
Qed.

Lemma lstrip_spaces ws :
  forall_chars is_space ws = true -> lstrip_by is_space ws = "".
Proof.
  induction ws as [|a ws IH]; simpl; [reflexivity|].
  intros H. apply andb_true_iff in H as [Ha Hws]. rewrite Ha. now apply IH.
Qed.

Lemma strip_spaces ws : forall_chars is_space ws = true -> strip ws = "".
Proof. intros H. unfold strip, strip_by. now rewrite lstrip_spaces. Qed.

Lemma lstrip_no_char c p s :
  has_char c s = false -> has_char c (lstrip_by p s) = false.
Proof.
  induction s as [|a s IH]; simpl; [reflexivity|].
  intros H. apply orb_false_iff in H as [Ha Hs].
  destruct (p a); [now apply IH|]. simpl. now rewrite Ha, Hs.
Qed.

Lemma length_tail c s : String.length (String c s) = S (String.length s).
Proof. reflexivity. Qed.

(** A removal pass at a bracketed tag drops it and the white space after. *)
Lemma delete_tags_at name v post :
  has_char "]" v = false -> has_char "[" post = false ->
  delete_tags name (tag_open name +:+ v +:+ "]" +:+ post)
  = lstrip_by is_space post.
Proof.
  intros Hv Hpost.
  pose proof (bracket_here_intro name v post Hv) as Hb.
  pose proof (span_app is_space post) as Happ.
  rewrite span_lstrip in Happ.
  set (ws := fst (span is_space post)) in *.
  set (rest := lstrip_by is_space post) in *.
  assert (Hs : tag_open name +:+ v +:+ "]" +:+ post
               = String "[" ((name +:+ ":" +:+ v +:+ "]" +:+ ws) +:+ rest)).
  { rewrite <- Happ. unfold tag_open. rewrite !app_assoc. reflexivity. }
  rewrite Hs in *. unfold delete_tags. cbn [delete_tags_from]. rewrite Hb.
  fold rest. rewrite length_tail, length_app.
  replace (S (String.length (name +:+ ":" +:+ v +:+ "]" +:+ ws)
              + String.length rest) - String.length rest - 1)
    with (String.length (name +:+ ":" +:+ v +:+ "]" +:+ ws)) by lia.
  rewrite delete_tags_from_skip.
  apply delete_tags_no_bracket, no_bracket_no_open.
  now apply lstrip_no_char.
Qed.

Lemma first_tag_unfold name s :
  first_tag name s
  = match tag_here name s with
    | Some v => Some v
    | None =>
        match s with
        | EmptyString => None
        | String _ s' => first_tag name s'
        end
    end.
Proof. destruct s; reflexivity. Qed.

End OneTag.

(** * The three tags, wherever they stand *)

Module AnyTag.

Import PyStr Re UrlLib Helpers Spec StrFacts ReFacts TagFacts OneTag.

(** Each field is the trimmed value of the leftmost tag of its name that
    has a value. *)
Lemma ctx_field_first_tag name message :
  In name tag_names ->
  ctx_field name (extract_context_from_message message)
  = option_map strip (first_tag name message).
Proof.
  intros [<- | [<- | [<- | []]]];
    cbn [ctx_field String.eqb extract_context_from_message ctx_session_id
         ctx_path ctx_bot_id];
    apply tag_value_first_tag.
Qed.

(** A literal without an opening bracket cannot reach into text that
    starts with one. *)
Lemma after_prefix_within l : forall pre s r,
  has_char "[" l = false ->
  after_prefix false l (pre +:+ String "[" s) = Some r ->
  String.prefix l pre = true.
Proof.
  induction l as [|c l IH]; intros pre s r Hl H; [now destruct pre|].
  cbn [has_char] in Hl. apply orb_false_iff in Hl as [Hc Hl].
  destruct pre as [|a pre]; cbn [String.append after_prefix] in H.
  - unfold chr_matches in H. rewrite Hc in H. discriminate.
  - unfold chr_matches in H. destruct (Ascii.eqb_spec c a); [|discriminate].
    subst a. cbn [String.prefix].
    destruct (ascii_dec c c); [|contradiction]. eapply IH; eauto.
Qed.

Lemma contains_cons sub c s :
  contains sub (String c s) = false ->
  String.prefix sub (String c s) = false /\ contains sub s = false.
Proof. cbn [contains]. intros H. now apply orb_false_iff in H. Qed.

(** No tag opens inside text that does not hold its opening, also not
    across the end of that text when a bracket follows. *)
Lemma bracket_here_outside name c pre s :
  has_char "[" (name +:+ ":") = false ->
  String.prefix (tag_open name) (String c pre) = false ->
  bracket_here name (String c pre +:+ String "[" s) = None.
Proof.
  intros Hname Hp. unfold bracket_here.
  destruct (after_prefix false ("[" +:+ name +:+ ":")
                         (String c pre +:+ String "[" s)) as [r|] eqn:Ha;
    [|reflexivity].
  exfalso. cbn [String.append after_prefix] in Ha.
  unfold chr_matches in Ha. destruct (Ascii.eqb_spec "[" c); [|discriminate].
  subst c. apply after_prefix_within in Ha; [|exact Hname].
  unfold tag_open in Hp. cbn [String.append String.prefix] in Hp.
  destruct (ascii_dec "[" "["); [|contradiction]. congruence.
Qed.

Lemma first_tag_outside name pre s :
  has_char "[" (name +:+ ":") = false ->
  contains (tag_open name) pre = false ->
  first_tag name (pre +:+ String "[" s) = first_tag name (String "[" s).
Proof.
  intros Hname. induction pre as [|c pre IH]; intros Hc; [reflexivity|].
  apply contains_cons in Hc as [Hp Hc].
  rewrite first_tag_unfold. unfold tag_here.
  rewrite bracket_here_outside by assumption.
  cbn [String.append]. now apply IH.
Qed.

Lemma delete_tags_outside name pre s :
  has_char "[" (name +:+ ":") = false ->
  contains (tag_open name) pre = false ->
  delete_tags name (pre +:+ String "[" s)
  = pre +:+ delete_tags name (String "[" s).
Proof.
  intros Hname. induction pre as [|c pre IH]; intros Hc; [reflexivity|].
  apply contains_cons in Hc as [Hp Hc].
  unfold delete_tags in *.
  change (delete_tags_from name 0 (String c pre +:+ String "[" s))
    with (match bracket_here name (String c pre +:+ String "[" s) with
          | Some (_, rest) =>
              delete_tags_from name
                (String.length (String c pre +:+ String "[" s)
                 - String.length (lstrip_by is_space rest) - 1)
                (pre +:+ String "[" s)
          | None =>
              String c (delete_tags_from name 0 (pre +:+ String "[" s))
          end).
  rewrite bracket_here_outside by assumption.
  cbn [String.append]. now rewrite IH.
Qed.

(** A removal pass at a bracketed tag drops it and the white space after
    it, and goes on with the rest. *)
Lemma delete_tags_here name v post :
  has_char "]" v = false ->
  delete_tags name (tag_open name +:+ v +:+ "]" +:+ post)
  = delete_tags name (lstrip_by is_space post).
Proof.
  intros Hv.
  pose proof (bracket_here_intro name v post Hv) as Hb.
  pose proof (span_app is_space post) as Happ.
  rewrite span_lstrip in Happ.
  set (ws := fst (span is_space post)) in *.
  set (rest := lstrip_by is_space post) in *.
  assert (Hs : tag_open name +:+ v +:+ "]" +:+ post
               = String "[" ((name +:+ ":" +:+ v +:+ "]" +:+ ws) +:+ rest)).
  { rewrite <- Happ. unfold tag_open. rewrite !app_assoc. reflexivity. }
  rewrite Hs in *. unfold delete_tags. cbn [delete_tags_from]. rewrite Hb.
  fold rest. rewrite length_tail, length_app.
  replace (S (String.length (name +:+ ":" +:+ v +:+ "]" +:+ ws)
              + String.length rest) - String.length rest - 1)
    with (String.length (name +:+ ":" +:+ v +:+ "]" +:+ ws)) by lia.
  apply delete_tags_from_skip.
Qed.

Lemma tag_names_plain name :
  In name tag_names ->
  has_char "[" (name +:+ ":") = false /\ has_char "[" name = false.
Proof. intros [<- | [<- | [<- | []]]]; split; reflexivity. Qed.


Lemma tag_open_app name x :
  tag_open name +:+ x = String "[" ((name +:+ ":") +:+ x).
Proof. reflexivity. Qed.

(** The tag [[NAME:ws]] of white space only, or empty, at the place where
    the first tag of its name can stand. *)
Lemma first_tag_blank name pre ws post :
  In name tag_names ->
  contains (tag_open name) pre = false ->
  forall_chars is_space ws = true ->
  first_tag name (pre +:+ tag_open name +:+ ws +:+ "]" +:+ post)
  = if nonempty ws then Some ws else first_tag name post.
Proof.
  intros Hin Hpre Hws.
  destruct (tag_names_plain name Hin) as [Hname Hname'].
  assert (Hclose : has_char "]" ws = false) by (now apply spaces_no_char).
  rewrite tag_open_app, first_tag_outside by assumption.
  rewrite <- tag_open_app.
  rewrite first_tag_unfold. unfold tag_here.
  rewrite bracket_here_intro by assumption.
  destruct ws as [|a ws]; [|reflexivity].
  cbn [nonempty]. rewrite tag_open_app.
  change ("" +:+ "]" +:+ post) with ("]" +:+ post).
  rewrite <- app_assoc. apply first_tag_app.
  rewrite !has_char_app, Hname'. reflexivity.
Qed.

Lemma delete_tags_blank name pre ws post :
  In name tag_names ->
  contains (tag_open name) pre = false ->
  has_char "]" ws = false ->
  delete_tags name (pre +:+ tag_open name +:+ ws +:+ "]" +:+ post)
  = pre +:+ delete_tags name (lstrip_by is_space post).
Proof.
  intros Hin Hpre Hws.
  destruct (tag_names_plain name Hin) as [Hname _].
  rewrite tag_open_app, delete_tags_outside by assumption.
  rewrite <- tag_open_app. now rewrite delete_tags_here.
Qed.

Lemma no_bracket_cons name c s :
  no_bracket name (String c s)
  = match bracket_here name (String c s) with
    | Some _ => false
    | None => no_bracket name s
    end.
Proof. reflexivity. Qed.

(** A tag of one name is no tag of another. *)
Lemma other_tag_kept name other pre ws post :
  In name tag_names -> In other tag_names -> other <> name ->
  has_char "[" pre = false -> has_char "[" ws = false ->
  has_char "[" post = false ->
  delete_tags other (pre +:+ tag_open name +:+ ws +:+ "]" +:+ post)
  = pre +:+ tag_open name +:+ ws +:+ "]" +:+ post.
Proof.
  intros Hin Hother Hne Hpre Hws Hpost.
  apply delete_tags_no_bracket. rewrite no_bracket_app by assumption.
  assert (Htail : forall n, has_char "[" n = false ->
            has_char "[" (n +:+ ":" +:+ ws +:+ "]" +:+ post) = false).
  { intros n Hn. rewrite !has_char_app, Hn, Hws, Hpost. reflexivity. }
  rewrite tag_open_app, no_bracket_cons.
  destruct Hin as [<- | [<- | [<- | []]]];
    destruct Hother as [<- | [<- | [<- | []]]];
    try contradiction;
    match goal with
    | |- context [bracket_here ?n ?s] =>
        replace (bracket_here n s) with (@None (string * string))
          by reflexivity
    end;
    apply no_bracket_no_open; rewrite app_assoc;
    apply Htail; reflexivity.
Qed.


(** The three passes on a message whose only bracket is one tag. *)
Lemma strip_tags_single name pre ws post :
  In name tag_names ->
  has_char "[" pre = false -> has_char "[" ws = false ->
  has_char "]" ws = false -> has_char "[" post = false ->
  strip_tags (pre +:+ tag_open name +:+ ws +:+ "]" +:+ post)
  = pre +:+ lstrip_by is_space post.
Proof.
  intros Hin Hpre Hws Hclose Hpost. unfold strip_tags.
  rewrite !sub_delete_tags.
  assert (Hrest : forall n, delete_tags n (pre +:+ lstrip_by is_space post)
                            = pre +:+ lstrip_by is_space post).
  { intros n. apply delete_tags_no_bracket, no_bracket_no_open.
    rewrite has_char_app, Hpre. now apply lstrip_no_char. }
  assert (Hown : delete_tags name
                   (pre +:+ tag_open name +:+ ws +:+ "]" +:+ post)
                 = pre +:+ lstrip_by is_space post).
  { rewrite tag_open_app, delete_tags_app by assumption.
    rewrite <- tag_open_app. now rewrite delete_tags_at. }
  assert (Hother : forall other, In other tag_names -> other <> name ->
            delete_tags other (pre +:+ tag_open name +:+ ws +:+ "]" +:+ post)
            = pre +:+ tag_open name +:+ ws +:+ "]" +:+ post)
    by (intros; now apply other_tag_kept).
  assert (Hs : In "SESSION_ID" tag_names) by (simpl; auto).
  assert (Hp : In "PATH" tag_names) by (simpl; auto).
  assert (Hb : In "BOT_ID" tag_names) by (simpl; auto).
  destruct Hin as [<- | [<- | [<- | []]]].
  - now rewrite Hown, !Hrest.
  - rewrite (Hother "SESSION_ID") by (assumption || discriminate).
    now rewrite Hown, Hrest.
  - rewrite (Hother "SESSION_ID") by (assumption || discriminate).
    rewrite (Hother "PATH") by (assumption || discriminate).
    exact Hown.
Qed.

End AnyTag.

(** * The context extractor *)

Module ContextClaims.

Import PyStr Re UrlLib Helpers Py Env LoggingConfig Server Spec.
Import StrFacts ReFacts TagFacts SplitFacts OneTag AnyTag HandlerFacts.

(** C5, as stated, fails: the value of the session tag can come back in
    [clean_message].  In "[SESSION_ID: abc] abc" the tag holds " abc", the
    extractor returns the session id "abc", and the cleaned message is
    "abc": only the tag is deleted, not the other text equal to its value. *)
Lemma session_value_reappears :
  let message := "[SESSION_ID: abc] abc" in
  first_tag "SESSION_ID" message = Some " abc"
  /\ ctx_session_id (extract_context_from_message message) = Some "abc"
  /\ clean_message (extract_context_from_message message) = "abc"
  /\ contains "abc" (clean_message (extract_context_from_message message))
     = true.
Proof. vm_compute. repeat split; reflexivity. Qed.

(** C5, amended: when [x] is the value of the leftmost tag [[SESSION_ID:x]]
    of a message (tag name in upper case, [x] non-empty and without a
    closing bracket), [extract_context_from_message] returns [x] trimmed as
    the session id, and [clean_message] is the message with the bracketed
    [SESSION_ID] tags, then the [PATH] tags, then the [BOT_ID] tags deleted
    (each with the white space after it), trimmed.  Text equal to [x]
    outside the tags stays. *)
Theorem extract_session_id_first_tag (message x : string) :
  first_tag "SESSION_ID" message = Some x ->
  ctx_session_id (extract_context_from_message message) = Some (strip x)
  /\ clean_message (extract_context_from_message message)
     = strip (delete_tags "BOT_ID"
                (delete_tags "PATH" (delete_tags "SESSION_ID" message))).
Proof.
  intros Hx. split.
  - cbn [extract_context_from_message ctx_session_id].
    now rewrite tag_value_first_tag, Hx.
  - cbn [extract_context_from_message clean_message]. unfold strip_tags.
    now rewrite !sub_delete_tags.
Qed.

(** The same in the layout the callers use: nothing bracketed before the
    tag. *)
Lemma extract_session_id_leading_tag (pre x post : string) :
  has_char "[" pre = false -> nonempty x = true -> has_char "]" x = false ->
  ctx_session_id
    (extract_context_from_message
       (pre +:+ "[SESSION_ID:" +:+ x +:+ "]" +:+ post))
  = Some (strip x).
Proof.
  intros Hpre Hx Hc.
  cbn [extract_context_from_message ctx_session_id].
  rewrite tag_value_first_tag, first_tag_app by assumption.
  rewrite first_tag_unfold. unfold tag_here.
  change ("[SESSION_ID:" +:+ x +:+ "]" +:+ post)
    with (tag_open "SESSION_ID" +:+ x +:+ "]" +:+ post).
  rewrite bracket_here_intro by assumption. now rewrite Hx.
Qed.

Lemma extract_session_id_first_tag_witness :
  first_tag "SESSION_ID" "[SESSION_ID: abc] [PATH: e1/x] hello"
  = Some " abc"
  /\ ctx_session_id
       (extract_context_from_message "[SESSION_ID: abc] [PATH: e1/x] hello")
     = Some (strip " abc").
Proof.
  split; [reflexivity|].
  apply (extract_session_id_first_tag
           "[SESSION_ID: abc] [PATH: e1/x] hello" " abc").
  reflexivity.
Defined.

(** C10: for each of the three tags [[SESSION_ID:...]], [[PATH:...]] and
    [[BOT_ID:...]], standing where no tag of its name opens before it, in
    any message.  A tag with an empty value is passed over by the
    extraction: the field is what the text after the tag gives, [None]
    when no tag of the name follows.  A tag whose value is white space
    only gives the empty string, not [None].  In both cases the removal
    pass for the name deletes the tag and the white space after it, and
    [clean_message] is the message after the three passes, trimmed; when
    the tag is the only bracket of the message, that is the text around
    the tag. *)
Theorem tag_empty_or_blank (name pre ws post : string) :
  In name tag_names ->
  contains (tag_open name) pre = false ->
  forall_chars is_space ws = true ->
  let message := pre +:+ tag_open name +:+ ws +:+ "]" +:+ post in
  let c := extract_context_from_message message in
  ctx_field name c
  = (if nonempty ws then Some ""
     else ctx_field name (extract_context_from_message post))
  /\ (ws = "" -> no_bracket name post = true -> ctx_field name c = None)
  /\ delete_tags name message
     = pre +:+ delete_tags name (lstrip_by is_space post)
  /\ clean_message c
     = strip (delete_tags "BOT_ID"
                (delete_tags "PATH" (delete_tags "SESSION_ID" message)))
  /\ (has_char "[" pre = false -> has_char "[" post = false ->
      clean_message c = strip (pre +:+ lstrip_by is_space post)).
Proof.
  intros Hin Hpre Hws message c.
  assert (Hopen : has_char "[" ws = false) by (now apply spaces_no_char).
  assert (Hclose : has_char "]" ws = false) by (now apply spaces_no_char).
  assert (Hfield : ctx_field name c
                   = if nonempty ws then Some ""
                     else ctx_field name (extract_context_from_message post)).
  { subst c message. rewrite !ctx_field_first_tag by assumption.
    rewrite first_tag_blank by assumption.
    destruct (nonempty ws); [|reflexivity].
    cbn [option_map]. now rewrite strip_spaces. }
  split; [exact Hfield|]. split; [|split; [|split]].
  - intros -> Hnone. rewrite Hfield. cbn [nonempty].
    rewrite ctx_field_first_tag by assumption.
    now rewrite first_tag_no_bracket.
  - now apply delete_tags_blank.
  - subst c. cbn [extract_context_from_message clean_message].
    unfold strip_tags. now rewrite !sub_delete_tags.
  - intros Hp Hq. subst c message.
    cbn [extract_context_from_message clean_message].
    now rewrite strip_tags_single.
Qed.

Lemma tag_empty_or_blank_witness :
  ctx_bot_id (extract_context_from_message
                "[SESSION_ID: s1] [BOT_ID:   ] [PATH:] hello")
  = Some ""
  /\ ctx_path (extract_context_from_message
                 "[SESSION_ID: s1] [BOT_ID:   ] [PATH:] hello")
     = None.
Proof.
  split.
  - apply (tag_empty_or_blank "BOT_ID" "[SESSION_ID: s1] " "   "
             " [PATH:] hello");
      [simpl; auto | reflexivity | reflexivity].
  - apply (proj1 (proj2 (tag_empty_or_blank
                           "PATH" "[SESSION_ID: s1] [BOT_ID:   ] " ""
                           " hello" ltac:(simpl; auto) eq_refl eq_refl)));
      reflexivity.
Defined.

Lemma is_slash c :
  existsb (Ascii.eqb c) (list_ascii_of_string "/") = Ascii.eqb c "/".
Proof. simpl. apply orb_false_r. Qed.

(** C8: [get_bot_id_from_path] returns the last non-empty piece of the path
    split on '/', and "" when there is none; so for the two sample paths;
    and when the tags give no bot id but a path, the context that
    [get_session_context] stores has the bot id derived from that path. *)
Theorem get_bot_id_from_path_last_segment :
  (forall path,
      get_bot_id_from_path path = last_nonempty (split "/" path))
  /\ get_bot_id_from_path "e1/burneteyecarepinecone/QApixW" = "QApixW"
  /\ get_bot_id_from_path "" = ""
  /\ (forall query p w,
         truthy (ctx_bot_id (extract_context_from_message query)) = false ->
         ctx_path (extract_context_from_message query) = Some p ->
         nonempty p = true ->
         exists c,
           session_context (snd (get_session_context query w)) = Some c
           /\ ctx_bot_id c = Some (get_bot_id_from_path p)).
Proof.
  split; [|split; [reflexivity|split; [reflexivity|]]].
  - intros path. unfold get_bot_id_from_path.
    destruct path as [|c path]; [reflexivity|]. cbn [nonempty].
    unfold strip_chars. apply last_split_strip. apply is_slash.
  - intros query p w Hbot Hpath Hp. destruct w.
    unfold get_session_context. rewrite Hbot, Hpath.
    cbn [truthy negb andb]. rewrite Hp. run.
    eexists. split; reflexivity.
Qed.

Lemma get_bot_id_from_path_last_segment_witness :
  exists c,
    session_context
      (snd (get_session_context "[PATH: e1/x/QApixW] hi"
                                HandlerSpec.fresh_world)) = Some c
    /\ ctx_bot_id c = Some (get_bot_id_from_path "e1/x/QApixW").
Proof.
  apply (proj2 (proj2 (proj2 get_bot_id_from_path_last_segment))
           "[PATH: e1/x/QApixW] hi" "e1/x/QApixW" HandlerSpec.fresh_world);
    reflexivity.
Defined.

End ContextClaims.

(** * URL validation *)

Module UrlClaims.

Import PyStr Re UrlLib Helpers Spec StrFacts ReFacts UrlFacts.

(** The block list is looked for in the whole URL, not in the host: for
    "http://example.com/10.html" the scheme is http, the host "example.com"
    has a dot and matches no block-list entry, and no dangerous scheme is
    in the string, yet [validate_url] rejects it for security reasons,
    because "10." occurs in its path. *)
Lemma path_text_is_blocked :
  let url := "http://example.com/10.html" in
  urlparse (fun _ => None) url = inr (Parsed "http" "example.com")
  /\ blocked_host "example.com" url = false
  /\ dev_exception url = false
  /\ validate_url (fun _ => None) url = security_reject.
Proof. vm_compute. repeat split; reflexivity. Qed.

(** C4, evaluated where it fails.  The claim has "http://localhost:3001"
    valid, by the development exception; the code answers "Invalid domain
    format", for port 5174 as well: the test for a dot in the netloc comes
    before the loop that holds the exception, and no URL whose netloc has
    no dot gets past it, so the exception never lets a bare localhost
    through.  Where the exception does apply it is read off the whole text:
    "http://192.168.1.5/localhost3001" names a private host and is valid. *)
Theorem localhost_dev_url_rejected (check : string -> option string) :
  dev_exception "http://localhost:3001" = true
  /\ validate_url check "http://localhost:3001"
     = MkValidation false "Invalid domain format"
  /\ validate_url check "http://localhost:5174"
     = MkValidation false "Invalid domain format"
  /\ (forall url parsed,
         urlparse check url = inr parsed ->
         has_char "." (netloc parsed) = false ->
         valid (validate_url check url) = false)
  /\ urlparse check "http://192.168.1.5/localhost3001"
     = inr (Parsed "http" "192.168.1.5")
  /\ validate_url check "http://192.168.1.5/localhost3001"
     = MkValidation true "URL is valid".
Proof.
  split; [reflexivity|]. split; [reflexivity|]. split; [reflexivity|].
  split; [|split; reflexivity].
  intros url parsed Hparse Hdot. unfold validate_url.
  destruct (negb (nonempty url)); [reflexivity|]. rewrite Hparse.
  destruct (negb (_ || _)); [reflexivity|].
  destruct (negb (nonempty (netloc parsed))); [reflexivity|].
  rewrite Hdot. cbn [negb]. rewrite orb_true_r. reflexivity.
Qed.

Lemma localhost_dev_url_rejected_witness :
  valid (validate_url (fun _ => None) "https://localhost:5174/app?x=3001")
  = false.
Proof.
  apply (proj1 (proj2 (proj2 (proj2 (localhost_dev_url_rejected
                                       (fun _ => None)))))
           "https://localhost:5174/app?x=3001"
           (Parsed "https" "localhost:5174"));
    reflexivity.
Defined.

End UrlClaims.

(** * The session logger registry *)

Module LoggerClaims.

Import PyStr Py Helpers Env LoggingConfig Server Spec HandlerSpec HandlerFacts.

Lemma key_of (project : string) (sid : option string) :
  project +:+ "_"
  +:+ (if negb (truthy sid) then "NO_SESSION" else fmt sid)
  = logger_key project sid.
Proof. unfold logger_key. now destruct (truthy sid). Qed.

(** C7: [get_session_logger] is idempotent per key.  The key is
    "{project_name}_{session_id}" with a falsy session id replaced by
    'NO_SESSION'.  A call whose key is cached returns the cached logger and
    changes nothing; hence after a call that returned a logger, a second
    call for the same project and session returns that same logger, with
    the registry, and so the file the logger writes to, unchanged; and a
    falsy session id is the same request as 'NO_SESSION'. *)
Theorem get_session_logger_idempotent
        (project : string) (sid : option string) (level : Level) (w : World) :
  (forall logger,
      session_loggers w !! logger_key project sid = Some logger ->
      get_session_logger project sid level w = (Returns logger, w))
  /\ (forall logger w1,
         get_session_logger project sid level w = (Returns logger, w1) ->
         forall level',
           get_session_logger project sid level' w1 = (Returns logger, w1))
  /\ (truthy sid = false ->
      get_session_logger project sid level w
      = get_session_logger project (Some "NO_SESSION") level w).
Proof.
  assert (Hhit : forall lv w0 logger,
             session_loggers w0 !! logger_key project sid = Some logger ->
             get_session_logger project sid lv w0 = (Returns logger, w0)).
  { intros lv w0 logger Hc. destruct w0.
    unfold get_session_logger. rewrite key_of. run.
    cbn [session_loggers] in Hc. now rewrite Hc. }
  split; [apply Hhit|]. split.
  - intros logger w1 Hcall level'. apply Hhit.
    destruct w as [sl lg sc rec con fs td now sr].
    unfold get_session_logger, _create_session_logger, reset_logger,
      addHandler, next_fs in Hcall.
    rewrite key_of in Hcall. run_in Hcall.
    destruct (sl !! logger_key project sid) as [cached|] eqn:Hc.
    + inversion Hcall; subst. exact Hc.
    + destruct (has_nul project); run_in Hcall; [discriminate Hcall|].
      destruct fs as [|[| |] rest]; run_in Hcall;
        repeat match type of Hcall with
               | context [if has_nul ?x then _ else _] =>
                   destruct (has_nul x); run_in Hcall
               | context [match ?m !! ?k with _ => _ end] =>
                   destruct (m !! k); run_in Hcall
               end;
        inversion Hcall; subst; cbn [session_loggers];
        apply lookup_insert_eq.
  - intros Hf. unfold get_session_logger. rewrite Hf. reflexivity.
Qed.

(** The logger that a first call for a project and a session makes, when
    the file system works: it is named "{project}.{session}", does not
    propagate, and writes to the session's file of the day and to the
    console. *)
Lemma get_session_logger_fresh (project sid : string) (w : World) :
  has_nul project = false -> has_nul sid = false ->
  nonempty sid = true ->
  session_loggers w !! logger_key project (Some sid) = None ->
  fs_script w = [] ->
  exists w1,
    get_session_logger project (Some sid) INFO w
    = (Returns (project +:+ "." +:+ sid), w1)
    /\ loggers w1 !! (project +:+ "." +:+ sid)
       = Some (MkLogger INFO false
                 [FileHandler
                    [base_log_dir; project;
                     today w +:+ "_SESSION-" +:+ sid +:+ ".log"] INFO;
                  StreamHandler INFO]).
Proof.
  intros Hp Hs Hsid Hmiss Hfs. destruct w as [sl lg sc rec con fs td now sr].
  cbn [session_loggers fs_script today] in *. subst fs.
  unfold get_session_logger, _create_session_logger, reset_logger,
    addHandler, next_fs.
  rewrite key_of. run. rewrite Hmiss. unfold truthy. rewrite Hsid. run.
  cbn [fmt]. rewrite Hp. run. rewrite Hs. run.
  rewrite !lookup_insert_eq. run.
  eexists. split; [reflexivity|]. cbn [loggers].
  rewrite lookup_insert_eq. reflexivity.
Qed.

Lemma get_session_logger_idempotent_witness :
  let w1 := snd (get_session_logger "MCP Server" (Some "s1") INFO
                                    fresh_world) in
  get_session_logger "MCP Server" (Some "s1") INFO w1
  = (Returns "MCP Server.s1", w1).
Proof.
  apply (proj1 (proj2 (get_session_logger_idempotent
                         "MCP Server" (Some "s1") INFO fresh_world))
           "MCP Server.s1").
  vm_compute. reflexivity.
Defined.

End LoggerClaims.

(** * The tool handlers *)

Module HandlerClaims.

Import PyStr Py Helpers Env LoggingConfig Server Spec HandlerSpec HandlerFacts.

(** The reply of a cancel or reschedule call. *)
Lemma form_tool_run title name url ok bad q sid p b w :
  fst (call (MkLocals q sid p b)
            (try_except (form_body title url ok) (form_except name bad)) w)
  = Returns (JsonReply (form_tool_reply url ok bad q sid w)).
Proof.
  pose proof (form_body_run title url ok q sid p b w) as Hrun.
  unfold form_tool_reply, with_fallback. cbv zeta in Hrun.
  destruct (get_session_logger "MCP Server" _ INFO w) as [[lgr|e] w1].
  - destruct Hrun as (l' & w' & Hrun).
    unfold call, try_except. now rewrite Hrun.
  - unfold call, try_except. rewrite Hrun. unfold form_except.
    destruct (failure_after_log name
                (fun _ => ["❌ Error in " +:+ name +:+ ": " +:+ str_exn e])
                bad e
                (MkLocals q (if truthy sid then sid
                             else Some "fallback-session-id") p b) w1)
      as [w' Hw].
    now rewrite Hw.
Qed.

(** The reply of a booking call. *)
Lemma book_tool_run F1 F2 q sid b w :
  fst (book_appointment_tool F1 F2 q sid b w)
  = Returns (JsonReply (book_tool_reply F1 F2 q sid b w)).
Proof.
  unfold book_appointment_tool, book_tool_reply, with_fallback.
  destruct (has_tags q) eqn:Ht.
  - destruct (book_body_tags F1 F2 q sid None b w Ht) as [w1 Hb].
    unfold call, try_except. rewrite Hb. unfold book_except.
    destruct (failure_after_log "book_appointment_tool"
                (fun _ => ["❌ Error in book_appointment_tool: "
                           +:+ str_exn (NameError "logger")])
                "Sorry, I couldn't open the booking form at this moment."
                (NameError "logger") (MkLocals q sid None b) w1)
      as [w' Hw].
    now rewrite Hw.
  - pose proof (book_body_plain F1 F2 q sid None b w Ht) as Hrun.
    cbv zeta in Hrun.
    destruct (get_session_logger "MCP Server" _ INFO w) as [[lgr|e] w1].
    + destruct Hrun as (l' & w' & Hrun).
      unfold call, try_except. now rewrite Hrun.
    + unfold call, try_except. rewrite Hrun. unfold book_except.
      destruct (failure_after_log "book_appointment_tool"
                  (fun _ => ["❌ Error in book_appointment_tool: "
                             +:+ str_exn e])
                  "Sorry, I couldn't open the booking form at this moment."
                  e
                  (MkLocals q (if truthy sid then sid
                               else Some "fallback-session-id") None b) w1)
        as [w' Hw].
      now rewrite Hw.
Qed.

Lemma rag_except_run e l w :
  exists w',
    rag_except e (l, w)
    = (Returns (PlainText ("Error retrieving context from Pinecone: "
                           +:+ str_exn e)), (l, w')).
Proof.
  unfold rag_except.
  match goal with
  | |- context [emergency_log ?n ?lines e] =>
      destruct (emergency_log_total n lines e l w) as [w' Hw]
  end.
  exists w'. unfold mbind, M_bind, bind. now rewrite Hw.
Qed.

(** The session id of a cancel or reschedule reply is never empty. *)
Lemma form_tool_session_id url ok bad q sid w :
  truthy (reply_session_id (form_tool_reply url ok bad q sid w)) = true.
Proof.
  unfold form_tool_reply, with_fallback.
  destruct (fst (get_session_logger _ _ _ w)); cbn [reply_session_id].
  - destruct (has_tags q); [apply py_or_truthy|]; apply fallback_truthy.
  - apply fallback_truthy.
Qed.

(** C1, evaluated where it fails: a booking call whose query carries a
    session tag and whose [session_id] parameter is [None] answers with the
    failure reply, and the session id of that reply is [None] (JSON null),
    whatever the state of the process.  The [except] block reads the
    parameter as it was passed: the fallback was not applied yet, and the
    ['unknown'] default is never taken because a parameter is always in
    [locals()]. *)
Theorem book_reply_session_id_null (FORM_URL_1 FORM_URL_2 : string) (w : World) :
  fst (book_appointment_tool FORM_URL_1 FORM_URL_2
                             "[SESSION_ID: abc] hello" None None w)
  = Returns
      (JsonReply
         (MkReply "Sorry, I couldn't open the booking form at this moment."
                  None false None)).
Proof. rewrite book_tool_run. reflexivity. Qed.

(** C2: [get_session_context] raises [NameError] for the name [logger] on
    every call; so a booking or retrieval call whose query holds one of the
    three markers ends in its [except] block and returns the failure
    answer. *)
Theorem tagged_query_fails :
  (forall query w,
      exists w',
        get_session_context query w = (Raises (NameError "logger"), w'))
  /\ (forall FORM_URL_1 FORM_URL_2 query sid bot_id w,
         contains "[SESSION_ID:" query = true
         \/ contains "[PATH:" query = true
         \/ contains "[BOT_ID:" query = true ->
         fst (book_appointment_tool FORM_URL_1 FORM_URL_2 query sid bot_id w)
         = Returns
             (JsonReply
                (MkReply
                   "Sorry, I couldn't open the booking form at this moment."
                   None false sid)))
  /\ (forall query sid path bot_id w,
         contains "[SESSION_ID:" query = true
         \/ contains "[PATH:" query = true
         \/ contains "[BOT_ID:" query = true ->
         fst (rag_retrieval_tool query sid path bot_id w)
         = Returns
             (PlainText
                "Error retrieving context from Pinecone: name 'logger' is not defined")).
Proof.
  split; [apply get_session_context_raises|]. split.
  - intros F1 F2 query sid bot_id w Hm. apply has_tags_of_marker in Hm.
    rewrite book_tool_run. unfold book_tool_reply. now rewrite Hm.
  - intros query sid path bot_id w Hm. apply has_tags_of_marker in Hm.
    unfold rag_retrieval_tool, call, try_except.
    destruct (rag_body_tags query sid path bot_id w Hm) as [w1 ->].
    destruct (rag_except_run (NameError "logger")
                (MkLocals query sid path bot_id) w1) as [w' ->].
    reflexivity.
Qed.

Lemma tagged_query_fails_witness :
  fst (rag_retrieval_tool "[BOT_ID: fp01] opening hours?" (Some "s1")
                          None None fresh_world)
  = Returns
      (PlainText
         "Error retrieving context from Pinecone: name 'logger' is not defined").
Proof.
  apply (proj2 (proj2 tagged_query_fails)).
  right; right; reflexivity.
Defined.

Lemma guarded_raises {A} (body : M frame A) (handler : exn -> M frame A)
      args w e l1 w1 r :
  body (args, w) = (Raises e, (l1, w1)) ->
  (exists w', handler e (l1, w1) = (Returns r, (l1, w'))) ->
  fst (call args (try_except body handler) w) = Returns r.
Proof.
  intros Hb [w' Hh]. unfold call, try_except. now rewrite Hb, Hh.
Qed.

Lemma appointment_except_total name text e l w :
  exists r l' w', form_except name text e (l, w) = (Returns r, (l', w')).
Proof.
  unfold form_except.
  destruct (failure_after_log name
              (fun _ => ["❌ Error in " +:+ name +:+ ": " +:+ str_exn e])
              text e l w) as [w' Hw].
  eauto.
Qed.

(** C3, as stated, fails for the retrieval handler: when the index cannot
    be reached, the body of [rag_retrieval_tool] raises, and the handler
    returns a plain string, not a reply object with [success] false and a
    session id. *)
Lemma rag_exception_is_plain_text :
  fst (rag_body (MkLocals "opening hours?" None None None,
                 unreachable_index_world))
  = Raises (ServiceError "timeout")
  /\ fst (rag_retrieval_tool "opening hours?" None None None
                             unreachable_index_world)
     = Returns (PlainText "Error retrieving context from Pinecone: timeout")
  /\ is_failure_reply
       (PlainText "Error retrieving context from Pinecone: timeout") = false.
Proof. vm_compute. repeat split; reflexivity. Qed.

Lemma form_tool_raises title name url ok bad q sid p b w e l1 w1 :
  form_body title url ok (MkLocals q sid p b, w) = (Raises e, (l1, w1)) ->
  fst (call (MkLocals q sid p b)
            (try_except (form_body title url ok) (form_except name bad)) w)
  = Returns (JsonReply (MkReply bad None false (with_fallback sid))).
Proof.
  intros Hb. rewrite form_tool_run. unfold form_tool_reply.
  pose proof (form_body_run title url ok q sid p b w) as Hrun.
  cbv zeta in Hrun. fold (with_fallback sid) in Hrun.
  destruct (get_session_logger "MCP Server" (with_fallback sid) INFO w)
    as [[lgr|e'] w2]; [|reflexivity].
  destruct Hrun as (l' & w' & Hrun). congruence.
Qed.

Lemma book_tool_raises F1 F2 q sid b w e l1 w1 :
  truthy sid = true \/ has_tags q = false ->
  book_body F1 F2 (MkLocals q sid None b, w) = (Raises e, (l1, w1)) ->
  fst (book_appointment_tool F1 F2 q sid b w)
  = Returns
      (JsonReply
         (MkReply "Sorry, I couldn't open the booking form at this moment."
                  None false (with_fallback sid))).
Proof.
  intros Hcase Hb. rewrite book_tool_run. unfold book_tool_reply.
  destruct (has_tags q) eqn:Ht.
  - destruct Hcase as [Hs | Hn]; [|discriminate].
    unfold with_fallback. now rewrite Hs.
  - pose proof (book_body_plain F1 F2 q sid None b w Ht) as Hrun.
    cbv zeta in Hrun. fold (with_fallback sid) in Hrun.
    destruct (get_session_logger "MCP Server" (with_fallback sid) INFO w)
      as [[lgr|e'] w2]; [|reflexivity].
    destruct Hrun as (l' & w' & Hrun). congruence.
Qed.

(** C3, amended: each of the four handlers returns, whatever its input and
    the state of the process.  When the body of the cancel or the
    reschedule handler raises, the handler returns its apology with
    [success] false and the [session_id] parameter or, when that is empty,
    the fallback constant: a session id that is never empty.  So does the
    booking handler when its [session_id] parameter is not empty or its
    query holds no tag.  When the body of [rag_retrieval_tool] raises, the
    handler returns the plain string "Error retrieving context from
    Pinecone: " followed by the text of the exception. *)
Theorem handlers_return_normally :
  (forall F1 F2 q sid b w,
      exists r w', book_appointment_tool F1 F2 q sid b w = (Returns r, w'))
  /\ (forall url q sid p b w,
         exists r w',
           cancel_appointment_tool url q sid p b w = (Returns r, w'))
  /\ (forall url q sid p b w,
         exists r w',
           reschedule_appointment_tool url q sid p b w = (Returns r, w'))
  /\ (forall q sid p b w,
         exists r w', rag_retrieval_tool q sid p b w = (Returns r, w'))
  /\ (forall F1 F2 q sid b w e l1 w1,
         truthy sid = true \/ has_tags q = false ->
         book_body F1 F2 (MkLocals q sid None b, w) = (Raises e, (l1, w1)) ->
         fst (book_appointment_tool F1 F2 q sid b w)
         = Returns
             (JsonReply
                (MkReply
                   "Sorry, I couldn't open the booking form at this moment."
                   None false (with_fallback sid))))
  /\ (forall url q sid p b w e l1 w1,
         form_body "CANCEL APPOINTMENT TOOL CALLED" url
           "I'm opening the appointment cancellation form for you. Please fill it out to cancel your appointment."
           (MkLocals q sid p b, w) = (Raises e, (l1, w1)) ->
         fst (cancel_appointment_tool url q sid p b w)
         = Returns
             (JsonReply
                (MkReply
                   "Sorry, I couldn't open the appointment cancellation form at this moment."
                   None false (with_fallback sid))))
  /\ (forall url q sid p b w e l1 w1,
         form_body "RESCHEDULE APPOINTMENT TOOL CALLED" url
           "I'm opening the appointment rescheduling form for you. Please fill it out to reschedule your appointment."
           (MkLocals q sid p b, w) = (Raises e, (l1, w1)) ->
         fst (reschedule_appointment_tool url q sid p b w)
         = Returns
             (JsonReply
                (MkReply
                   "Sorry, I couldn't open the appointment rescheduling form at this moment."
                   None false (with_fallback sid))))
  /\ (forall sid, truthy (with_fallback sid) = true)
  /\ (forall q sid p b w e l1 w1,
         rag_body (MkLocals q sid p b, w) = (Raises e, (l1, w1)) ->
         fst (rag_retrieval_tool q sid p b w)
         = Returns
             (PlainText ("Error retrieving context from Pinecone: "
                         +:+ str_exn e))).
Proof.
  repeat split.
  - intros. apply guarded_total. intros e l w0. unfold book_except.
    destruct (failure_after_log "book_appointment_tool"
                (fun _ => ["❌ Error in book_appointment_tool: "
                           +:+ str_exn e])
                "Sorry, I couldn't open the booking form at this moment."
                e l w0) as [w' Hw].
    eauto.
  - intros. apply guarded_total. intros. apply appointment_except_total.
  - intros. apply guarded_total. intros. apply appointment_except_total.
  - intros. apply guarded_total. intros e l w0.
    destruct (rag_except_run e l w0) as [w' Hw]. eauto.
  - intros F1 F2 q sid b w e l1 w1 Hcase Hb.
    exact (book_tool_raises F1 F2 q sid b w e l1 w1 Hcase Hb).
  - intros url q sid p b w e l1 w1 Hb.
    exact (form_tool_raises _ _ _ _ _ _ _ _ _ _ _ _ _ Hb).
  - intros url q sid p b w e l1 w1 Hb.
    exact (form_tool_raises _ _ _ _ _ _ _ _ _ _ _ _ _ Hb).
  - intros sid. apply fallback_truthy.
  - intros q sid p b w e l1 w1 Hb.
    apply (guarded_raises _ _ _ _ _ _ _ _ Hb). apply rag_except_run.
Qed.

Lemma handlers_return_normally_witness :
  fst (book_appointment_tool "https://forms.example/a" "https://forms.example/b"
                             "[PATH: e1/x] book me" (Some "s1") None
                             fresh_world)
  = Returns
      (JsonReply
         (MkReply "Sorry, I couldn't open the booking form at this moment."
                  None false (Some "s1"))).
Proof.
  apply (proj1 (proj2 (proj2 (proj2 (proj2 handlers_return_normally))))
           "https://forms.example/a" "https://forms.example/b"
           "[PATH: e1/x] book me" (Some "s1") None fresh_world
           (NameError "logger")
           (MkLocals "[PATH: e1/x] book me" (Some "s1") None None)
           (snd (snd (book_body "https://forms.example/a"
                                "https://forms.example/b"
                                (MkLocals "[PATH: e1/x] book me" (Some "s1")
                                          None None, fresh_world))))).
  - left. reflexivity.
  - vm_compute. reflexivity.
Defined.

Lemma opt_eqb_true b s : opt_eqb b s = true <-> b = Some s.
Proof.
  destruct b as [x|]; simpl; [|split; discriminate].
  rewrite String.eqb_eq. split; congruence.
Qed.

(** C6: when a booking call answers with [success] true, its query held no
    tag (so the bot id is the parameter), and the form URL is the second
    configured URL when [bot_id] is "fp01" and the first one for any other
    [bot_id], [None] included, followed by '?' (or '&' when the URL has a
    '?'), [session_id=] with the reply's session id, and [&ts=] with the
    clock in milliseconds. *)
Theorem book_form_url_by_bot_id
        (FORM_URL_1 FORM_URL_2 query : string) (sid bot_id : option string)
        (w w' : World) (r : Reply) :
  book_appointment_tool FORM_URL_1 FORM_URL_2 query sid bot_id w
  = (Returns (JsonReply r), w') ->
  reply_success r = true ->
  has_tags query = false
  /\ truthy (reply_session_id r) = true
  /\ (bot_id = Some "fp01" ->
      reply_form_url r
      = Some (FORM_URL_2
              +:+ (if contains "?" FORM_URL_2 then "&" else "?")
              +:+ "session_id=" +:+ fmt (reply_session_id r)
              +:+ "&ts=" +:+ str_of_N (now_ms w)))
  /\ (bot_id <> Some "fp01" ->
      reply_form_url r
      = Some (FORM_URL_1
              +:+ (if contains "?" FORM_URL_1 then "&" else "?")
              +:+ "session_id=" +:+ fmt (reply_session_id r)
              +:+ "&ts=" +:+ str_of_N (now_ms w))).
Proof.
  intros Hcall Hok.
  pose proof (book_tool_run FORM_URL_1 FORM_URL_2 query sid bot_id w) as Hrun.
  assert (Hr : r = book_tool_reply FORM_URL_1 FORM_URL_2 query sid bot_id w)
    by (rewrite Hcall in Hrun; cbn [fst] in Hrun; congruence).
  clear Hrun Hcall. subst r. unfold book_tool_reply, with_fallback in *.
  destruct (has_tags query); [discriminate Hok|].
  destruct (fst (get_session_logger _ _ _ w)); [|discriminate Hok].
  cbn [reply_session_id reply_form_url].
  split; [reflexivity|]. split; [apply fallback_truthy|]. split.
  - intros Hb. apply opt_eqb_true in Hb. now rewrite Hb.
  - intros Hb. destruct (opt_eqb bot_id "fp01") eqn:He; [|reflexivity].
    apply opt_eqb_true in He. contradiction.
Qed.

Lemma book_form_url_by_bot_id_witness :
  reply_form_url
    (book_tool_reply "https://forms.example/a" "https://forms.example/b?x=1"
                     "book me" None (Some "fp01") fresh_world)
  = Some "https://forms.example/b?x=1&session_id=fallback-session-id&ts=1767225600000".
Proof.
  destruct (book_form_url_by_bot_id
              "https://forms.example/a" "https://forms.example/b?x=1"
              "book me" None (Some "fp01") fresh_world
              (snd (book_appointment_tool
                      "https://forms.example/a" "https://forms.example/b?x=1"
                      "book me" None (Some "fp01") fresh_world))
              (book_tool_reply "https://forms.example/a"
                               "https://forms.example/b?x=1"
                               "book me" None (Some "fp01") fresh_world))
    as (_ & _ & H & _); [vm_compute; reflexivity | reflexivity |].
  exact (H eq_refl).
Defined.

(** C9: the answer of [cancel_appointment_tool] and of
    [reschedule_appointment_tool] does not depend on the parameters [path]
    and [bot_id]: two calls with the same query, session id and world
    return the same reply, whatever these two parameters are. *)
Theorem appointment_reply_ignores_path_and_bot_id
        (url query : string) (sid path1 bot1 path2 bot2 : option string)
        (w : World) :
  fst (cancel_appointment_tool url query sid path1 bot1 w)
  = fst (cancel_appointment_tool url query sid path2 bot2 w)
  /\ fst (reschedule_appointment_tool url query sid path1 bot1 w)
     = fst (reschedule_appointment_tool url query sid path2 bot2 w).
Proof.
  unfold cancel_appointment_tool, reschedule_appointment_tool.
  now rewrite !form_tool_run.
Qed.

End HandlerClaims.

(** * Further properties of the context extractor *)

Module ContextExtras.

Import PyStr Re UrlLib Helpers Py Env LoggingConfig Server Spec.
Import StrFacts ReFacts TagFacts SplitFacts OneTag.

Lemma prefix_app l r : String.prefix l (l +:+ r) = true.
Proof.
  induction l as [|c l IH]; simpl; [now destruct r|].
  destruct (ascii_dec c c); [exact IH | contradiction].
Qed.

Lemma bracket_here_contains name s vr :
  bracket_here name s = Some vr -> contains (tag_open name) s = true.
Proof.
  destruct vr as [v rest]. intros H. apply bracket_here_inv in H as [-> _].
  destruct (tag_open name +:+ v +:+ "]" +:+ rest) eqn:E;
    cbn [contains]; rewrite <- E, prefix_app; reflexivity.
Qed.

Lemma no_marker_no_bracket name s :
  contains (tag_open name) s = false -> no_bracket name s = true.
Proof.
  induction s as [|c s IH]; intros H.
  - cbn [no_bracket]. destruct (bracket_here name "") eqn:Hb; [|reflexivity].
    apply bracket_here_contains in Hb. congruence.
  - cbn [no_bracket]. destruct (bracket_here name (String c s)) eqn:Hb.
    + apply bracket_here_contains in Hb. congruence.
    + apply IH. cbn [contains] in H. now apply orb_false_iff in H.
Qed.

(** X1. When the test that guards the extractor in the handlers is false
    (the query is empty or holds none of the three markers), the extractor
    finds no field and [clean_message] is the trimmed query. *)
Theorem extract_without_markers (query : string) :
  has_tags query = false ->
  extract_context_from_message query
  = MkContext None None None (strip query).
Proof.
  unfold has_tags. intros H.
  destruct query as [|c q]; [reflexivity|]. cbn [nonempty andb] in H.
  apply orb_false_iff in H as [H Hb]. apply orb_false_iff in H as [Hs Hp].
  apply (no_marker_no_bracket "SESSION_ID") in Hs.
  apply (no_marker_no_bracket "PATH") in Hp.
  apply (no_marker_no_bracket "BOT_ID") in Hb.
  unfold extract_context_from_message, strip_tags.
  rewrite !tag_value_first_tag, !sub_delete_tags.
  rewrite !first_tag_no_bracket by assumption.
  rewrite (delete_tags_no_bracket "SESSION_ID") by assumption.
  rewrite (delete_tags_no_bracket "PATH") by assumption.
  now rewrite (delete_tags_no_bracket "BOT_ID") by assumption.
Qed.

Lemma extract_without_markers_witness :
  extract_context_from_message "  when are you open? [later] "
  = MkContext None None None "when are you open? [later]".
Proof.
  apply (extract_without_markers "  when are you open? [later] ").
  reflexivity.
Defined.

Lemma lstrip_head p s :
  lstrip_by p s = "" \/ exists c t, lstrip_by p s = String c t /\ p c = false.
Proof.
  induction s as [|c s IH]; simpl; [now left|].
  destruct (p c) eqn:Hc; [exact IH|]. right. now exists c, s.
Qed.

Lemma rstrip_idem p s : rstrip_by p (rstrip_by p s) = rstrip_by p s.
Proof.
  induction s as [|c s IH]; [reflexivity|]. cbn [rstrip_by].
  destruct (rstrip_by p s) as [|b r] eqn:Hr.
  - destruct (p c) eqn:Hc; [reflexivity|]. cbn [rstrip_by]. now rewrite Hc.
  - cbn [rstrip_by] in *. now rewrite IH.
Qed.

Lemma rstrip_keeps_head p c t :
  p c = false -> exists t', rstrip_by p (String c t) = String c t'.
Proof.
  intros Hc. cbn [rstrip_by]. destruct (rstrip_by p t); rewrite ?Hc; eauto.
Qed.

Lemma lstrip_strip p s : lstrip_by p (strip_by p s) = strip_by p s.
Proof.
  unfold strip_by. destruct (lstrip_head p s) as [-> | (c & t & -> & Hc)];
    [reflexivity|].
  destruct (rstrip_keeps_head p c t Hc) as [t' ->]. simpl. now rewrite Hc.
Qed.

Lemma rstrip_strip p s : rstrip_by p (strip_by p s) = strip_by p s.
Proof. apply rstrip_idem. Qed.

Lemma strip_idem p s : strip_by p (strip_by p s) = strip_by p s.
Proof. unfold strip_by at 1. now rewrite lstrip_strip, rstrip_strip. Qed.

(** X2. [clean_message] never starts or ends with white space, whatever
    the message. *)
Theorem clean_message_trimmed (message : string) :
  let clean := clean_message (extract_context_from_message message) in
  lstrip_by is_space clean = clean /\ rstrip_by is_space clean = clean.
Proof.
  cbn [extract_context_from_message clean_message]. unfold strip.
  split; [apply lstrip_strip | apply rstrip_strip].
Qed.

Lemma rstrip_no_char c p s :
  has_char c s = false -> has_char c (rstrip_by p s) = false.
Proof.
  induction s as [|a s IH]; [reflexivity|]. cbn [has_char rstrip_by].
  intros H. apply orb_false_iff in H as [Ha Hs]. specialize (IH Hs).
  destruct (rstrip_by p s).
  - destruct (p a); [reflexivity|]. cbn [has_char]. now rewrite Ha.
  - cbn [has_char] in *. now rewrite Ha, IH.
Qed.

Lemma first_tag_no_close name s x :
  first_tag name s = Some x -> has_char "]" x = false.
Proof.
  intros H. apply first_tag_spec in H as (pre & post & _ & H & _).
  now apply tag_here_spec in H as (_ & H & _).
Qed.

Lemma tag_value_trimmed name message v :
  tag_value name message = Some v ->
  strip v = v /\ has_char "]" v = false.
Proof.
  rewrite tag_value_first_tag.
  destruct (first_tag name message) as [x|] eqn:Hx; [|discriminate].
  cbn [option_map]. intros H; inversion H; subst v. split.
  - apply strip_idem.
  - unfold strip, strip_by. apply rstrip_no_char, lstrip_no_char.
    now apply first_tag_no_close in Hx.
Qed.

(** X3. A field that the extractor returns is trimmed and holds no closing
    bracket, be it the session id, the path or the bot id. *)
Theorem extracted_fields_trimmed (message v : string) :
  ctx_session_id (extract_context_from_message message) = Some v
  \/ ctx_path (extract_context_from_message message) = Some v
  \/ ctx_bot_id (extract_context_from_message message) = Some v ->
  strip v = v /\ has_char "]" v = false.
Proof.
  cbn [extract_context_from_message ctx_session_id ctx_path ctx_bot_id].
  intros [H | [H | H]]; now apply tag_value_trimmed in H.
Qed.

Lemma extracted_fields_trimmed_witness :
  strip "e1/shop/QApixW" = "e1/shop/QApixW"
  /\ has_char "]" "e1/shop/QApixW" = false.
Proof.
  apply (extracted_fields_trimmed
           "[SESSION_ID: s1][PATH:   e1/shop/QApixW  ] hello").
  right; left; reflexivity.
Defined.

Section Slash.
Variable sep : ascii.

Lemma split_no_sep s x : In x (split sep s) -> has_char sep x = false.
Proof.
  revert x. induction s as [|c s IH]; intros x.
  - simpl. intros [<- | []]. reflexivity.
  - rewrite split_unfold. destruct (Ascii.eqb c sep) eqn:Hc.
    + intros [<- | H]; [reflexivity | now apply IH].
    + destruct (split_cons sep c s) as (hd0 & tl0 & _).
      destruct (split sep s) as [|hd tl] eqn:Hs.
      * intros [<- | []]. simpl. now rewrite Hc.
      * intros [<- | H].
        -- simpl. rewrite Hc. apply IH. now left.
        -- apply IH. now right.
Qed.

Lemma split_whole s : has_char sep s = false -> split sep s = [s].
Proof.
  induction s as [|c s IH]; [reflexivity|]. simpl. intros H.
  apply orb_false_iff in H as [Hc Hs]. now rewrite Hc, IH.
Qed.

Lemma last_in (l : list string) :
  l <> [] -> In (List.last l EmptyString) l.
Proof.
  induction l as [|x l IH]; [congruence|]. intros _.
  destruct l as [|y l]; [now left|].
  right. apply IH. discriminate.
Qed.
End Slash.

Lemma lstrip_none p s :
  (forall c, p c = true -> has_char c s = false) -> lstrip_by p s = s.
Proof.
  destruct s as [|a s]; [reflexivity|]. simpl. intros H.
  destruct (p a) eqn:Ha; [|reflexivity].
  specialize (H a Ha). simpl in H. now rewrite Ascii.eqb_refl in H.
Qed.

Lemma rstrip_none p s :
  (forall c, p c = true -> has_char c s = false) -> rstrip_by p s = s.
Proof.
  induction s as [|a s IH]; [reflexivity|]. intros H. cbn [rstrip_by].
  assert (Ha : p a = false).
  { destruct (p a) eqn:Ha; [|reflexivity].
    specialize (H a Ha). simpl in H. now rewrite Ascii.eqb_refl in H. }
  rewrite IH.
  - destruct s; [now rewrite Ha | reflexivity].
  - intros c Hc. specialize (H c Hc). simpl in H.
    now apply orb_false_iff in H.
Qed.

(** X4. The bot id derived from a path never holds a '/', and deriving
    again from the result gives the result. *)
Theorem get_bot_id_from_path_no_slash (path : string) :
  has_char "/" (get_bot_id_from_path path) = false
  /\ get_bot_id_from_path (get_bot_id_from_path path)
     = get_bot_id_from_path path.
Proof.
  assert (Hno : has_char "/" (get_bot_id_from_path path) = false).
  { unfold get_bot_id_from_path. destruct (nonempty path); [|reflexivity].
    apply (split_no_sep "/" (strip_chars "/" path)).
    apply last_in, split_not_nil. }
  split; [exact Hno|].
  destruct (get_bot_id_from_path path) as [|a t] eqn:Er; [reflexivity|].
  set (r := String a t) in *.
  unfold get_bot_id_from_path. cbn [nonempty r].
  assert (Hp : forall c,
             existsb (Ascii.eqb c) (list_ascii_of_string "/") = true ->
             has_char c r = false).
  { intros c Hc. simpl in Hc. rewrite orb_false_r in Hc.
    apply Ascii.eqb_eq in Hc. now subst c. }
  unfold strip_chars, strip_by.
  rewrite (lstrip_none _ r Hp), (rstrip_none _ r Hp).
  now rewrite split_whole.
Qed.

End ContextExtras.

(** * Further properties of the URL functions *)

Module UrlExtras.

Import PyStr Re UrlLib Helpers Spec UrlExtract ExtraSpec.
Import StrFacts ReFacts TagFacts UrlFacts OneTag.

(** X5. What [validate_url] accepts: a URL that parses, with scheme http
    or https, a netloc of at least 3 characters with a dot, and a text that
    either holds none of the blocked patterns or holds "localhost" with
    "3001" or "5174". *)
Theorem validate_url_accepts (check : string -> option string) (url : string) :
  valid (validate_url check url) = true ->
  exists parsed,
    urlparse check url = inr parsed
    /\ (scheme parsed = "http" \/ scheme parsed = "https")
    /\ 3 <= String.length (netloc parsed)
    /\ has_char "." (netloc parsed) = true
    /\ (blocked_text url = false \/ dev_exception url = true).
Proof.
  unfold validate_url.
  destruct (nonempty url); [|discriminate]. cbn [negb].
  destruct (urlparse check url) as [msg|parsed]; [discriminate|].
  destruct (String.eqb (scheme parsed) "http") eqn:H1;
    destruct (String.eqb (scheme parsed) "https") eqn:H2;
    cbn [orb negb]; try discriminate;
    (destruct (nonempty (netloc parsed)); [|discriminate]; cbn [negb];
     destruct (String.length (netloc parsed) <? 3)%nat eqn:Hl;
       [discriminate|];
     destruct (has_char "." (netloc parsed)) eqn:Hd; [|discriminate];
     cbn [orb negb];
     rewrite check_patterns_spec, dangerous_patterns_spec;
     destruct (blocked_text url) eqn:Hb;
       destruct (dev_exception url) eqn:He;
       cbn [andb negb]; try discriminate;
     intros _; exists parsed; apply Nat.ltb_ge in Hl;
     rewrite ?String.eqb_eq in *; repeat split; auto).
Qed.

Lemma validate_url_accepts_witness :
  exists parsed,
    urlparse (fun _ => None) "http://app.localhost:5174/" = inr parsed
    /\ (scheme parsed = "http" \/ scheme parsed = "https")
    /\ 3 <= String.length (netloc parsed)
    /\ has_char "." (netloc parsed) = true
    /\ (blocked_text "http://app.localhost:5174/" = false
        \/ dev_exception "http://app.localhost:5174/" = true).
Proof.
  apply (validate_url_accepts (fun _ => None) "http://app.localhost:5174/").
  reflexivity.
Defined.

(** ** What a match can consume *)

Lemma atom_within_spec P m a :
  atom_within P m = true -> m a = true -> P a = true.
Proof.
  unfold atom_within. rewrite forallb_forall. intros H Hm.
  specialize (H a (in_all_ascii a)). now rewrite Hm in H.
Qed.

Lemma forall_chars_app P a b :
  forall_chars P (a +:+ b) = forall_chars P a && forall_chars P b.
Proof.
  induction a as [|c a IH]; simpl; [reflexivity|].
  now rewrite IH, andb_assoc.
Qed.

Section Sound.
Context {R : Type}.
Variable P : ascii -> bool.

Lemma one_sound m : atom_within P m = true -> sound_step (R := R) P (one m).
Proof.
  intros Hm s gs k x. destruct s as [|a s]; [discriminate|]. simpl.
  destruct (m a) eqn:Ha; [|discriminate]. intros Hk.
  exists (String a ""), s, gs. repeat split; [|exact Hk].
  simpl. now rewrite (atom_within_spec P m a Hm Ha).
Qed.

Lemma star_loop_sound (step : string -> list string -> @cont R -> option R) :
  sound_step P step -> forall fuel, sound_step P (star_loop step fuel).
Proof.
  intros Hstep. induction fuel as [|n IH]; intros s gs k x; simpl.
  - intros Hk. exists "", s, gs. now repeat split.
  - destruct (step s gs _) as [y|] eqn:Hs.
    + intros Hy; inversion Hy; subst y.
      apply Hstep in Hs as (pre1 & s1 & g1 & -> & Hp1 & Hk).
      destruct (String.length s1 <? String.length (pre1 +:+ s1))%nat;
        [|discriminate].
      apply IH in Hk as (pre2 & s2 & g2 & -> & Hp2 & Hk).
      exists (pre1 +:+ pre2), s2, g2. rewrite app_assoc, forall_chars_app.
      now rewrite Hp1, Hp2.
    + intros Hk. exists "", s, gs. now repeat split.
Qed.

Lemma cat_sound (f g : string -> list string -> @cont R -> option R) :
  sound_step P f -> sound_step P g ->
  sound_step P (fun s gs k => f s gs (fun s1 g1 => g s1 g1 k)).
Proof.
  intros Hf Hg s gs k x H.
  apply Hf in H as (pre1 & s1 & g1 & -> & Hp1 & H).
  apply Hg in H as (pre2 & s2 & g2 & -> & Hp2 & H).
  exists (pre1 +:+ pre2), s2, g2. rewrite app_assoc, forall_chars_app.
  now rewrite Hp1, Hp2.
Qed.

Lemma rmatch_sound ic r :
  re_within ic P r = true -> sound_step (R := R) P (rmatch ic r).
Proof.
  induction r as [|c| |c|lo hi|r1 IH1 r2 IH2|r1 IH1 r2 IH2|r1 IH|r1 IH|r1 IH];
    cbn [re_within]; intros Hw.
  - intros s gs k x Hk. exists "", s, gs. now repeat split.
  - now apply one_sound.
  - now apply one_sound.
  - now apply one_sound.
  - now apply one_sound.
  - apply andb_true_iff in Hw as [H1 H2].
    exact (cat_sound _ _ (IH1 H1) (IH2 H2)).
  - apply andb_true_iff in Hw as [H1 H2]. intros s gs k x. cbn [rmatch].
    destruct (rmatch ic r1 s gs k) eqn:E1.
    + intros Hx; inversion Hx; subst. now apply (IH1 H1) in E1.
    + apply (IH2 H2).
  - intros s gs k. cbn [rmatch]. now apply star_loop_sound, IH.
  - intros s gs k x. cbn [rmatch]. intros H.
    apply (IH Hw) in H as (pre1 & s1 & g1 & -> & Hp1 & H).
    apply (star_loop_sound _ (IH Hw)) in H as (pre2 & s2 & g2 & -> & Hp2 & H).
    exists (pre1 +:+ pre2), s2, g2. rewrite app_assoc, forall_chars_app.
    now rewrite Hp1, Hp2.
  - intros s gs k x. cbn [rmatch]. intros H.
    apply (IH Hw) in H as (pre1 & s1 & g1 & -> & Hp1 & H). eauto 6.
Qed.

Lemma umatch_sound ic p :
  up_within ic P p = true -> sound_step (R := R) P (umatch ic p).
Proof.
  induction p as [r|neg sp rs|p1 IH1 p2 IH2|p1 IH1 p2 IH2|p1 IH|p1 IH];
    cbn [up_within]; intros Hw.
  - now apply rmatch_sound.
  - now apply one_sound.
  - apply andb_true_iff in Hw as [H1 H2].
    exact (cat_sound _ _ (IH1 H1) (IH2 H2)).
  - apply andb_true_iff in Hw as [H1 H2]. intros s gs k x. cbn [umatch].
    destruct (umatch ic p1 s gs k) eqn:E1.
    + intros Hx; inversion Hx; subst. now apply (IH1 H1) in E1.
    + apply (IH2 H2).
  - intros s gs k. cbn [umatch]. now apply star_loop_sound, IH.
  - intros s gs k x. cbn [umatch]. intros H.
    apply (IH Hw) in H as (pre1 & s1 & g1 & -> & Hp1 & H).
    apply (star_loop_sound _ (IH Hw)) in H as (pre2 & s2 & g2 & -> & Hp2 & H).
    exists (pre1 +:+ pre2), s2, g2. rewrite app_assoc, forall_chars_app.
    now rewrite Hp1, Hp2.
Qed.
End Sound.


Lemma has_char_suffix c pre s :
  has_char c (pre +:+ s) = false -> has_char c s = false.
Proof. rewrite has_char_app. intros H. now apply orb_false_iff in H. Qed.

Section Needs.
Context {R : Type}.
Variables (ic : bool) (c : ascii).
Hypothesis only_c : forall a, chr_matches ic c a = true -> a = c.

Lemma within_top_re r : re_within ic (fun _ => true) r = true.
Proof.
  assert (Ha : forall m, atom_within (fun _ => true) m = true).
  { intros m. unfold atom_within. apply forallb_forall. intros a _.
    now destruct (m a). }
  induction r; cbn [re_within]; rewrite ?Ha, ?IHr1, ?IHr2; auto.
Qed.

Lemma within_top_up p : up_within ic (fun _ => true) p = true.
Proof.
  induction p; cbn [up_within]; rewrite ?IHp1, ?IHp2; auto.
  - apply within_top_re.
  - unfold atom_within. apply forallb_forall. intros a _.
    now destruct (class_matches _ _ _ _ a).
Qed.

(** A step whose continuation fails on every suffix fails. *)
Lemma sound_step_fails (step : string -> list string -> @cont R -> option R) :
  sound_step (fun _ => true) step ->
  forall s gs k,
    (forall pre s' g, s = pre +:+ s' -> k s' g = None) ->
    step s gs k = None.
Proof.
  intros Hs s gs k Hk. destruct (step s gs k) as [x|] eqn:E; [|reflexivity].
  apply Hs in E as (pre & s' & g' & Heq & _ & Hx).
  rewrite (Hk pre s' g' Heq) in Hx. discriminate.
Qed.

Lemma rmatch_needs r :
  re_needs c r = true ->
  forall s gs (k : @cont R),
    has_char c s = false -> rmatch ic r s gs k = None.
Proof.
  induction r as [|c'| |c'|lo hi|r1 IH1 r2 IH2|r1 IH1 r2 IH2|r1 IH|r1 IH|r1 IH];
    cbn [re_needs]; try discriminate; intros Hn s gs k Hc.
  - apply Ascii.eqb_eq in Hn. subst c'. cbn [rmatch].
    destruct s as [|a s]; [reflexivity|]. simpl.
    destruct (chr_matches ic c a) eqn:Ha; [|reflexivity].
    apply only_c in Ha. subst a. simpl in Hc.
    now rewrite Ascii.eqb_refl in Hc.
  - cbn [rmatch]. apply orb_true_iff in Hn as [Hn | Hn].
    + now apply IH1.
    + apply (sound_step_fails _ (rmatch_sound _ ic r1 (within_top_re r1))).
      intros pre s' g ->. apply IH2; [assumption|].
      now apply has_char_suffix in Hc.
  - cbn [rmatch]. apply andb_true_iff in Hn as [H1 H2].
    now rewrite IH1, IH2.
  - cbn [rmatch]. now apply IH.
  - cbn [rmatch]. now apply IH.
Qed.

Lemma umatch_needs p :
  up_needs c p = true ->
  forall s gs (k : @cont R),
    has_char c s = false -> umatch ic p s gs k = None.
Proof.
  induction p as [r|neg sp rs|p1 IH1 p2 IH2|p1 IH1 p2 IH2|p1 IH|p1 IH];
    cbn [up_needs]; try discriminate; intros Hn s gs k Hc.
  - now apply rmatch_needs.
  - cbn [umatch]. apply orb_true_iff in Hn as [Hn | Hn].
    + now apply IH1.
    + apply (sound_step_fails _ (umatch_sound _ ic p1 (within_top_up p1))).
      intros pre s' g ->. apply IH2; [assumption|].
      now apply has_char_suffix in Hc.
  - cbn [umatch]. apply andb_true_iff in Hn as [H1 H2].
    now rewrite IH1, IH2.
  - cbn [umatch]. now apply IH.
Qed.
End Needs.

Lemma caseless_spec c :
  caseless c = true -> forall a, chr_matches true c a = true -> a = c.
Proof.
  intros H a Ha. apply (atom_within_spec _ _ a H) in Ha.
  now apply Ascii.eqb_eq in Ha.
Qed.

(** A pattern that needs a character finds nothing in a text without it. *)
Lemma first_found_needs c p s :
  caseless c = true -> up_needs c p = true -> has_char c s = false ->
  first_found true p s = None.
Proof.
  intros Hc Hn. induction s as [|a s IH]; intros Hs;
    cbn [first_found]; unfold umatch_here;
    rewrite (umatch_needs true c (caseless_spec c Hc) p Hn) by assumption.
  - reflexivity.
  - apply IH. simpl in Hs. now apply orb_false_iff in Hs.
Qed.

Lemma delete_tags_from_no_char c name s : forall skip,
  has_char c s = false -> has_char c (delete_tags_from name skip s) = false.
Proof.
  induction s as [|a s IH]; intros skip H; [reflexivity|].
  simpl in H. apply orb_false_iff in H as [Ha Hs].
  cbn [delete_tags_from]. destruct skip; [|now apply IH].
  destruct (bracket_here name (String a s)) as [[v rest]|]; [now apply IH|].
  cbn [has_char]. rewrite Ha. now apply IH.
Qed.

Lemma cleaned_no_char c message :
  has_char c message = false ->
  has_char c
    (strip (sub false (tag_strip_re "BOT_ID") ""
              (sub false (tag_strip_re "PATH") ""
                 (sub false (tag_strip_re "SESSION_ID") "" message))))
  = false.
Proof.
  intros H. rewrite !sub_delete_tags. unfold strip, strip_by.
  apply ContextExtras.rstrip_no_char, lstrip_no_char.
  unfold delete_tags. now repeat apply delete_tags_from_no_char.
Qed.

(** X6. A message without a dot and without a colon holds no URL. *)
Theorem extract_url_needs_dot_or_colon (message : string) :
  has_char "." message = false -> has_char ":" message = false ->
  extract_url_from_message message = None.
Proof.
  intros Hd Hc. unfold extract_url_from_message.
  apply cleaned_no_char in Hd. apply cleaned_no_char in Hc.
  set (clean := strip _) in *. unfold url_patterns. cbn [first_url].
  rewrite (first_found_needs ":") by (assumption || reflexivity).
  rewrite (first_found_needs ".") by (assumption || reflexivity).
  now rewrite (first_found_needs ".") by (assumption || reflexivity).
Qed.

Lemma extract_url_needs_dot_or_colon_witness :
  extract_url_from_message "call me at 555 0100, www or http" = None.
Proof.
  apply (extract_url_needs_dot_or_colon "call me at 555 0100, www or http");
    reflexivity.
Defined.

Lemma first_url_found patterns clean url :
  first_url patterns clean = Some url ->
  exists p text,
    In p patterns /\ first_found true p clean = Some text
    /\ url = add_protocol text.
Proof.
  induction patterns as [|p ps IH]; [discriminate|]. cbn [first_url].
  destruct (first_found true p clean) as [text|] eqn:Hf.
  - intros H; inversion H. exists p, text. repeat split; auto. now left.
  - intros H. destruct (IH H) as (q & text & Hin & Hq & ->).
    exists q, text. repeat split; auto. now right.
Qed.

Lemma has_scheme_add_protocol text : has_scheme (add_protocol text) = true.
Proof.
  unfold add_protocol. destruct (has_scheme text) eqn:H; [exact H|].
  cbn [negb]. assert (Hs : has_scheme ("https://" +:+ text) = true).
  { unfold has_scheme. rewrite (ContextExtras.prefix_app "https://").
    apply orb_true_r. }
  now destruct (String.prefix "www." text).
Qed.

(** X7. A URL found in a message always starts with "http://" or
    "https://" in lower case: the protocol is added in front of any match
    that does not start so, a match like "HTTP://x.io" included. *)
Theorem extract_url_has_scheme (message url : string) :
  extract_url_from_message message = Some url -> has_scheme url = true.
Proof.
  unfold extract_url_from_message. intros H.
  apply first_url_found in H as (p & text & _ & _ & ->).
  apply has_scheme_add_protocol.
Qed.

Lemma extract_url_has_scheme_witness :
  has_scheme "https://HTTP://Example.com/x" = true.
Proof.
  apply (extract_url_has_scheme "see HTTP://Example.com/x"). reflexivity.
Defined.


Lemma umatch_here_within P p s text :
  up_within true P p = true -> umatch_here true p s = Some text ->
  forall_chars P text = true.
Proof.
  intros Hw H. unfold umatch_here in H.
  apply (umatch_sound P true p Hw) in H as (pre & s' & g' & -> & Hp & H).
  inversion H. now rewrite consumed_app.
Qed.

Lemma first_found_within P p s text :
  up_within true P p = true -> first_found true p s = Some text ->
  forall_chars P text = true.
Proof.
  intros Hw. induction s as [|a s IH]; cbn [first_found];
    destruct (umatch_here true p _) as [t|] eqn:Hh;
    try discriminate; try (intros H; inversion H; subst t;
                           now apply (umatch_here_within P p _ text Hw Hh)).
  exact IH.
Qed.

Lemma url_patterns_within :
  forallb (up_within true url_ok) url_patterns = true.
Proof. vm_compute. reflexivity. Qed.

(** X8. A URL found in a message holds no white space and none of the
    characters [<>{}|\^`[]] or the double quote. *)
Theorem extract_url_characters (message url : string) :
  extract_url_from_message message = Some url ->
  forall_chars url_ok url = true.
Proof.
  unfold extract_url_from_message. intros H.
  apply first_url_found in H as (p & text & Hin & Hf & ->).
  pose proof url_patterns_within as Hw. rewrite forallb_forall in Hw.
  apply (first_found_within url_ok p _ text (Hw p Hin)) in Hf.
  unfold add_protocol. destruct (negb (has_scheme text)); [|exact Hf].
  assert (Hs : forall_chars url_ok ("https://" +:+ text) = true)
    by (rewrite forall_chars_app, Hf; reflexivity).
  now destruct (String.prefix "www." text).
Qed.

Lemma extract_url_characters_witness :
  forall_chars url_ok "https://shop.example" = true.
Proof.
  apply (extract_url_characters "open <shop.example.com/a?b=1> please").
  reflexivity.
Defined.

Lemma prefix_inv l : forall s,
  String.prefix l s = true -> exists t, s = l +:+ t.
Proof.
  induction l as [|c l IH]; intros s H; [now exists s|].
  destruct s as [|a s]; [discriminate|]. simpl in H.
  destruct (ascii_dec c a); [subst a|discriminate].
  destruct (IH s H) as [t ->]. now exists t.
Qed.

Lemma urlparse_scheme check sch t :
  sch = "http" \/ sch = "https" ->
  (exists msg, urlparse check (sch +:+ "://" +:+ t) = inl msg)
  \/ urlparse check (sch +:+ "://" +:+ t) = inr (Parsed sch (netloc_of t)).
Proof.
  intros [-> | ->].
  - assert (H : urlparse check ("http" +:+ "://" +:+ t)
                = let nl := netloc_of t in
                  let lb := has_char "[" nl in
                  let rb := has_char "]" nl in
                  if (lb && negb rb) || (rb && negb lb)
                  then inl "Invalid IPv6 URL"
                  else if lb && rb then
                    match check nl with
                    | Some msg => inl msg
                    | None => inr (Parsed "http" nl)
                    end
                  else inr (Parsed "http" nl)) by reflexivity.
    rewrite H. cbv zeta.
    destruct (_ || _); [eauto|]. destruct (_ && _); [|auto].
    destruct (check _); eauto.
  - assert (H : urlparse check ("https" +:+ "://" +:+ t)
                = let nl := netloc_of t in
                  let lb := has_char "[" nl in
                  let rb := has_char "]" nl in
                  if (lb && negb rb) || (rb && negb lb)
                  then inl "Invalid IPv6 URL"
                  else if lb && rb then
                    match check nl with
                    | Some msg => inl msg
                    | None => inr (Parsed "https" nl)
                    end
                  else inr (Parsed "https" nl)) by reflexivity.
    rewrite H. cbv zeta.
    destruct (_ || _); [eauto|]. destruct (_ && _); [|auto].
    destruct (check _); eauto.
Qed.

Lemma has_scheme_inv url :
  has_scheme url = true ->
  exists sch t, (sch = "http" \/ sch = "https") /\ url = sch +:+ "://" +:+ t.
Proof.
  unfold has_scheme. intros H. apply orb_true_iff in H as [H | H];
    apply prefix_inv in H as [t ->].
  - exists "http", t. auto.
  - exists "https", t. auto.
Qed.

(** X9. A URL found by [extract_url_from_message] always gets past the
    first two tests of [validate_url]: it is never answered with "No URL
    provided" nor with "Only HTTP and HTTPS protocols are allowed". *)
Theorem extracted_url_has_valid_scheme
        (check : string -> option string) (message url : string) :
  extract_url_from_message message = Some url ->
  reason (validate_url check url) <> "No URL provided"
  /\ reason (validate_url check url)
     <> "Only HTTP and HTTPS protocols are allowed".
Proof.
  intros H. unfold extract_url_from_message in H.
  apply first_url_found in H as (p & text & _ & _ & ->).
  pose proof (has_scheme_add_protocol text) as H.
  apply has_scheme_inv in H as (sch & t & Hsch & ->).
  unfold validate_url.
  assert (Hne : nonempty (sch +:+ "://" +:+ t) = true)
    by (destruct Hsch as [-> | ->]; reflexivity).
  rewrite Hne. cbn [negb].
  destruct (urlparse_scheme check sch t Hsch) as [[msg ->] | ->].
  - cbn [reason String.append]. split; intros HH; discriminate HH.
  - cbn [scheme netloc].
    assert (Hs : String.eqb sch "http" || String.eqb sch "https" = true)
      by (destruct Hsch as [-> | ->]; reflexivity).
    rewrite Hs. cbn [negb].
    destruct (negb (nonempty _));
      [cbn [reason]; split; intros HH; discriminate HH|].
    clear Hs.
    destruct (_ || negb _);
      [cbn [reason]; split; intros HH; discriminate HH|].
    destruct (check_patterns _ _) as [v|] eqn:Hc;
      [|cbn [reason]; split; intros HH; discriminate HH].
    assert (Hv : v = security_reject).
    { clear -Hc. revert Hc. generalize dangerous_patterns.
      induction l as [|r l IH]; cbn [check_patterns]; [discriminate|].
      destruct (is_match _); [destruct (dev_exception _)|]; auto.
      now intros [= <-]. }
    subst v. cbn [reason security_reject]. split; intros HH; discriminate HH.
Qed.

Lemma extracted_url_has_valid_scheme_witness :
  reason (validate_url (fun _ => None) "https://7.nip") <> "No URL provided"
  /\ reason (validate_url (fun _ => None) "https://7.nip")
     <> "Only HTTP and HTTPS protocols are allowed".
Proof.
  apply (extracted_url_has_valid_scheme (fun _ => None)
           "status page: 10.0.0.7.nip" "https://7.nip").
  reflexivity.
Defined.

End UrlExtras.

(** * More about the session logger registry *)

Module LoggerExtras.

Import PyStr Py Helpers Env LoggingConfig Server Spec HandlerSpec ExtraSpec.
Import HandlerFacts.

(** A call for a cached key returns the cached logger and changes nothing. *)
Lemma get_session_logger_hit project sid level w logger :
  session_loggers w !! logger_key project sid = Some logger ->
  get_session_logger project sid level w = (Returns logger, w).
Proof.
  intros Hc. destruct w. cbn [session_loggers] in Hc.
  unfold get_session_logger.
  replace (project +:+ "_"
           +:+ (if negb (truthy sid) then "NO_SESSION" else fmt sid))
    with (logger_key project sid)
    by (unfold logger_key; now destruct (truthy sid)).
  run. now rewrite Hc.
Qed.

(** A call for a key that is not cached: either it returns the logger
    named after the project and the session, configured and cached, or it
    raises and leaves the cache alone.  Nothing but the cache, the registry
    and the file system script changes. *)
Lemma get_session_logger_miss project sid level sl lg sc rec con fs td now sr :
  sl !! logger_key project sid = None ->
  let s := session_name sid in
  let name := logger_name project s in
  (exists fs',
      get_session_logger project sid level
                         (MkWorld sl lg sc rec con fs td now sr)
      = (Returns name,
         MkWorld (<[logger_key project sid := name]> sl)
                 (<[name := MkLogger level false
                      [FileHandler
                         [base_log_dir; project;
                          td +:+ "_SESSION-" +:+ s +:+ ".log"] level;
                       StreamHandler level]]> lg)
                 sc rec con fs' td now sr))
  \/ (exists e lg' fs',
         get_session_logger project sid level
                            (MkWorld sl lg sc rec con fs td now sr)
         = (Raises e, MkWorld sl lg' sc rec con fs' td now sr)).
Proof.
  intros Hc. unfold get_session_logger, _create_session_logger, reset_logger,
    addHandler, next_fs.
  replace (project +:+ "_"
           +:+ (if negb (truthy sid) then "NO_SESSION" else fmt sid))
    with (logger_key project sid)
    by (unfold logger_key; now destruct (truthy sid)).
  replace (if negb (truthy sid) then "NO_SESSION" else fmt sid)
    with (session_name sid)
    by (unfold session_name; now destruct (truthy sid)).
  generalize (session_name sid). intros s. unfold logger_name.
  cbv zeta. run. rewrite Hc.
  destruct (has_nul project); run; [right; eauto|].
  destruct fs as [|[| |] rest]; run; try (right; do 3 eexists; reflexivity);
    destruct (has_nul s); run; try (right; do 3 eexists; reflexivity);
    rewrite ?lookup_insert_eq; run; rewrite ?lookup_insert_eq; run;
    rewrite ?insert_insert_eq; cbn [app];
    left; eexists; reflexivity.
Qed.

(** [get_session_logger] reads and writes the cache, the registry and the
    file system only. *)
Lemma get_session_logger_frame project sid level w o w1 :
  get_session_logger project sid level w = (o, w1) ->
  records w1 = records w /\ console w1 = console w
  /\ search_records w1 = search_records w /\ today w1 = today w
  /\ session_context w1 = session_context w.
Proof.
  destruct (session_loggers w !! logger_key project sid) as [c|] eqn:Hc.
  - rewrite (get_session_logger_hit _ _ _ _ _ Hc). intros [= <- <-]. tauto.
  - destruct w as [sl lg sc rec con fs td now sr]. cbn [session_loggers] in Hc.
    destruct (get_session_logger_miss project sid level sl lg sc rec con fs
                td now sr Hc) as [(fs' & ->) | (e & lg' & fs' & ->)];
      intros [= <- <-]; cbn; tauto.
Qed.

(** A call that raises leaves the cache as it was, without the key. *)
Lemma raising_call_caches_nothing project sid level w e w1 :
  get_session_logger project sid level w = (Raises e, w1) ->
  session_loggers w1 = session_loggers w
  /\ session_loggers w1 !! logger_key project sid = None.
Proof.
  intros Hcall.
  destruct (session_loggers w !! logger_key project sid) as [c|] eqn:Hc.
  - rewrite (get_session_logger_hit _ _ _ _ _ Hc) in Hcall. discriminate.
  - destruct w as [sl lg sc rec con fs td now sr].
    cbn [session_loggers] in *.
    destruct (get_session_logger_miss project sid level sl lg sc rec con fs
                td now sr Hc) as [(fs' & H) | (e' & lg' & fs' & H)];
      rewrite H in Hcall; inversion Hcall; subst; cbn [session_loggers]; auto.
Qed.

(** What a call that creates a logger leaves. *)
Lemma created_logger_facts project sid level w w1 logger :
  session_loggers w !! logger_key project sid = None ->
  get_session_logger project sid level w = (Returns logger, w1) ->
  logger = logger_name project (session_name sid)
  /\ loggers w1 !! logger
     = Some (fresh_logger project (session_name sid) level w)
  /\ (forall other, other <> logger ->
                    loggers w1 !! other = loggers w !! other)
  /\ session_loggers w1
     = <[logger_key project sid := logger]> (session_loggers w)
  /\ today w1 = today w.
Proof.
  intros Hc Hcall. destruct w as [sl lg sc rec con fs td now sr].
  cbn [session_loggers] in Hc.
  destruct (get_session_logger_miss project sid level sl lg sc rec con fs
              td now sr Hc) as [(fs' & H) | (e' & lg' & fs' & H)];
    rewrite H in Hcall; inversion Hcall; subst.
  unfold fresh_logger, log_file. cbn [session_loggers loggers today].
  split; [reflexivity|]. split; [apply lookup_insert_eq|].
  split; [|split; reflexivity]. intros other Hne.
  apply lookup_insert_ne; congruence.
Qed.

(** X10. The cache only grows: whatever a call to [get_session_logger]
    does, a logger that was cached under some key before the call is cached
    under that key after it. *)
Theorem session_loggers_only_grow
        (project : string) (sid : option string) (level : Level)
        (w w1 : World) (o : Outcome logger_ref) (k : string)
        (logger : logger_ref) :
  get_session_logger project sid level w = (o, w1) ->
  session_loggers w !! k = Some logger ->
  session_loggers w1 !! k = Some logger.
Proof.
  intros Hcall Hk.
  destruct (session_loggers w !! logger_key project sid) as [c|] eqn:Hc.
  - rewrite (get_session_logger_hit _ _ _ _ _ Hc) in Hcall.
    now inversion Hcall; subst.
  - destruct w as [sl lg sc rec con fs td now sr].
    cbn [session_loggers] in *.
    assert (Hne : logger_key project sid <> k) by congruence.
    destruct (get_session_logger_miss project sid level sl lg sc rec con fs
                td now sr Hc) as [(fs' & H) | (e' & lg' & fs' & H)];
      rewrite H in Hcall; inversion Hcall; subst; cbn [session_loggers];
      rewrite ?lookup_insert_ne by exact Hne; exact Hk.
Qed.

Lemma session_loggers_only_grow_witness :
  let w := snd (get_session_logger "MCP Server" (Some "s1") INFO fresh_world) in
  let w1 := snd (get_session_logger "MCP Server" (Some "s2") INFO w) in
  session_loggers w1 !! "MCP Server_s1" = Some "MCP Server.s1".
Proof.
  apply (session_loggers_only_grow "MCP Server" (Some "s2") INFO
           (snd (get_session_logger "MCP Server" (Some "s1") INFO fresh_world))
           _ (Returns "MCP Server.s2")).
  - vm_compute. reflexivity.
  - vm_compute. reflexivity.
Defined.

(** X11. A call to [get_session_logger] that raises caches nothing: the
    cache is as it was and holds no logger for the key, so the next call
    for that project and session tries the creation again. *)
Theorem failed_creation_is_not_cached
        (project : string) (sid : option string) (level : Level)
        (w w1 : World) (e : exn) :
  get_session_logger project sid level w = (Raises e, w1) ->
  session_loggers w1 = session_loggers w
  /\ session_loggers w1 !! logger_key project sid = None.
Proof. apply raising_call_caches_nothing. Qed.

Lemma failed_creation_is_not_cached_witness :
  let w1 := snd (get_session_logger "MCP Server" (Some nul_session) INFO
                                    fresh_world) in
  session_loggers w1 = session_loggers fresh_world
  /\ session_loggers w1 !! logger_key "MCP Server" (Some nul_session) = None.
Proof.
  apply (failed_creation_is_not_cached "MCP Server" (Some nul_session) INFO
           fresh_world
           (snd (get_session_logger "MCP Server" (Some nul_session) INFO
                                    fresh_world))
           null_byte).
  vm_compute. reflexivity.
Defined.

(** X12. The cache key joins the project and the session with an
    underscore, so two requests whose keys coincide share one logger: after
    a call that returned a logger, a call for any project and session with
    the same key returns that logger and changes nothing, whatever its
    project directory would have been. *)
Theorem colliding_keys_share_a_logger
        (p1 p2 : string) (s1 s2 : option string) (lv lv' : Level)
        (w w1 : World) (logger : logger_ref) :
  logger_key p1 s1 = logger_key p2 s2 ->
  get_session_logger p1 s1 lv w = (Returns logger, w1) ->
  get_session_logger p2 s2 lv' w1 = (Returns logger, w1).
Proof.
  intros Hkey Hcall. apply get_session_logger_hit. rewrite <- Hkey.
  destruct (session_loggers w !! logger_key p1 s1) as [c|] eqn:Hc.
  - rewrite (get_session_logger_hit _ _ _ _ _ Hc) in Hcall.
    now inversion Hcall; subst.
  - destruct (created_logger_facts p1 s1 lv w w1 logger Hc Hcall)
      as (_ & _ & _ & -> & _).
    apply lookup_insert_eq.
Qed.

Lemma colliding_keys_share_a_logger_witness :
  let w1 := snd (get_session_logger "a_b" (Some "c") INFO fresh_world) in
  get_session_logger "a" (Some "b_c") INFO w1 = (Returns "a_b.c", w1).
Proof.
  apply (colliding_keys_share_a_logger "a_b" "a" (Some "c") (Some "b_c")
           INFO INFO fresh_world).
  - reflexivity.
  - vm_compute. reflexivity.
Defined.

(** X13. A call that creates a logger returns the logger named
    "{project_name}.{session_id}", leaves it with exactly two handlers (the
    session's file of the day, then the console), at the requested level
    and without propagation, whatever that logger held before; it caches it
    under the key and leaves every other logger of the registry alone. *)
Theorem created_logger_is_fresh
        (project : string) (sid : option string) (level : Level)
        (w w1 : World) (logger : logger_ref) :
  session_loggers w !! logger_key project sid = None ->
  get_session_logger project sid level w = (Returns logger, w1) ->
  logger = logger_name project (session_name sid)
  /\ loggers w1 !! logger
     = Some (fresh_logger project (session_name sid) level w)
  /\ (forall other, other <> logger ->
                    loggers w1 !! other = loggers w !! other)
  /\ session_loggers w1
     = <[logger_key project sid := logger]> (session_loggers w).
Proof.
  intros Hc Hcall.
  destruct (created_logger_facts project sid level w w1 logger Hc Hcall)
    as (H1 & H2 & H3 & H4 & _).
  auto.
Qed.

Lemma created_logger_is_fresh_witness :
  let w1 := snd (get_session_logger "MCP Server" None DEBUG fresh_world) in
  loggers w1 !! "MCP Server.NO_SESSION"
  = Some (MkLogger DEBUG false
            [FileHandler [base_log_dir; "MCP Server";
                          "2026-01-01_SESSION-NO_SESSION.log"] DEBUG;
             StreamHandler DEBUG]).
Proof.
  destruct (created_logger_is_fresh "MCP Server" None DEBUG fresh_world
              (snd (get_session_logger "MCP Server" None DEBUG fresh_world))
              "MCP Server.NO_SESSION")
    as (_ & H & _).
  - reflexivity.
  - vm_compute. reflexivity.
  - exact H.
Defined.

(** X14. The logger name joins the project and the session with a dot, so
    two requests with different keys can name the same logger.  When both
    create it, both keys are cached with that one logger, and the logger
    writes to the file of the second request only: the handler for the
    file of the first request is gone. *)
Theorem same_name_rebinds_the_file
        (p1 p2 : string) (s1 s2 : option string) (lv1 lv2 : Level)
        (w w1 w2 : World) (logger1 logger2 : logger_ref) :
  logger_name p1 (session_name s1) = logger_name p2 (session_name s2) ->
  logger_key p1 s1 <> logger_key p2 s2 ->
  session_loggers w !! logger_key p1 s1 = None ->
  session_loggers w !! logger_key p2 s2 = None ->
  get_session_logger p1 s1 lv1 w = (Returns logger1, w1) ->
  get_session_logger p2 s2 lv2 w1 = (Returns logger2, w2) ->
  logger2 = logger1
  /\ session_loggers w2 !! logger_key p1 s1 = Some logger1
  /\ session_loggers w2 !! logger_key p2 s2 = Some logger1
  /\ loggers w2 !! logger1
     = Some (fresh_logger p2 (session_name s2) lv2 w).
Proof.
  intros Hname Hkey Hc1 Hc2 Hcall1 Hcall2.
  destruct (created_logger_facts p1 s1 lv1 w w1 logger1 Hc1 Hcall1)
    as (Hl1 & _ & _ & Hsl1 & Htd1).
  assert (Hc2' : session_loggers w1 !! logger_key p2 s2 = None).
  { rewrite Hsl1, lookup_insert_ne by exact Hkey. exact Hc2. }
  destruct (created_logger_facts p2 s2 lv2 w1 w2 logger2 Hc2' Hcall2)
    as (Hl2 & Hreg & _ & Hsl2 & _).
  assert (Heq : logger2 = logger1) by congruence.
  split; [exact Heq|]. rewrite Hsl2, Hsl1. split; [|split].
  - rewrite lookup_insert_ne by congruence. apply lookup_insert_eq.
  - rewrite Heq. apply lookup_insert_eq.
  - rewrite <- Heq, Hreg. unfold fresh_logger, log_file.
    now rewrite Htd1.
Qed.

Lemma same_name_rebinds_the_file_witness :
  let w1 := snd (get_session_logger "a.b" (Some "c") INFO fresh_world) in
  let w2 := snd (get_session_logger "a" (Some "b.c") INFO w1) in
  loggers w2 !! "a.b.c"
  = Some (MkLogger INFO false
            [FileHandler [base_log_dir; "a"; "2026-01-01_SESSION-b.c.log"]
                         INFO;
             StreamHandler INFO]).
Proof.
  destruct (same_name_rebinds_the_file "a.b" "a" (Some "c") (Some "b.c")
              INFO INFO fresh_world
              (snd (get_session_logger "a.b" (Some "c") INFO fresh_world))
              (snd (get_session_logger "a" (Some "b.c") INFO
                      (snd (get_session_logger "a.b" (Some "c") INFO
                                               fresh_world))))
              "a.b.c" "a.b.c")
    as (_ & _ & _ & H).
  - reflexivity.
  - vm_compute. discriminate.
  - reflexivity.
  - reflexivity.
  - vm_compute. reflexivity.
  - vm_compute. reflexivity.
  - exact H.
Defined.

End LoggerExtras.

(** * More about the tool handlers *)

Module HandlerExtras.

Import PyStr Py Helpers Env LoggingConfig Server Spec HandlerSpec ExtraSpec.
Import HandlerFacts ReFacts TagFacts.

Lemma lift_run {A} (m : M World A) l w :
  lift m (l, w) = let '(o, w') := m w in (o, (l, w')).
Proof. reflexivity. Qed.

(** An [ERROR] message passes a logger made at level [INFO]. *)
Lemma fresh_logger_logs_errors registry name project sid w :
  registry !! name = Some (fresh_logger project sid INFO w) ->
  enabled_for registry name ERROR = true.
Proof. intros H. unfold enabled_for. now rewrite H. Qed.

Lemma error_run logger msg l sl lg sc rec con fs td now sr :
  lift (error logger msg) (l, MkWorld sl lg sc rec con fs td now sr)
  = (Returns tt,
     (l, MkWorld sl lg sc
                 ((if enabled_for lg (ad_logger logger) ERROR
                   then [record_of logger ERROR msg] else []) ++ rec)%list
                 con fs td now sr)).
Proof. reflexivity. Qed.

(** The records that a loop of [logger.error] calls adds, newest first,
    when the logger lets errors pass. *)
Lemma for_each_error logger lines l sl lg sc con fs td now sr :
  enabled_for lg (ad_logger logger) ERROR = true ->
  forall rec,
    for_each lines (fun line => lift (error logger line))
             (l, MkWorld sl lg sc rec con fs td now sr)
    = (Returns tt,
       (l, MkWorld sl lg sc
                   (rev (map (record_of logger ERROR) lines) ++ rec)%list
                   con fs td now sr)).
Proof.
  intros Hen. induction lines as [|x xs IH]; intros; [reflexivity|].
  cbn [for_each map rev]. unfold bind at 1.
  rewrite error_run, Hen, IH. cbn [app].
  rewrite <- app_assoc. reflexivity.
Qed.

(** The [except] block after a call that could not make the logger of the
    session: it reports the error through the emergency logger, made anew
    at level [INFO], as records of level [ERROR] under the session id, or
    else on the console. *)
Lemma emergency_log_effect name lines e l w :
  session_loggers w !! logger_key "MCP Server" (l_session_id l) = None ->
  exists w',
    emergency_log name lines e (l, w) = (Returns tt, (l, w'))
    /\ ((exists lgr,
            records w'
            = (rev (map (record_of (MkAdapter lgr (l_session_id l)) ERROR)
                        (lines l)) ++ records w)%list
            /\ console w' = console w)
        \/ (records w' = records w
            /\ console w'
               = ("CRITICAL ERROR in " +:+ name +:+ ": " +:+ str_exn e)
                   :: console w)).
Proof.
  destruct l as [q sid p b]. cbn [l_session_id]. intros Hmiss.
  destruct (get_session_logger "MCP Server" sid INFO w) as [o w1] eqn:Hg.
  destruct (LoggerExtras.get_session_logger_frame _ _ _ _ _ _ Hg)
    as (Hrec & Hcon & _).
  assert (Hen : forall lgr, o = Returns lgr ->
                            enabled_for (loggers w1) lgr ERROR = true).
  { intros lgr ->.
    destruct (LoggerExtras.created_logger_facts _ _ _ _ _ _ Hmiss Hg)
      as (_ & Hreg & _).
    exact (fresh_logger_logs_errors _ _ _ _ _ Hreg). }
  destruct w as [sl lg sc rec con fs td now sr].
  destruct w1 as [sl1 lg1 sc1 rec1 con1 fs1 td1 now1 sr1].
  cbn [records console loggers] in Hrec, Hcon, Hen. subst rec1 con1.
  unfold emergency_log.
  cbv beta iota zeta delta
    [mbind M_bind bind locals try_except session_id_in_locals l_session_id].
  rewrite (lift_run (get_session_logger "MCP Server" sid INFO)), Hg.
  destruct o as [lgr|e'].
  - unfold frame. rewrite for_each_error by (apply Hen; reflexivity).
    eexists. split; [reflexivity|].
    left. exists lgr. cbn [records console l_session_id]. auto.
  - run. eexists. split; [reflexivity|]. right. cbn [records console]. auto.
Qed.

(** A cancel or reschedule call whose logger cannot be made. *)
Lemma form_tool_failure title name url ok bad q sid p b w e w1 :
  get_session_logger "MCP Server" (with_fallback sid) INFO w
  = (Raises e, w1) ->
  exists w',
    call (MkLocals q sid p b)
         (try_except (form_body title url ok) (form_except name bad)) w
    = (Returns (JsonReply (MkReply bad None false (with_fallback sid))), w')
    /\ ((exists lgr,
            records w'
            = MkRecord lgr ERROR (with_fallback sid)
                       ("❌ Error in " +:+ name +:+ ": " +:+ str_exn e)
                :: records w
            /\ console w' = console w)
        \/ (records w' = records w
            /\ console w'
               = ("CRITICAL ERROR in " +:+ name +:+ ": " +:+ str_exn e)
                   :: console w)).
Proof.
  intros Hg.
  destruct (LoggerExtras.get_session_logger_frame _ _ _ _ _ _ Hg)
    as (Hrec & Hcon & _).
  destruct (LoggerExtras.raising_call_caches_nothing _ _ _ _ _ _ Hg)
    as (_ & Hmiss).
  pose proof (form_body_run title url ok q sid p b w) as Hrun.
  cbv zeta in Hrun. unfold with_fallback in Hg, Hmiss. rewrite Hg in Hrun.
  unfold call, try_except. rewrite Hrun. unfold form_except.
  match goal with
  | |- context [emergency_log ?n ?lines e] =>
      destruct (emergency_log_effect n lines e
                  (MkLocals q (if truthy sid then sid
                               else Some "fallback-session-id") p b) w1
                  Hmiss)
        as (w' & Hw & Heff)
  end.
  exists w'. unfold mbind, M_bind, bind, failure_reply. rewrite Hw.
  split; [reflexivity|]. rewrite <- Hrec, <- Hcon. unfold with_fallback.
  destruct Heff as [(lgr & H1 & H2) | (H1 & H2)]; [left; exists lgr|right];
    auto.
Qed.

(** X15. Every reply of [cancel_appointment_tool] and of
    [reschedule_appointment_tool] carries a session id that is not empty. *)
Theorem appointment_form_reply_has_session_id
        (url query : string) (sid path bot_id : option string) (w : World) :
  (exists r,
      fst (cancel_appointment_tool url query sid path bot_id w)
      = Returns (JsonReply r)
      /\ truthy (reply_session_id r) = true)
  /\ (exists r,
         fst (reschedule_appointment_tool url query sid path bot_id w)
         = Returns (JsonReply r)
         /\ truthy (reply_session_id r) = true).
Proof.
  unfold cancel_appointment_tool, reschedule_appointment_tool.
  rewrite !HandlerClaims.form_tool_run.
  split; eexists; (split; [reflexivity|]);
    apply HandlerClaims.form_tool_session_id.
Qed.


Lemma contains_prefix l r : contains l (l +:+ r) = true.
Proof.
  assert (H : forall s, String.prefix l s = true -> contains l s = true)
    by (intros [|c s] H; cbn [contains]; now rewrite H).
  apply H, ContextExtras.prefix_app.
Qed.

Lemma contains_mid a l r : contains l (a +:+ l +:+ r) = true.
Proof.
  induction a as [|c a IH]; [exact (contains_prefix l r)|].
  cbn [String.append contains]. rewrite IH. apply orb_true_r.
Qed.

Lemma session_tag_has_tags q v :
  ctx_session_id (extract_context_from_message q) = Some v ->
  has_tags q = true.
Proof.
  unfold extract_context_from_message. cbn [ctx_session_id].
  rewrite tag_value_first_tag. intros H.
  apply has_tags_of_marker. left.
  destruct (contains "[SESSION_ID:" q) eqn:E; [reflexivity|].
  apply (ContextExtras.no_marker_no_bracket "SESSION_ID") in E.
  rewrite first_tag_no_bracket in H by exact E. discriminate.
Qed.

(** The reply of a cancel or reschedule call, from the call itself. *)
Lemma form_tool_reply_of title name url ok bad q sid p b w r w' :
  call (MkLocals q sid p b)
       (try_except (form_body title url ok) (form_except name bad)) w
  = (Returns (JsonReply r), w') ->
  r = form_tool_reply url ok bad q sid w.
Proof.
  intros Hcall.
  pose proof (HandlerClaims.form_tool_run title name url ok bad q sid p b w)
    as Hrun.
  rewrite Hcall in Hrun. cbn [fst] in Hrun. congruence.
Qed.

Lemma form_reply_facts url ok bad q sid w :
  let r := form_tool_reply url ok bad q sid w in
  (reply_success r = true
   <-> exists lgr w1,
        get_session_logger "MCP Server" (with_fallback sid) INFO w
        = (Returns lgr, w1))
  /\ (reply_success r = true ->
      reply_form_url r
      = Some (with_session url (reply_session_id r) (now_ms w)))
  /\ (reply_success r = false ->
      reply_form_url r = None /\ reply_session_id r = with_fallback sid).
Proof.
  unfold form_tool_reply.
  destruct (get_session_logger "MCP Server" (with_fallback sid) INFO w)
    as [[lgr|e] w1]; cbn [fst reply_success reply_form_url reply_session_id].
  - split; [split; eauto|]. split; [reflexivity | discriminate].
  - split; [split; [discriminate | intros (? & ? & [=])]|].
    split; [discriminate | auto].
Qed.

(** X16. A cancel or reschedule call answers with [success] true exactly
    when the session logger for its [session_id] parameter (the fallback
    when that is empty) can be had.  Then the form URL of the reply carries
    the session id of the reply and the clock; otherwise the reply has no
    form URL and its session id is the parameter or the fallback, whatever
    the query holds. *)
Theorem appointment_form_success
        (tool : string -> string -> option string -> option string
                -> option string -> M World ToolResult)
        (url query : string) (sid path bot_id : option string)
        (w w' : World) (r : Reply) :
  tool = cancel_appointment_tool \/ tool = reschedule_appointment_tool ->
  tool url query sid path bot_id w = (Returns (JsonReply r), w') ->
  (reply_success r = true
   <-> exists lgr w1,
        get_session_logger "MCP Server" (with_fallback sid) INFO w
        = (Returns lgr, w1))
  /\ (reply_success r = true ->
      reply_form_url r
      = Some (with_session url (reply_session_id r) (now_ms w)))
  /\ (reply_success r = false ->
      reply_form_url r = None /\ reply_session_id r = with_fallback sid).
Proof.
  intros [-> | ->] Hcall;
    unfold cancel_appointment_tool, reschedule_appointment_tool in Hcall;
    apply form_tool_reply_of in Hcall; subst r; apply form_reply_facts.
Qed.

Lemma appointment_form_success_witness :
  reply_form_url
    (form_tool_reply "https://forms.example/c"
       "I'm opening the appointment cancellation form for you. Please fill it out to cancel your appointment."
       "Sorry, I couldn't open the appointment cancellation form at this moment."
       "cancel it" (Some "s1") fresh_world)
  = Some "https://forms.example/c?session_id=s1&ts=1767225600000".
Proof.
  destruct (appointment_form_success cancel_appointment_tool
              "https://forms.example/c" "cancel it" (Some "s1") None None
              fresh_world
              (snd (cancel_appointment_tool "https://forms.example/c"
                      "cancel it" (Some "s1") None None fresh_world))
              (form_tool_reply "https://forms.example/c"
                 "I'm opening the appointment cancellation form for you. Please fill it out to cancel your appointment."
                 "Sorry, I couldn't open the appointment cancellation form at this moment."
                 "cancel it" (Some "s1") fresh_world))
    as (_ & H & _); [left; reflexivity | vm_compute; reflexivity |].
  exact (H eq_refl).
Defined.

(** X17. A session tag in the query overrides the [session_id] parameter
    in a successful cancel or reschedule reply: when the extractor finds a
    session id that is not empty, the reply carries it, and so does the
    form URL. *)
Theorem appointment_form_tag_overrides_parameter
        (tool : string -> string -> option string -> option string
                -> option string -> M World ToolResult)
        (url query v : string) (sid path bot_id : option string)
        (w w' : World) (r : Reply) :
  tool = cancel_appointment_tool \/ tool = reschedule_appointment_tool ->
  ctx_session_id (extract_context_from_message query) = Some v ->
  nonempty v = true ->
  tool url query sid path bot_id w = (Returns (JsonReply r), w') ->
  reply_success r = true ->
  reply_session_id r = Some v
  /\ reply_form_url r = Some (with_session url (Some v) (now_ms w)).
Proof.
  intros Htool Hv Hne Hcall Hok.
  assert (Hr : exists ok bad, r = form_tool_reply url ok bad query sid w).
  { destruct Htool as [-> | ->];
      unfold cancel_appointment_tool, reschedule_appointment_tool in Hcall;
      apply form_tool_reply_of in Hcall; eauto. }
  destruct Hr as (ok & bad & ->). unfold form_tool_reply in *.
  rewrite (session_tag_has_tags query v Hv), Hv in *.
  unfold py_or, truthy in *. rewrite Hne in *.
  destruct (fst (get_session_logger _ _ _ w)); [|discriminate Hok].
  cbn [reply_session_id reply_form_url]. auto.
Qed.

Lemma appointment_form_tag_overrides_parameter_witness :
  reply_session_id
    (form_tool_reply "https://forms.example/r"
       "I'm opening the appointment rescheduling form for you. Please fill it out to reschedule your appointment."
       "Sorry, I couldn't open the appointment rescheduling form at this moment."
       "[SESSION_ID: t9] move it" (Some "s1") fresh_world)
  = Some "t9".
Proof.
  destruct (appointment_form_tag_overrides_parameter
              reschedule_appointment_tool
              "https://forms.example/r" "[SESSION_ID: t9] move it" "t9"
              (Some "s1") None None fresh_world
              (snd (reschedule_appointment_tool "https://forms.example/r"
                      "[SESSION_ID: t9] move it" (Some "s1") None None
                      fresh_world))
              (form_tool_reply "https://forms.example/r"
                 "I'm opening the appointment rescheduling form for you. Please fill it out to reschedule your appointment."
                 "Sorry, I couldn't open the appointment rescheduling form at this moment."
                 "[SESSION_ID: t9] move it" (Some "s1") fresh_world))
    as (H & _);
    [right; reflexivity | vm_compute; reflexivity | reflexivity
     | vm_compute; reflexivity | vm_compute; reflexivity |].
  exact H.
Defined.

(** X18. The session id of a booking reply never comes from the query: it
    is the [session_id] parameter as passed, or the fallback constant. *)
Theorem book_reply_session_id_not_from_query
        (FORM_URL_1 FORM_URL_2 query : string) (sid bot_id : option string)
        (w : World) :
  exists r,
    fst (book_appointment_tool FORM_URL_1 FORM_URL_2 query sid bot_id w)
    = Returns (JsonReply r)
    /\ (reply_session_id r = sid
        \/ reply_session_id r = Some "fallback-session-id").
Proof.
  rewrite HandlerClaims.book_tool_run. eexists. split; [reflexivity|].
  unfold book_tool_reply, with_fallback.
  destruct (has_tags query); [now left|].
  destruct (fst (get_session_logger _ _ _ w)); cbn [reply_session_id];
    destruct (truthy sid); auto.
Qed.

(** X19. A cancel or reschedule call that fails says so: the error is
    logged at level [ERROR] under the session id by the emergency logger,
    or, when that logger cannot be made either, printed on the console as
    a CRITICAL ERROR line.  Nothing else is logged or printed. *)
Theorem appointment_form_failure_is_reported
        (url query : string) (sid path bot_id : option string)
        (w w' : World) (r : Reply) :
  (cancel_appointment_tool url query sid path bot_id w
   = (Returns (JsonReply r), w')
   \/ reschedule_appointment_tool url query sid path bot_id w
      = (Returns (JsonReply r), w')) ->
  reply_success r = false ->
  (exists lgr text,
      records w' = MkRecord lgr ERROR (with_fallback sid) text :: records w
      /\ contains "Error in " text = true
      /\ console w' = console w)
  \/ (exists line,
         records w' = records w
         /\ String.prefix "CRITICAL ERROR in " line = true
         /\ console w' = line :: console w).
Proof.
  intros Hcall Hfail.
  assert (H : exists title name ok bad,
             call (MkLocals query sid path bot_id)
                  (try_except (form_body title url ok)
                              (form_except name bad)) w
             = (Returns (JsonReply r), w')).
  { destruct Hcall as [H | H]; do 4 eexists; exact H. }
  destruct H as (title & name & ok & bad & H).
  pose proof (form_tool_reply_of _ _ _ _ _ _ _ _ _ _ _ _ H) as Hr.
  destruct (get_session_logger "MCP Server" (with_fallback sid) INFO w)
    as [[lgr|e] w1] eqn:Hg.
  - subst r. unfold form_tool_reply in Hfail. rewrite Hg in Hfail.
    discriminate Hfail.
  - destruct (form_tool_failure title name url ok bad query sid path bot_id
                w e w1 Hg) as (w2 & Hrun & Heff).
    rewrite Hrun in H. assert (Hw : w2 = w') by congruence. subst w2.
    destruct Heff as [(lgr & Hrec & Hcon) | (Hrec & Hcon)].
    + left. exists lgr. eexists. split; [exact Hrec|]. split; [|exact Hcon].
      exact (contains_mid "❌ " "Error in " (name +:+ ": " +:+ str_exn e)).
    + right. eexists. split; [exact Hrec|]. split; [|exact Hcon].
      apply ContextExtras.prefix_app.
Qed.

Lemma appointment_form_failure_is_reported_witness :
  exists lgr text,
    records (snd (cancel_appointment_tool "https://forms.example/c"
                    "cancel it" None None None read_only_world))
    = [MkRecord lgr ERROR (Some "fallback-session-id") text].
Proof.
  destruct (appointment_form_failure_is_reported
              "https://forms.example/c" "cancel it" None None None
              read_only_world
              (snd (cancel_appointment_tool "https://forms.example/c"
                      "cancel it" None None None read_only_world))
              (MkReply "Sorry, I couldn't open the appointment cancellation form at this moment."
                       None false (Some "fallback-session-id")))
    as [(lgr & text & H & _) | (line & H & _)];
    [left; vm_compute; reflexivity | reflexivity | | ].
  - exists lgr, text. exact H.
  - vm_compute in H. discriminate H.
Defined.

(** [rag_body] on a query without tags, once the logger is there. *)
Lemma rag_body_plain q sid p b w lgr w1 :
  has_tags q = false ->
  get_session_logger "MCP Server" (with_fallback sid) INFO w
  = (Returns lgr, w1) ->
  exists l' w',
    rag_body (MkLocals q sid p b, w)
    = (match search_records w (rag_namespace b p) q with
       | SearchRaises e => Raises e
       | SearchHits hits =>
           Returns (PlainText
                      (rag_answer (search_records w (rag_namespace b p) q)))
       end, (l', w')).
Proof.
  intros Ht Hg.
  destruct (LoggerExtras.get_session_logger_frame _ _ _ _ _ _ Hg)
    as (_ & _ & Hsr & _).
  destruct w as [sl lg sc rec con fs td now sr].
  destruct w1 as [sl1 lg1 sc1 rec1 con1 fs1 td1 now1 sr1].
  cbn [search_records] in Hsr. subst sr1. cbn [search_records].
  unfold with_fallback in Hg. unfold rag_body, rag_namespace, rag_answer.
  run. rewrite Ht. run.
  destruct (truthy sid) eqn:Hs; run; rewrite Hg; run.
  all: destruct (truthy b) eqn:Hb; cbn [andb]; run; rewrite ?Hb; run.
  all: try (destruct (truthy p) eqn:Hp; run; rewrite ?Hb; run).
  all: try (change (truthy (Some (get_bot_id_from_path (fmt p))))
              with (nonempty (get_bot_id_from_path (fmt p)));
            destruct (nonempty (get_bot_id_from_path (fmt p))); run).
  all: cbn [fmt].
  all: match goal with
       | |- context [match ?o with SearchRaises _ => _ | SearchHits _ => _ end] =>
           destruct o as [e|[|h hs]]; run
       end.
  all: eexists; eexists; reflexivity.
Qed.

(** X20. The answer of [rag_retrieval_tool] to a query without tags.  When
    the session logger can be had, the answer is read off what the index
    gives for the query as it came, in the namespace named by the [bot_id]
    parameter, else by the last segment of [path], else the default "hr4s":
    the sentence for no hits, the dump of the hits, or the error text of
    the index.  When the logger cannot be had, the answer is the error
    text of the logger. *)
Theorem rag_untagged_answer
        (query : string) (sid path bot_id : option string) (w : World) :
  has_tags query = false ->
  fst (rag_retrieval_tool query sid path bot_id w)
  = Returns
      (PlainText
         match fst (get_session_logger "MCP Server" (with_fallback sid)
                                       INFO w) with
         | Returns _ =>
             rag_answer (search_records w (rag_namespace bot_id path) query)
         | Raises e =>
             "Error retrieving context from Pinecone: " +:+ str_exn e
         end).
Proof.
  intros Ht. unfold rag_retrieval_tool.
  destruct (get_session_logger "MCP Server" (with_fallback sid) INFO w)
    as [[lgr|e] w1] eqn:Hg; cbn [fst].
  - destruct (rag_body_plain query sid path bot_id w lgr w1 Ht Hg)
      as (l' & w' & Hrun).
    unfold call, try_except. rewrite Hrun.
    destruct (search_records w (rag_namespace bot_id path) query)
      as [e|hits]; [|reflexivity].
    destruct (HandlerClaims.rag_except_run e l' w') as [w2 ->]. reflexivity.
  - assert (Hrun : rag_body (MkLocals query sid path bot_id, w)
                   = (Raises e, (MkLocals query (with_fallback sid) path
                                          bot_id, w1))).
    { destruct w as [sl lg sc rec con fs td now sr].
      destruct w1 as [sl1 lg1 sc1 rec1 con1 fs1 td1 now1 sr1].
      unfold with_fallback in *. unfold rag_body. run. rewrite Ht. run.
      destruct (truthy sid) eqn:Hs; run; rewrite Hg; reflexivity. }
    unfold call, try_except. rewrite Hrun.
    destruct (HandlerClaims.rag_except_run
                e (MkLocals query (with_fallback sid) path bot_id) w1)
      as [w2 ->].
    reflexivity.
Qed.

Lemma rag_untagged_answer_witness :
  fst (rag_retrieval_tool "opening hours" None
                          (Some "e1/burneteyecarepinecone/QApixW/") None
                          indexed_world)
  = Returns (PlainText ("Here's what I found:" +:+ nl +:+ nl
                        +:+ "[{'_id': 'r1'}]")).
Proof.
  apply (rag_untagged_answer "opening hours" None
           (Some "e1/burneteyecarepinecone/QApixW/") None indexed_world).
  reflexivity.
Defined.





End HandlerExtras.
